(** * Indicator engine, signal classifier, simulators and forecaster

    A shallow embedding of the computation pipeline of the stock dashboard:
    - [indicators.js]   (ema, rolling, calculateSMA, calculateRSI, calculateMACD,
                         calculateBollingerBands, calculateStochasticOscillator,
                         calculateVWAP, calculateADX, calculateBollingerBandwidth,
                         calculateIchimoku),
    - [marketData.js]   (generateMockHistory),
    - [predictions.js]  (linearRegression, smoothSeries, predictFuturePrices),
    - [backtesting.js]  (backtestStrategy, runTradingSimulation),
    - [AdvancedBacktest.jsx] (maxDrawdown, runSimulation, handleRun),
    - [computeSignals.js] and the [/insights] route (the part that threads the
      starting capital into the simulation, the signal summary and the price
      targets).

    JavaScript numbers are IEEE-754 binary64 values.  The program is written
    once, over an interface [Arith] of the arithmetic it uses, and read at two
    instances:
    - [ExactArith] : exact rationals [Q].  No rounding, no overflow, no NaN;
      this is the instance the universally quantified arithmetic theorems are
      proved at.  Every division those theorems go through has a non-zero
      divisor (guarded by the code or by a hypothesis).
    - [F64Arith] : Rocq's primitive binary64 floats, the arithmetic the code
      really runs on; used to evaluate the program on concrete inputs.
    Theorems that do not depend on arithmetic laws are proved for every
    instance.

    Conventions: [None] in a series is JavaScript's [null]; a window is a
    natural number; a date is a day number; [Math.sqrt] is a parameter of
    the functions that call it. *)

From Stdlib Require Import ZArith QArith Qround List String Ascii Bool Lia Lqa Floats Uint63.
Import ListNotations.

Set Implicit Arguments.

(** ** Numbers *)

Declare Scope num_scope.
Delimit Scope num_scope with num.

Class Arith (N : Type) : Type := {
  ofZ : Z -> N;                 (* an integer literal *)
  nadd : N -> N -> N;
  nsub : N -> N -> N;
  nmul : N -> N -> N;
  ndiv : N -> N -> N;
  nopp : N -> N;                (* unary minus *)
  neqb : N -> N -> bool;        (* a === b *)
  nltb : N -> N -> bool;        (* a < b *)
  nleb : N -> N -> bool;        (* a <= b *)
  is_finite : N -> bool         (* Number.isFinite(a) *)
}.

Infix "+" := nadd : num_scope.
Infix "-" := nsub : num_scope.
Infix "*" := nmul : num_scope.
Infix "/" := ndiv : num_scope.
Notation "- x" := (nopp x) : num_scope.
Infix "=?" := neqb (at level 70) : num_scope.
Infix "<?" := nltb (at level 70) : num_scope.
Infix "<=?" := nleb (at level 70) : num_scope.

#[export] Instance ExactArith : Arith Q := {
  ofZ := inject_Z;
  nadd := Qplus;
  nsub := Qminus;
  nmul := Qmult;
  ndiv := Qdiv;
  nopp := Qopp;
  neqb := Qeq_bool;
  nltb := fun a b => negb (Qle_bool b a);
  nleb := Qle_bool;
  is_finite := fun _ => true
}.

Definition f64_ofZ (z : Z) : float :=
  match z with
  | Z0 => PrimFloat.zero
  | Zpos _ => PrimFloat.of_uint63 (Uint63.of_Z z)
  | Zneg p => PrimFloat.opp (PrimFloat.of_uint63 (Uint63.of_Z (Zpos p)))
  end.

#[export] Instance F64Arith : Arith float := {
  ofZ := f64_ofZ;
  nadd := PrimFloat.add;
  nsub := PrimFloat.sub;
  nmul := PrimFloat.mul;
  ndiv := PrimFloat.div;
  nopp := PrimFloat.opp;
  neqb := PrimFloat.eqb;
  nltb := PrimFloat.ltb;
  nleb := PrimFloat.leb;
  is_finite := PrimFloat.is_finite
}.

(** One day's price record.  A field holds the value [Number(field)] of the
    JavaScript object: a missing ([undefined]) or non-numeric field is NaN
    (only the binary64 instance has such a value), a [null] field is 0. *)
Record PriceBar (N : Type) : Type := mkBar {
  date : Z;
  open : N;
  high : N;
  low : N;
  close : N;
  volume : N
}.

Arguments mkBar {N} _ _ _ _ _ _.
Arguments date {N} _.
Arguments open {N} _.
Arguments high {N} _.
Arguments low {N} _.
Arguments close {N} _.
Arguments volume {N} _.

(** [mapi f l]: [l.map((x, i) => f(i, x))]. *)
Fixpoint mapi_from {A B : Type} (f : nat -> A -> B) (i : nat) (l : list A) : list B :=
  match l with
  | [] => []
  | x :: rest => f i x :: mapi_from f (S i) rest
  end.

Definition mapi {A B : Type} (f : nat -> A -> B) (l : list A) : list B :=
  mapi_from f 0 l.

(** [slice l start stop]: [l.slice(start, stop)] for [0 <= start]. *)
Definition slice {A : Type} (l : list A) (start stop : nat) : list A :=
  firstn (stop - start) (skipn start l).

Section Engine.

Context {N : Type} {A : Arith N}.

Local Open Scope num_scope.

Definition zero : N := ofZ 0.
Definition ofnat (n : nat) : N := ofZ (Z.of_nat n).

(** The decimal literal [m]e-[k], e.g. [dec 5 1] is 0.5.  Both [m] and
    [10^k] are small integers, so the (correctly rounded) quotient is the
    binary64 value of the literal. *)
Definition dec (m : Z) (k : nat) : N := ofZ m / ofZ (10 ^ Z.of_nat k).

(** Truthiness of a number: neither 0 nor NaN. *)
Definition truthy (x : N) : bool := negb (x =? zero) && (x =? x).

(** A nullable number: [None] is [null]. *)
Definition nullable : Type := option N.

(** [null] converts to 0 in arithmetic. *)
Definition nz (v : nullable) : N :=
  match v with
  | Some x => x
  | None => zero
  end.

(** [l[i]] for a series of nullable numbers; out of range reads as [null]
    (JavaScript gives [undefined], which [== null]). *)
Definition at_ (l : list nullable) (i : nat) : nullable := nth i l None.

Definition max2 (a b : N) : N := if a <? b then b else a.
Definition min2 (a b : N) : N := if b <? a then b else a.

(** [Math.max(...l)] and [Math.min(...l)] over a non-empty list of numbers
    none of which is NaN, up to the sign of a zero.  (On no argument
    JavaScript answers -Infinity and +Infinity; the slices below have
    [kWindow >= 1] elements.) *)
Definition Math_max (l : list N) : N :=
  match l with
  | [] => zero
  | x :: rest => fold_left max2 rest x
  end.

Definition Math_min (l : list N) : N :=
  match l with
  | [] => zero
  | x :: rest => fold_left min2 rest x
  end.

(** *** indicators.js *)

Definition toNumber (value : N) : nullable :=
  if is_finite value then Some value else None.

Definition getClose (row : PriceBar N) : nullable := toNumber (close row).
Definition getHigh (row : PriceBar N) : nullable := toNumber (high row).
Definition getLow (row : PriceBar N) : nullable := toNumber (low row).
Definition getVolume (row : PriceBar N) : nullable := toNumber (volume row).

Fixpoint ema_loop (multiplier : N) (previous : nullable) (values : list nullable)
  : list nullable :=
  match values with
  | [] => []
  | None :: rest => previous :: ema_loop multiplier previous rest
  | Some value :: rest =>
      let previous' :=
        match previous with
        | None => value
        | Some p => (value - p) * multiplier + p
        end in
      Some previous' :: ema_loop multiplier (Some previous') rest
  end.

Definition ema (values : list nullable) (period : Z) : list nullable :=
  ema_loop (ofZ 2 / (ofZ period + ofZ 1)) None values.

Definition rolling (values : list nullable) (window : nat)
  (reducer : list nullable -> N) : list nullable :=
  mapi (fun i _ =>
          if (i + 1 <? window)%nat then None
          else Some (reducer (slice values (i + 1 - window) (i + 1))))
       values.

(** [(slice) => slice.reduce((acc, value) => acc + value, 0) / slice.length] *)
Definition mean_reducer (sl : list nullable) : N :=
  fold_left (fun acc value => acc + nz value) sl zero / ofnat (List.length sl).

Definition calculateSMA (points : list (PriceBar N)) (window : nat) : list nullable :=
  rolling (map getClose points) window mean_reducer.

(** The [rs]/[result] lines shared by the two branches of calculateRSI. *)
Definition rsi_value (gainAvg lossAvg : N) : N :=
  let rs := if lossAvg =? zero then ofZ 100 else gainAvg / lossAvg in
  ofZ 100 - ofZ 100 / (ofZ 1 + rs).

(** The loop of calculateRSI from index [i] on: [prev] is [closes[i - 1]],
    [closes] are the entries from index [i]. *)
Fixpoint rsi_loop (window i : nat) (prev : nullable) (closes : list nullable)
  (gainAvg lossAvg : N) : list nullable :=
  match closes with
  | [] => []
  | cur :: rest =>
      let change := nz cur - nz prev in
      let gain := if zero <? change then change else zero in
      let loss := if change <? zero then - change else zero in
      if (i <=? window)%nat then
        let gainAvg := gainAvg + gain in
        let lossAvg := lossAvg + loss in
        if (i =? window)%nat then
          let gainAvg := gainAvg / ofnat window in
          let lossAvg := lossAvg / ofnat window in
          Some (rsi_value gainAvg lossAvg)
            :: rsi_loop window (S i) cur rest gainAvg lossAvg
        else None :: rsi_loop window (S i) cur rest gainAvg lossAvg
      else
        let gainAvg := (gainAvg * (ofnat window - ofZ 1) + gain) / ofnat window in
        let lossAvg := (lossAvg * (ofnat window - ofZ 1) + loss) / ofnat window in
        Some (rsi_value gainAvg lossAvg)
          :: rsi_loop window (S i) cur rest gainAvg lossAvg
  end.

Definition calculateRSI (points : list (PriceBar N)) (window : nat) : list nullable :=
  match map getClose points with
  | [] => []
  | first :: rest => None :: rsi_loop window 1 first rest zero zero
  end.

Record MACD : Type := mkMACD {
  macd : list nullable;
  signal_line : list nullable
}.

Definition calculateMACD (points : list (PriceBar N))
  (shortWindow longWindow signalWindow : Z) : MACD :=
  let closes := map getClose points in
  let expShort := ema closes shortWindow in
  let expLong := ema closes longWindow in
  let macd :=
    mapi (fun index value =>
            match value, at_ expLong index with
            | Some v, Some l => Some (v - l)
            | _, _ => None
            end)
         expShort in
  let signal := ema macd signalWindow in
  mkMACD macd signal.

Record Bands : Type := mkBands {
  middle : list nullable;
  upper : list nullable;
  lower : list nullable
}.

Section Bollinger.

(** [Math.sqrt], taken as given: the rationals have no square root. *)
Variable sqrt : N -> N.

Definition band (closes sma : list nullable) (window : nat) (numStdDev : N)
  (side : N -> N -> N) : list nullable :=
  mapi (fun i _ =>
          if (i + 1 <? window)%nat then None
          else match at_ sma i with
               | None => None
               | Some mean =>
                   let sl := slice closes (i + 1 - window) (i + 1) in
                   let variance :=
                     fold_left (fun acc close =>
                                  acc + (nz close - mean) * (nz close - mean))
                               sl zero / ofnat (List.length sl) in
                   let stdDev := sqrt variance in
                   Some (side mean (stdDev * numStdDev))
               end)
       closes.

Definition calculateBollingerBands (points : list (PriceBar N)) (window : nat)
  (numStdDev : N) : Bands :=
  let closes := map getClose points in
  let sma := calculateSMA points window in
  mkBands sma (band closes sma window numStdDev nadd)
              (band closes sma window numStdDev nsub).

End Bollinger.

Definition rangeHigh (highs : list nullable) (kWindow i : nat) : N :=
  Math_max (map nz (slice highs (i + 1 - kWindow) (i + 1))).

Definition rangeLow (lows : list nullable) (kWindow i : nat) : N :=
  Math_min (map nz (slice lows (i + 1 - kWindow) (i + 1))).

Record Stochastic : Type := mkStochastic {
  percentK : list nullable;
  percentD : list nullable
}.

Definition calculateStochasticOscillator (points : list (PriceBar N))
  (kWindow dWindow : nat) : Stochastic :=
  let highs := map getHigh points in
  let lows := map getLow points in
  let closes := map getClose points in
  let percentK :=
    mapi (fun i _ =>
            if (i + 1 <? kWindow)%nat then None
            else
              let rangeHigh := rangeHigh highs kWindow i in
              let rangeLow := rangeLow lows kWindow i in
              let close := nz (at_ closes i) in
              if rangeHigh =? rangeLow then Some zero
              else Some (((close - rangeLow) / (rangeHigh - rangeLow)) * ofZ 100))
         points in
  let percentD := rolling percentK dWindow mean_reducer in
  mkStochastic percentK percentD.

(** [!volume] for the result of getVolume: [null] and 0 are skipped. *)
Definition noVolume (v : nullable) : bool :=
  match v with
  | None => true
  | Some x => negb (truthy x)
  end.

(** The loop of calculateVWAP, with the two running sums as state. *)
Fixpoint vwap_loop (cumulativeVolume cumulativeTpv : N) (points : list (PriceBar N))
  : list nullable :=
  match points with
  | [] => []
  | row :: rest =>
      let volume := getVolume row in
      if noVolume volume then None :: vwap_loop cumulativeVolume cumulativeTpv rest
      else
        let typicalPrice :=
          (nz (getHigh row) + nz (getLow row) + nz (getClose row)) / ofZ 3 in
        let cumulativeVolume := cumulativeVolume + nz volume in
        let cumulativeTpv := cumulativeTpv + typicalPrice * nz volume in
        (if zero <? cumulativeVolume
         then Some (cumulativeTpv / cumulativeVolume) else None)
          :: vwap_loop cumulativeVolume cumulativeTpv rest
  end.

Definition calculateVWAP (points : list (PriceBar N)) : list nullable :=
  vwap_loop zero zero points.

End Engine.

Arguments nullable N : clear implicits.
Arguments MACD N : clear implicits.
Arguments Bands N : clear implicits.
Arguments Stochastic N : clear implicits.

(** *** Dates

    A date is a day number (day 0 is 1 January 1970, in local time).  A
    [Date] object holds a time value of at most 100,000,000 days on either
    side of day 0, or is an Invalid Date, written [None]; where within its
    last day the range ends is below the resolution of a day number.  A
    [date] field from which [new Date] makes an Invalid Date (a missing
    field, a string that is no date, a time value out of range) is a day
    number out of that range. *)

Definition maxDay : Z := 100000000.

Definition validDay (d : Z) : bool := ((- maxDay <=? d) && (d <=? maxDay))%Z.

(** [new Date(value)] *)
Definition newDate (value : Z) : option Z :=
  if validDay value then Some value else None.

(** [addDays(date, amount)] of date-fns: an Invalid Date stays one, and so
    does a date that leaves the range. *)
Definition addDays (date : option Z) (amount : Z) : option Z :=
  match date with
  | Some d => newDate (d + amount)
  | None => None
  end.

(** What the code throws. *)
Inductive Thrown : Type :=
| RangeError (message : string).

Definition message (e : Thrown) : string :=
  match e with RangeError m => m end.

(** [formatISO(date, { representation: 'date' })] of date-fns: the day, or
    [RangeError: Invalid time value] on an Invalid Date. *)
Definition formatISO (date : option Z) : Thrown + Z :=
  match date with
  | Some d => inr d
  | None => inl (RangeError "Invalid time value")
  end.

Section Forecaster.

Context {N : Type} {A : Arith N}.

Local Open Scope num_scope.

(** *** predictions.js *)

Record Regression : Type := mkRegression {
  slope : N;
  intercept : N
}.

(** The four running sums of linearRegression, from index [i] on. *)
Fixpoint regression_sums (i : nat) (points : list N) (sumX sumY sumXY sumXX : N)
  : N * N * N * N :=
  match points with
  | [] => (sumX, sumY, sumXY, sumXX)
  | y :: rest =>
      let x := ofnat i in
      regression_sums (S i) rest (sumX + x) (sumY + y) (sumXY + x * y) (sumXX + x * x)
  end.

Definition linearRegression (points : list N) : Regression :=
  let n := List.length points in
  if (n =? 0)%nat then mkRegression zero zero
  else
    let '(sumX, sumY, sumXY, sumXX) := regression_sums 0 points zero zero zero zero in
    let denominator := ofnat n * sumXX - sumX * sumX in
    let slope :=
      if denominator =? zero then zero
      else (ofnat n * sumXY - sumX * sumY) / denominator in
    let intercept := (sumY - slope * sumX) / ofnat n in
    mkRegression slope intercept.

Definition smoothSeries (values : list N) (window : nat) : list N :=
  mapi (fun i _ =>
          let start := (i + 1 - window)%nat in        (* Math.max(0, i - window + 1) *)
          let sl := slice values start (i + 1) in
          fold_left (fun acc value => acc + value) sl zero / ofnat (List.length sl))
       values.

(** A forecast point; [fdate] is the day that [formatISO] prints. *)
Record ForecastPoint : Type := mkForecast {
  fdate : Z;
  fvalue : N
}.

(** [for (let i = 1; i <= days; i += 1)]: the values of [i]. *)
Definition horizon (days : Z) : list Z :=
  map (fun k => Z.of_nat k) (seq 1 (Z.to_nat days)).

(** The loop of a model over the values of [i]:
    [predictions.push({ date: formatISO(addDays(lastDate, i)), value: projected })],
    which ends at the first date [formatISO] throws on. *)
Fixpoint project (lastDate : option Z) (projected : Z -> N) (steps : list Z)
  : Thrown + list ForecastPoint :=
  match steps with
  | [] => inr []
  | i :: rest =>
      match formatISO (addDays lastDate i) with
      | inl e => inl e
      | inr day =>
          match project lastDate projected rest with
          | inl e => inl e
          | inr predictions => inr (mkForecast day (projected i) :: predictions)
          end
      end
  end.

(** predictFuturePrices: what it returns, or what it throws.  [lastDate] is
    read past the test on [closes], where [points] is not empty. *)
Definition predictFuturePrices (points : list (PriceBar N)) (indicator model : string)
  (days : Z) : Thrown + list ForecastPoint :=
  let closes := filter is_finite (map close points) in
  if (List.length closes =? 0)%nat then inr []
  else
    let lastDate := newDate (date (last points (mkBar 0 zero zero zero zero zero))) in
    if String.eqb model "simple" then
      let trend :=
        (nth (List.length closes - 1) closes zero - nth 0 closes zero)
        / ofnat (List.length closes) in
      let lastPrice := nth (List.length closes - 1) closes zero in
      project lastDate (fun i => lastPrice + trend * ofZ i) (horizon days)
    else if String.eqb model "arima" then
      let r := linearRegression closes in
      project lastDate
              (fun i =>
                 let x := ofnat (List.length closes) + ofZ i in
                 slope r * x + intercept r)
              (horizon days)
    else if String.eqb model "prophet" then
      let smoothed := smoothSeries closes 7 in
      let r := linearRegression smoothed in
      project lastDate
              (fun i =>
                 let x := ofnat (List.length smoothed) + ofZ i in
                 slope r * x + intercept r)
              (horizon days)
    else inr [].

End Forecaster.

Arguments ForecastPoint N : clear implicits.
Arguments Regression N : clear implicits.

(** [s.endsWith(suffix)] *)
Definition endsWith (s suffix : string) : bool :=
  let n := String.length s in
  let m := String.length suffix in
  (m <=? n)%nat && String.eqb (substring (n - m) m s) suffix.

(** [s.startsWith(p)] *)
Definition startsWith (s p : string) : bool := prefix p s.

(** One entry of the signal stream. *)
Record Signal : Type := mkSignal {
  signal : string;
  numericSignal : Z
}.

Definition hold : Signal := mkSignal "hold" 0.

(** The context object backtestStrategy returns beside the signals. *)
Inductive StrategyContext (N : Type) : Type :=
| CtxSma (sma : list (nullable N))
| CtxRsi (rsi : list (nullable N))
| CtxMacd (m : MACD N)
| CtxBands (bands : Bands N)
| CtxStochastic (s : Stochastic N)
| CtxEmpty.

Arguments CtxSma {N} _.
Arguments CtxRsi {N} _.
Arguments CtxMacd {N} _.
Arguments CtxBands {N} _.
Arguments CtxStochastic {N} _.
Arguments CtxEmpty {N}.

Section Classifier.

Context {N : Type} {A : Arith N}.
Variable sqrt : N -> N.

Local Open Scope num_scope.

(** *** backtesting.js *)

(** The severity ladder each branch of backtestStrategy spells out:
    [let label = dir_weak; if (diff > strong) label = dir_strong;
     else if (diff > medium) label = dir_medium]. *)
Definition graded (dir : string) (diff strong medium : N) : string :=
  if strong <? diff then (dir ++ "_strong")%string
  else if medium <? diff then (dir ++ "_medium")%string
  else (dir ++ "_weak")%string.

Definition buy (label : string) : Signal := mkSignal label 1.
Definition sell (label : string) : Signal := mkSignal label (-1).

Definition isNull (v : nullable N) : bool :=
  match v with
  | None => true
  | Some _ => false
  end.

(** [closes[i]] of [points.map((row) => Number(row.close))]. *)
Definition closeAt (points : list (PriceBar N)) (i : nat) : N :=
  nth i (map close points) zero.

Definition smaSignal (points : list (PriceBar N)) (sma : list (nullable N)) (i : nat)
  : Signal :=
  if (i <? 1)%nat then hold
  else if isNull (at_ sma (i - 1)) || isNull (at_ sma i) then hold
  else
    let prev := nz (at_ sma (i - 1)) in
    let cur := nz (at_ sma i) in
    let c := closeAt points i in
    if (prev <? closeAt points (i - 1)) && (c <=? cur) then
      sell (graded "sell" (cur - c) (c * dec 2 2) (c * dec 5 3))
    else if (closeAt points (i - 1) <? prev) && (cur <=? c) then
      buy (graded "buy" (c - cur) (c * dec 2 2) (c * dec 5 3))
    else hold.

Definition rsiSignal (rsi : list (nullable N)) (i : nat) : Signal :=
  match at_ rsi i with
  | None => hold
  | Some value =>
      if value <? ofZ 30 then
        buy (graded "buy" (ofZ 30 - value) (ofZ 10) (ofZ 5))
      else if ofZ 70 <? value then
        sell (graded "sell" (value - ofZ 70) (ofZ 10) (ofZ 5))
      else hold
  end.

Definition macdSignal (m : MACD N) (i : nat) : Signal :=
  if (i <? 1)%nat then hold
  else if isNull (at_ (macd m) (i - 1)) || isNull (at_ (signal_line m) (i - 1))
          || isNull (at_ (macd m) i) || isNull (at_ (signal_line m) i) then hold
  else
    let pm := nz (at_ (macd m) (i - 1)) in
    let ps := nz (at_ (signal_line m) (i - 1)) in
    let cm := nz (at_ (macd m) i) in
    let cs := nz (at_ (signal_line m) i) in
    if (pm <? ps) && (cs <=? cm) then
      buy (graded "buy" (cm - cs) (dec 5 1) (dec 1 1))
    else if (ps <? pm) && (cm <=? cs) then
      sell (graded "sell" (cs - cm) (dec 5 1) (dec 1 1))
    else hold.

Definition bollingerSignal (points : list (PriceBar N)) (bands : Bands N) (i : nat)
  : Signal :=
  match at_ (upper bands) i, at_ (lower bands) i with
  | Some up, Some lo =>
      let c := closeAt points i in
      if c <? lo then
        buy (graded "buy" (lo - c) (c * dec 1 2) (c * dec 2 3))
      else if up <? c then
        sell (graded "sell" (c - up) (c * dec 1 2) (c * dec 2 3))
      else hold
  | _, _ => hold
  end.

Definition stochasticSignal (s : Stochastic N) (i : nat) : Signal :=
  if (i <? 1)%nat then hold
  else
    match at_ (percentK s) (i - 1), at_ (percentD s) (i - 1),
          at_ (percentK s) i, at_ (percentD s) i with
    | Some prevK, Some prevD, Some currK, Some currD =>
        if (prevK <? prevD) && (currD <=? currK) && (currK <? ofZ 20) then
          buy (graded "buy" (ofZ 20 - currK) (ofZ 10) (ofZ 5))
        else if (prevD <? prevK) && (currK <=? currD) && (ofZ 80 <? currK) then
          sell (graded "sell" (currK - ofZ 80) (ofZ 10) (ofZ 5))
        else hold
    | _, _, _, _ => hold
    end.

Definition backtestStrategy (points : list (PriceBar N)) (indicator : string)
  : list Signal * StrategyContext N :=
  let signals := map (fun _ => hold) points in
  if String.eqb indicator "sma" then
    let sma := calculateSMA points 20 in
    (mapi (fun i _ => smaSignal points sma i) points, CtxSma sma)
  else if String.eqb indicator "rsi" then
    let rsi := calculateRSI points 14 in
    (mapi (fun i _ => rsiSignal rsi i) points, CtxRsi rsi)
  else if String.eqb indicator "macd" then
    let m := calculateMACD points 12 26 9 in
    (mapi (fun i _ => macdSignal m i) points, CtxMacd m)
  else if String.eqb indicator "bollinger" then
    let bands := calculateBollingerBands sqrt points 20 (ofZ 2) in
    (mapi (fun i _ => bollingerSignal points bands i) points, CtxBands bands)
  else if String.eqb indicator "stochastic" then
    let s := calculateStochasticOscillator points 14 3 in
    (mapi (fun i _ => stochasticSignal s i) points, CtxStochastic s)
  else (signals, CtxEmpty).

End Classifier.

(** A point of a portfolio or equity series: [{ date, value }]. *)
Record ValuePoint (N : Type) : Type := mkPoint {
  pdate : Z;
  value : N
}.

Arguments mkPoint {N} _ _.
Arguments pdate {N} _.
Arguments value {N} _.

(** *** backtesting.js: the graduated simulator *)

Module Backtesting.

Record State (N : Type) : Type := mkState {
  cash : N;
  shares : N;
  position : Z
}.

Arguments mkState {N} _ _ _.
Arguments cash {N} _.
Arguments shares {N} _.
Arguments position {N} _.

Section Simulator.

Context {N : Type} {A : Arith N}.

Local Open Scope num_scope.

(** [signals[index]?.signal ?? 'hold'] *)
Definition signalAt (signals : list Signal) (index : nat) : string :=
  match nth_error signals index with
  | Some s => signal s
  | None => "hold"%string
  end.

(** [let weight = 1; if (signal.endsWith('strong')) weight = 0.5; ...] *)
Definition weightOf (signal : string) : N :=
  if endsWith signal "strong" then dec 5 1
  else if endsWith signal "medium" then dec 3 1
  else if endsWith signal "weak" then dec 1 1
  else ofZ 1.

(** The body of the [forEach] callback for [index > 0]: the new running
    state. *)
Definition trade (signals : list Signal) (st : State N) (index : nat)
  (row : PriceBar N) : State N :=
  let price := close row in
  let signal := signalAt signals index in
  if startsWith signal "buy" && (position st =? 0)%Z then
    let weight := weightOf signal in
    let toInvest := cash st * weight in
    let purchased := toInvest / price in
    let shares := shares st + purchased in
    let cash := cash st - toInvest in
    mkState cash shares (if zero <? shares then 1%Z else position st)
  else if startsWith signal "sell" && (position st =? 1)%Z then
    let weight := weightOf signal in
    let toSell := shares st * weight in
    let cash := cash st + toSell * price in
    let shares := shares st - toSell in
    if shares <=? dec 1 6 then mkState cash zero 0%Z
    else mkState cash shares (position st)
  else st.

(** The replay from index [index] on: after each bar, the running state and
    the point pushed on [portfolio]. *)
Fixpoint replay (signals : list Signal) (initialCapital : N) (st : State N)
  (index : nat) (points : list (PriceBar N)) : list (State N * ValuePoint N) :=
  match points with
  | [] => []
  | row :: rest =>
      if (index =? 0)%nat then
        (st, mkPoint (date row) initialCapital)
          :: replay signals initialCapital st (S index) rest
      else
        let st' := trade signals st index row in
        (st', mkPoint (date row) (cash st' + shares st' * close row))
          :: replay signals initialCapital st' (S index) rest
  end.

Definition start (initialCapital : N) : State N := mkState initialCapital zero 0%Z.

Definition runTradingSimulation (points : list (PriceBar N)) (signals : list Signal)
  (initialCapital : N) : list (ValuePoint N) :=
  map snd (replay signals initialCapital (start initialCapital) 0 points).

(** The running [cash]/[shares]/[position] before the first bar and after
    each bar of the replay. *)
Definition states (points : list (PriceBar N)) (signals : list Signal)
  (initialCapital : N) : list (State N) :=
  start initialCapital
    :: map fst (replay signals initialCapital (start initialCapital) 0 points).

End Simulator.

End Backtesting.

(** *** AdvancedBacktest.jsx: maxDrawdown and the all-or-nothing simulator *)

Module AdvancedBacktest.

Inductive TradeType : Type := BUY | SELL | STOP | TARGET | LIQUIDATE.

(** A logged trade; [changePct] is [None] where the entry has no such field
    or holds [null]. *)
Record Trade (N : Type) : Type := mkTrade {
  type : TradeType;
  tdate : Z;
  price : N;
  changePct : nullable N
}.

Arguments mkTrade {N} _ _ _ _.

Record State (N : Type) : Type := mkState {
  cash : N;
  shares : N;
  entryPrice : nullable N;
  trades : list (Trade N);
  equity : list (ValuePoint N)
}.

Arguments mkState {N} _ _ _ _ _.
Arguments cash {N} _.
Arguments shares {N} _.
Arguments entryPrice {N} _.
Arguments trades {N} _.
Arguments equity {N} _.

Section Lab.

Context {N : Type} {A : Arith N}.

Local Open Scope num_scope.

(** [peak] starts at -Infinity, written [None]; [v > -Infinity] holds for
    every finite [v] and for +Infinity. *)
Definition above (v : N) (peak : option N) : bool :=
  match peak with
  | None => is_finite v || (zero <? v)
  | Some p => p <? v
  end.

(** [!Number.isFinite(peak) || peak === 0] *)
Definition unusable (peak : option N) : bool :=
  match peak with
  | None => true
  | Some p => negb (is_finite p) || (p =? zero)
  end.

(** The [forEach] of maxDrawdown with [peak] and [maxDd] as state.  Past the
    [unusable] test [peak] is a number, read by [nz]. *)
Fixpoint drawdown_loop (peak : option N) (maxDd : N) (series : list (ValuePoint N)) : N :=
  match series with
  | [] => maxDd
  | row :: rest =>
      let peak := if above (value row) peak then Some (value row) else peak in
      if unusable peak then drawdown_loop peak maxDd rest
      else
        let drawdown := (value row - nz peak) / nz peak in
        drawdown_loop peak (if drawdown <? maxDd then drawdown else maxDd) rest
  end.

Definition maxDrawdown (series : list (ValuePoint N)) : N :=
  drawdown_loop None zero series.

(** [signals[idx]?.numericSignal ?? 0] *)
Definition numericAt (signals : list Signal) (idx : nat) : Z :=
  match nth_error signals idx with
  | Some s => numericSignal s
  | None => 0%Z
  end.

(** Truthiness of [entryPrice]: [null] and 0 are falsy. *)
Definition held (entryPrice : nullable N) : bool :=
  match entryPrice with
  | None => false
  | Some p => truthy p
  end.

Variables stopLossPct takeProfitPct : N.

(** The stop-loss / take-profit check that opens the callback. *)
Definition protect (st : State N) (row : PriceBar N) : State N :=
  let price := close row in
  if (zero <? shares st) && held (entryPrice st) then
    let changePct := ((price - nz (entryPrice st)) / nz (entryPrice st)) * ofZ 100 in
    if truthy stopLossPct && (changePct <=? - stopLossPct) then
      mkState (cash st + shares st * price) zero None
              (trades st ++ [mkTrade STOP (date row) price (Some changePct)])
              (equity st)
    else if truthy takeProfitPct && (takeProfitPct <=? changePct) then
      mkState (cash st + shares st * price) zero None
              (trades st ++ [mkTrade TARGET (date row) price (Some changePct)])
              (equity st)
    else st
  else st.

(** The signal-driven entry and exit. *)
Definition act (signals : list Signal) (st : State N) (idx : nat) (row : PriceBar N)
  : State N :=
  let price := close row in
  let signal := numericAt signals idx in
  if (0 <? signal)%Z && (shares st =? zero) && (zero <? price) then
    let qty := cash st / price in
    if zero <? qty then
      mkState (cash st - qty * price) qty (Some price)
              (trades st ++ [mkTrade BUY (date row) price None])
              (equity st)
    else st
  else if (signal <? 0)%Z && (zero <? shares st) then
    let changePct :=
      if held (entryPrice st)
      then Some (((price - nz (entryPrice st)) / nz (entryPrice st)) * ofZ 100)
      else None in
    mkState (cash st + shares st * price) zero None
            (trades st ++ [mkTrade SELL (date row) price changePct])
            (equity st)
  else st.

(** One pass of the [forEach] callback. *)
Definition step (signals : list Signal) (st : State N) (idx : nat) (row : PriceBar N)
  : State N :=
  let st := act signals (protect st row) idx row in
  mkState (cash st) (shares st) (entryPrice st) (trades st)
          (equity st ++ [mkPoint (date row) (cash st + shares st * close row)]).

(** The states after each bar, from index [idx] on. *)
Fixpoint replay (signals : list Signal) (st : State N) (idx : nat)
  (points : list (PriceBar N)) : list (State N) :=
  match points with
  | [] => []
  | row :: rest =>
      let st' := step signals st idx row in
      st' :: replay signals st' (S idx) rest
  end.

(** The closing [if (shares > 0)] block. *)
Definition liquidate (points : list (PriceBar N)) (st : State N) : State N :=
  if zero <? shares st then
    match points with
    | [] => st
    | _ :: _ =>
        let lastRow := last points (mkBar 0 zero zero zero zero zero) in
        if truthy (close lastRow) then
          mkState (cash st + shares st * close lastRow) (shares st) (entryPrice st)
                  (trades st ++ [mkTrade LIQUIDATE (date lastRow) (close lastRow) None])
                  (equity st)
        else st
    end
  else st.

Definition start (initialCapital : N) : State N :=
  mkState initialCapital zero None [] [].

(** The running state before the first bar, after each bar, and after the
    closing liquidation. *)
Definition states (points : list (PriceBar N)) (signals : list Signal)
  (initialCapital : N) : list (State N) :=
  let run := start initialCapital :: replay signals (start initialCapital) 0 points in
  run ++ [liquidate points (last run (start initialCapital))].

Definition runSimulation (points : list (PriceBar N)) (signals : list Signal)
  (initialCapital : N) : list (ValuePoint N) * list (Trade N) :=
  let final := last (states points signals initialCapital) (start initialCapital) in
  (equity final, trades final).

End Lab.

End AdvancedBacktest.

(** *** computeSignals.js and the [/insights] route

    Kept is what decides the answer and the simulation: the symbol, the
    indicator, the forecast model and horizon and the starting capital of
    the request, the history (with its synthetic fallback), the signals, the
    simulation with its summary, and the forecast, the one step past the
    history check that can throw.  The quote and the news (each fetched
    inside its own [try]), the indicator snapshots, the summary text and the
    ticker metadata neither throw nor feed into the simulation and are left
    out. *)

Module Insights.

(** The query of a request: each parameter is absent or a string. *)
Record Query : Type := mkQuery {
  symbol : option string;
  indicator : option string;
  forecastModel : option string;
  forecastHorizon : option string;
  initialCapital : option string
}.

(** The options the route passes to computeSignals; [None] is [undefined]. *)
Record Options (N : Type) : Type := mkOptions {
  o_indicator : option string;
  o_forecastModel : option string;
  o_forecastHorizon : option N;
  o_initialCapital : option N
}.

Record Payload (N : Type) : Type := mkPayload {
  history : list (PriceBar N);
  signals : list Signal;
  simulation : list (ValuePoint N);
  summaryInitialCapital : N;
  finalValue : nullable N;
  totalReturn : nullable N;
  forecast : list (ForecastPoint N)
}.

Arguments mkOptions {N} _ _ _ _.
Arguments mkPayload {N} _ _ _ _ _ _ _.

Inductive ErrorBody : Type :=
| SymbolRequired                     (* "Query parameter symbol is required." *)
| Message (message : string).        (* error.message *)

Inductive Response (N : Type) : Type :=
| Status400 (error : ErrorBody)
| Status500 (error : ErrorBody)
| Json (payload : Payload N).

Arguments Status400 {N} _.
Arguments Status500 {N} _.
Arguments Json {N} _.

Section Route.

Context {N : Type} {A : Arith N}.

Local Open Scope num_scope.

Variable sqrt : N -> N.

(** [Number(s)] on a query string. *)
Variable Number : string -> N.

(** How far the counter of [for (let i = 1; i <= days; i += 1)] runs under
    the bound [days]: to the integer part of a finite bound, nowhere under
    [NaN], and past every date under [Infinity] (the loop then ends in the
    throw of [formatISO]; memory is not modelled). *)
Variable loopBound : N -> Z.

(** The synthetic history generateMockHistory builds for a symbol. *)
Variable generateMockHistory : string -> list (PriceBar N).

(** Truthiness of a query parameter: present and not the empty string. *)
Definition given (v : option string) : bool :=
  match v with
  | Some s => negb (String.eqb s "")
  | None => false
  end.

(** The number of days the forecast loop runs for: the option
    [forecastHorizon], 60 by default, as the loop reads it. *)
Definition forecastDays (options : Options N) : Z :=
  loopBound (match o_forecastHorizon options with Some h => h | None => ofZ 60 end).

(** [const prediction = predictFuturePrices(history, indicator,
     forecastModel, forecastHorizon)] under the destructuring defaults of
    computeSignals. *)
Definition prediction (history : list (PriceBar N)) (options : Options N)
  : Thrown + list (ForecastPoint N) :=
  let indicator :=
    match o_indicator options with Some i => i | None => "sma"%string end in
  let forecastModel :=
    match o_forecastModel options with Some m => m | None => "simple"%string end in
  predictFuturePrices history indicator forecastModel (forecastDays options).

(** computeSignals: [fetched] is what fetchYahooHistory returned ([None]
    when it threw).  Kept are the history, the signals, the simulation with
    its summary and the forecast, whose throw is the function's.  The
    result is the thrown message or the payload. *)
Definition computeSignals (fetched : option (list (PriceBar N))) (symbol : string)
  (options : Options N) : string + Payload N :=
  let indicator :=
    match o_indicator options with Some i => i | None => "sma"%string end in
  let initialCapital :=
    match o_initialCapital options with Some c => c | None => ofZ 10000 end in
  let history := match fetched with Some h => h | None => [] end in
  let history :=
    if (List.length history =? 0)%nat then generateMockHistory symbol else history in
  if (List.length history =? 0)%nat then
    inl "No historical data available for the requested symbol."%string
  else
    let signals := fst (backtestStrategy sqrt history indicator) in
    let simulation := Backtesting.runTradingSimulation history signals initialCapital in
    match prediction history options with
    | inl e => inl (message e)
    | inr prediction =>
        let finalValue :=
          match simulation with
          | [] => None
          | _ :: _ => Some (value (last simulation (mkPoint 0 zero)))
          end in
        let totalReturn :=
          match finalValue with
          | Some v => Some (((v - initialCapital) / initialCapital) * ofZ 100)
          | None => None
          end in
        inr (mkPayload history signals simulation initialCapital finalValue totalReturn
                       prediction)
    end.

(** The options object the handler builds from the query. *)
Definition options (query : Query) : Options N :=
  mkOptions
    (match indicator query with Some i => Some i | None => Some "sma"%string end)
    (match forecastModel query with Some m => Some m | None => Some "simple"%string end)
    (if given (forecastHorizon query)
     then match forecastHorizon query with Some s => Some (Number s) | None => None end
     else None)
    (if given (initialCapital query)
     then match initialCapital query with Some s => Some (Number s) | None => None end
     else None).

(** The handler of [GET /insights]. *)
Definition insights (fetched : option (list (PriceBar N))) (query : Query)
  : Response N :=
  if negb (given (symbol query)) then Status400 SymbolRequired
  else
    let symbol := match symbol query with Some s => s | None => ""%string end in
    match computeSignals fetched symbol (options query) with
    | inl message => Status500 (Message message)
    | inr payload => Json payload
    end.

End Route.

End Insights.

(** ** More of the engine *)

Section Directional.

Context {N : Type} {A : Arith N}.

Local Open Scope num_scope.

(** [Math.abs], up to the sign of a zero. *)
Definition Math_abs (x : N) : N := if x <? zero then - x else x.

(** The first loop of calculateADX at index [i >= 1]: +DM, -DM and the true
    range of bar [i] against bar [i - 1]. *)
Definition directionalMove (prev cur : PriceBar N) : N * N * N :=
  let high := nz (getHigh cur) in
  let low := nz (getLow cur) in
  let prevClose := nz (getClose prev) in
  let prevHigh := nz (getHigh prev) in
  let prevLow := nz (getLow prev) in
  let upMove := high - prevHigh in
  let downMove := prevLow - low in
  let plusDM := if (downMove <? upMove) && (zero <? upMove) then upMove else zero in
  let minusDM := if (upMove <? downMove) && (zero <? downMove) then downMove else zero in
  let tr1 := high - low in
  let tr2 := Math_abs (high - prevClose) in
  let tr3 := Math_abs (low - prevClose) in
  let trueRange := Math_max [tr1; tr2; tr3] in
  (plusDM, minusDM, trueRange).

(** The three lists the first loop fills: [null] at index 0. *)
Definition movesFrom (points : list (PriceBar N)) : list (option (N * N * N)) :=
  mapi (fun i cur =>
          if (i =? 0)%nat then None
          else Some (directionalMove (nth (i - 1) points cur) cur))
       points.

Definition plusDMList (points : list (PriceBar N)) : list (nullable N) :=
  map (option_map (fun m => fst (fst m))) (movesFrom points).

Definition minusDMList (points : list (PriceBar N)) : list (nullable N) :=
  map (option_map (fun m => snd (fst m))) (movesFrom points).

Definition trList (points : list (PriceBar N)) : list (nullable N) :=
  map (option_map snd) (movesFrom points).

(** The second loop at one index: [None] where the smoothed true range is
    falsy, else (+DI, -DI, DX). *)
Definition directionalIndex (smoothedTR smoothedPlusDM smoothedMinusDM : nullable N)
  : option (N * N * N) :=
  match smoothedTR with
  | None => None
  | Some trueRange =>
      if negb (truthy trueRange) then None
      else
        let pDI := (nz smoothedPlusDM / trueRange) * ofZ 100 in
        let mDI := (nz smoothedMinusDM / trueRange) * ofZ 100 in
        let total := if truthy (pDI + mDI) then pDI + mDI else ofZ 1 in
        Some (pDI, mDI, (Math_abs (pDI - mDI) / total) * ofZ 100)
  end.

Record ADX : Type := mkADX {
  adx : list (nullable N);
  plusDI : list (nullable N);
  minusDI : list (nullable N)
}.

Definition calculateADX (points : list (PriceBar N)) (period : Z) : ADX :=
  let smoothedTR := ema (trList points) period in
  let smoothedPlusDM := ema (plusDMList points) period in
  let smoothedMinusDM := ema (minusDMList points) period in
  let rows :=
    mapi (fun i tr => directionalIndex tr (at_ smoothedPlusDM i) (at_ smoothedMinusDM i))
         smoothedTR in
  let dx := map (option_map snd) rows in
  mkADX (ema dx period)
        (map (option_map (fun r => fst (fst r))) rows)
        (map (option_map (fun r => snd (fst r))) rows).

Section Bandwidth.

Variable sqrt : N -> N.

Definition calculateBollingerBandwidth (points : list (PriceBar N)) (window : nat)
  (numStdDev : N) : list (nullable N) :=
  let bands := calculateBollingerBands sqrt points window numStdDev in
  mapi (fun index upperBand =>
          match upperBand, at_ (lower bands) index, at_ (middle bands) index with
          | Some u, Some l, Some m =>
              let bandwidth := ((u - l) / m) * ofZ 100 in
              if is_finite bandwidth then Some bandwidth else None
          | _, _, _ => None
          end)
       (upper bands).

End Bandwidth.

(** *** indicators.js: the Ichimoku lines *)

(** [rolling] with a reducer that reads its second argument, the index. *)
Definition rollingAt (values : list (nullable N)) (window : nat)
  (reducer : list (nullable N) -> nat -> N) : list (nullable N) :=
  mapi (fun i _ =>
          if (i + 1 <? window)%nat then None
          else Some (reducer (slice values (i + 1 - window) (i + 1)) i))
       values.

(** The reducer of the three rolling lines: the middle of the highest high
    and the lowest low of the bars [index - back .. index]. *)
Definition midpoint (highs lows : list (nullable N)) (back : nat)
  (_slice : list (nullable N)) (index : nat) : N :=
  let high := Math_max (map nz (slice highs (index - back) (index + 1))) in
  let low := Math_min (map nz (slice lows (index - back) (index + 1))) in
  (high + low) / ofZ 2.

(** An entry [{ index, value }] of a shifted span. *)
Record Shifted (V : Type) : Type := mkShifted {
  sindex : Z;
  svalue : V
}.

Record Ichimoku : Type := mkIchimoku {
  conversionLine : list (nullable N);
  baseLine : list (nullable N);
  leadingSpanA : list (option (Shifted N));
  leadingSpanB : list (Shifted (nullable N));
  laggingSpan : list (Shifted (nullable N))
}.

Definition calculateIchimoku (points : list (PriceBar N)) : Ichimoku :=
  let highs := map getHigh points in
  let lows := map getLow points in
  let closes := map getClose points in
  let conversionLine := rollingAt closes 9 (midpoint highs lows 8) in
  let baseLine := rollingAt closes 26 (midpoint highs lows 25) in
  let leadingSpanA :=
    mapi (fun index value =>
            match value, at_ baseLine index with
            | Some v, Some b =>
                Some (mkShifted (Z.of_nat index + 26) ((v + b) / ofZ 2))
            | _, _ => None
            end)
         conversionLine in
  let leadingSpanB :=
    mapi (fun index value => mkShifted (Z.of_nat index + 26) value)
         (rollingAt closes 52 (midpoint highs lows 51)) in
  let laggingSpan :=
    mapi (fun index close => mkShifted (Z.of_nat index - 26) close) closes in
  mkIchimoku conversionLine baseLine leadingSpanA leadingSpanB laggingSpan.

(** *** computeSignals.js: the price targets *)

(** [clamp(value, low, high)]: [Math.min(Math.max(value, low), high)]; the
    bound [high] is a number that is not NaN, or +Infinity, written [None]
    (then [Math.min] keeps its first argument). *)
Definition clamp (value low : N) (high : option N) : N :=
  match high with
  | None => max2 value low
  | Some h => min2 (max2 value low) h
  end.

Record PriceTargets : Type := mkTargets {
  optimistic : N;
  base : N;
  conservative : N
}.

(** [prediction.length ? { optimistic, base, conservative } : null] *)
Definition priceTargets (prediction : list (ForecastPoint N)) : option PriceTargets :=
  match prediction with
  | [] => None
  | p :: rest =>
      let lastValue := fvalue (last prediction p) in
      Some (mkTargets (clamp (lastValue * dec 108 2) zero None)
                      lastValue
                      (clamp (lastValue * dec 92 2) zero None))
  end.

(** [summariseSignals]: the numbers of buy and of sell signals. *)
Definition summariseSignals (signals : list Signal) : nat * nat :=
  fold_left (fun acc entry =>
               let buys := if (0 <? numericSignal entry)%Z then S (fst acc) else fst acc in
               let sells := if (numericSignal entry <? 0)%Z then S (snd acc) else snd acc in
               (buys, sells))
            signals (0%nat, 0%nat).

End Directional.

Arguments ADX N : clear implicits.
Arguments Ichimoku N : clear implicits.
Arguments PriceTargets N : clear implicits.

(** *** marketData.js: the synthetic history *)

Module MockHistory.

(** The modulus and the multiplier of the generator. *)
Definition modulus : Z := 2147483647.
Definition multiplier : Z := 16807.

(** [Array.from(symbol).reduce((acc, char) => acc + char.charCodeAt(0), 0)
     % 2147483647], for a symbol of one-byte characters. *)
Definition seedOf (symbol : string) : Z :=
  (fold_left (fun acc char => acc + Z.of_nat (nat_of_ascii char))%Z
             (list_ascii_of_string symbol) 0%Z) mod modulus.

(** The state [value] starts at [seed || 1]. *)
Definition initialValue (symbol : string) : Z :=
  if (seedOf symbol =? 0)%Z then 1%Z else seedOf symbol.

(** One call of [rand]: the new state. *)
Definition next (value : Z) : Z := (value * multiplier) mod modulus.

(** [getDay()] of day number [d] (day 0 is Thursday 1 January 1970):
    0 is Sunday, 6 is Saturday. *)
Definition getDay (d : Z) : Z := (d + 4) mod 7.

Definition weekend (d : Z) : bool := (getDay d =? 0)%Z || (getDay d =? 6)%Z.

Section Generator.

Context {N : Type} {A : Arith N}.

Local Open Scope num_scope.

(** [Math.round], taken as given. *)
Variable round : N -> N.

(** What [rand()] returns in state [value] (after the update). *)
Definition uniform (value : Z) : N := ofZ (value - 1) / ofZ 2147483646.

(** The body of the loop for one day that is not skipped: five draws. *)
Definition bar (d : Z) (value : Z) (price : N) : Z * N * PriceBar N :=
  let v1 := next value in
  let change := (uniform v1 - dec 5 1) * ofZ 2 in
  let price := Math_max [ofZ 5; price * (ofZ 1 + change * dec 1 2)] in
  let v2 := next v1 in
  let high := price * (ofZ 1 + uniform v2 * dec 1 2) in
  let v3 := next v2 in
  let low := price * (ofZ 1 - uniform v3 * dec 1 2) in
  let v4 := next v3 in
  let open := price * (ofZ 1 + (uniform v4 - dec 5 1) * dec 1 2) in
  let v5 := next v4 in
  let volume := round (ofZ 2000000 + uniform v5 * ofZ 4000000) in
  (v5, price,
   mkBar d open (Math_max [open; high; price]) (Math_min [open; low; price]) price volume).

(** The loop over [i = periods - 1, ..., 0], given as the list of the
    remaining values of [i]. *)
Fixpoint generate (endDate : Z) (value : Z) (price : N) (offsets : list nat)
  : list (PriceBar N) :=
  match offsets with
  | [] => []
  | i :: rest =>
      let d := (endDate - Z.of_nat i)%Z in
      if weekend d then generate endDate value price rest
      else
        let '(value', price', row) := bar d value price in
        row :: generate endDate value' price' rest
  end.

(** generateMockHistory; [endDate] is the day number of [new Date()]. *)
Definition generateMockHistory (endDate : Z) (symbol : string) (periods : nat)
  : list (PriceBar N) :=
  let v0 := next (initialValue symbol) in
  let price := ofZ 100 + uniform v0 * ofZ 20 in
  generate endDate v0 price (rev (seq 0 periods)).

End Generator.

End MockHistory.

(** *** AdvancedBacktest.jsx: handleRun *)

Module Lab.

Inductive Failure : Type :=
| CapitalNotPositive      (* "Initial capital must be greater than zero." *)
| NoPriceHistory.         (* "No price history returned for the selected symbol." *)

Record ChartRow (N : Type) : Type := mkChartRow {
  cdate : Z;
  strategy : N;
  benchmark : nullable N
}.

Record Metrics (N : Type) : Type := mkMetrics {
  finalValue : N;
  benchmarkFinal : N;
  totalReturn : N;
  benchmarkReturn : N;
  maxDrawdownPct : N
}.

Record Result (N : Type) : Type := mkResult {
  trades : list (AdvancedBacktest.Trade N);
  metrics : Metrics N;
  chart : list (ChartRow N)
}.

Arguments mkChartRow {N} _ _ _.
Arguments mkMetrics {N} _ _ _ _ _.
Arguments mkResult {N} _ _ _.

Section HandleRun.

Context {N : Type} {A : Arith N}.

Local Open Scope num_scope.

Variable sqrt : N -> N.

(** [x || 0] on a number. *)
Definition orZero (x : N) : N := if truthy x then x else zero.

(** [equity.at(-1)?.value ?? 0] *)
Definition lastValue (equity : list (ValuePoint N)) : N :=
  match equity with
  | [] => zero
  | p :: _ => value (last equity p)
  end.

(** [benchmarkSim.equity.find((b) => b.date === row.date)?.value ?? null] *)
Definition benchmarkAt (equity : list (ValuePoint N)) (d : Z) : nullable N :=
  match find (fun b => (pdate b =? d)%Z) equity with
  | Some b => Some (value b)
  | None => None
  end.

(** The [try] block of handleRun once both histories have arrived;
    [targetPoints] and [benchmarkPoints] are the two results of toPoints. *)
Definition handleRun (initialCapital stopLoss takeProfit : N) (indicator : string)
  (targetPoints benchmarkPoints : list (PriceBar N)) : Failure + Result N :=
  let capital := max2 (orZero initialCapital) zero in
  if capital <=? zero then inl CapitalNotPositive
  else if (List.length targetPoints =? 0)%nat then inl NoPriceHistory
  else
    let signals := fst (backtestStrategy sqrt targetPoints indicator) in
    let benchmarkSignals := fst (backtestStrategy sqrt benchmarkPoints "sma") in
    let sim := AdvancedBacktest.runSimulation (orZero stopLoss) (orZero takeProfit)
                 targetPoints signals capital in
    let benchmarkSim := AdvancedBacktest.runSimulation zero zero
                          benchmarkPoints benchmarkSignals capital in
    let finalValue := lastValue (fst sim) in
    let benchmarkFinal := lastValue (fst benchmarkSim) in
    inr (mkResult (snd sim)
           (mkMetrics finalValue benchmarkFinal
              ((finalValue / capital - ofZ 1) * ofZ 100)
              ((benchmarkFinal / capital - ofZ 1) * ofZ 100)
              (AdvancedBacktest.maxDrawdown (fst sim) * ofZ 100))
           (map (fun row => mkChartRow (pdate row) (value row)
                              (benchmarkAt (fst benchmarkSim) (pdate row)))
                (fst sim))).

End HandleRun.

End Lab.

(** ** Inputs of the scenarios *)

(** A bar whose four prices are all [c], with volume 1000. *)
Definition flatBar {N : Type} {A : Arith N} (d : Z) (c : N) : PriceBar N :=
  mkBar d c c c c (ofZ 1000).

(** [n] daily bars whose closes are [first], [first + 1], ... *)
Definition risingBars {N : Type} {A : Arith N} (n : nat) (first : Z) : list (PriceBar N) :=
  map (fun k => flatBar (Z.of_nat k) (ofZ (first + Z.of_nat k))) (seq 0 n).

(** The arithmetic mean of a list of rationals. *)
Definition mean (l : list Q) : Q :=
  fold_right Qplus 0%Q l / inject_Z (Z.of_nat (List.length l)).

(** A series is all-null. *)
Definition allNull {N : Type} (series : list (nullable N)) : Prop :=
  Forall (fun v => v = None) series.

(** A series none of whose entries is null. *)
Definition noNull {N : Type} (series : list (nullable N)) : Prop :=
  Forall (fun v => v <> None) series.

(** An equity curve that never falls: each value is at least the one before. *)
Fixpoint nonDecreasing (values : list Q) : Prop :=
  match values with
  | [] => True
  | a :: rest =>
      match rest with
      | [] => True
      | b :: _ => (a <= b)%Q /\ nonDecreasing rest
      end
  end.

(** A bar with high 2, low 1 and close 1: the close sits on the low. *)
Definition lowCloseBar : PriceBar Q := mkBar 0 1%Q 2%Q 1%Q 1%Q 1000%Q.

(** A bar with volume 10, a bar with volume 0, and the two in a row. *)
Definition volumeBar : PriceBar Q := mkBar 0 1%Q 3%Q 1%Q 2%Q 10%Q.
Definition noVolumeBar : PriceBar Q := mkBar 1 1%Q 3%Q 1%Q 2%Q 0%Q.
Definition volumeThenNone : list (PriceBar Q) := [volumeBar; noVolumeBar].

(** A bar whose close is NaN ([Number(undefined)]). *)
Definition nanCloseBar : PriceBar float :=
  mkBar 0 PrimFloat.one PrimFloat.one PrimFloat.one PrimFloat.nan PrimFloat.one.

(** [Number] on the query strings used below. *)
Definition numberOf (s : string) : Q :=
  if String.eqb s "-5" then (-5)%Q else 0%Q.

(** The request [GET /insights?symbol=AAPL&initialCapital=-5]. *)
Definition negativeCapitalQuery : Insights.Query :=
  Insights.mkQuery (Some "AAPL"%string) None None None (Some "-5"%string).

(** Two bars that close at 145, and a buy on the second. *)
Definition barsAt145 {N : Type} {A : Arith N} : list (PriceBar N) :=
  [flatBar 0 (ofZ 145); flatBar 1 (ofZ 145)].

Definition holdThenBuy : list Signal := [hold; mkSignal "buy_strong" 1].

(** The seven signals of the classifier. *)
Definition sevenSignals : list Signal :=
  [hold;
   mkSignal "buy_weak" 1; mkSignal "buy_medium" 1; mkSignal "buy_strong" 1;
   mkSignal "sell_weak" (-1); mkSignal "sell_medium" (-1); mkSignal "sell_strong" (-1)].

(** The number of logged entries (BUY) and of logged exits (SELL, STOP,
    TARGET) of a trade log. *)
Definition entries {N : Type} (log : list (AdvancedBacktest.Trade N)) : nat :=
  List.length (filter (fun t => match AdvancedBacktest.type t with
                                | AdvancedBacktest.BUY => true
                                | _ => false
                                end) log).

Definition exits {N : Type} (log : list (AdvancedBacktest.Trade N)) : nat :=
  List.length (filter (fun t => match AdvancedBacktest.type t with
                                | AdvancedBacktest.SELL
                                | AdvancedBacktest.STOP
                                | AdvancedBacktest.TARGET => true
                                | _ => false
                                end) log).

(** A state of the all-or-nothing simulator is flat (no share, no entry
    price, as many entries as exits logged) or holding (shares and an entry
    price, both positive, one more entry than exits logged). *)
Definition flatOrHolding (s : AdvancedBacktest.State Q) : Prop :=
  ((AdvancedBacktest.shares s == 0)%Q
   /\ AdvancedBacktest.entryPrice s = None
   /\ entries (AdvancedBacktest.trades s) = exits (AdvancedBacktest.trades s))
  \/ ((0 < AdvancedBacktest.shares s)%Q
      /\ (exists p, AdvancedBacktest.entryPrice s = Some p /\ (0 < p)%Q)
      /\ entries (AdvancedBacktest.trades s) = S (exits (AdvancedBacktest.trades s))).

(** From [previous] on, each value of the list is within one per cent of
    the value before it. *)
Fixpoint gentle (previous : Q) (values : list Q) : Prop :=
  match values with
  | [] => True
  | v :: rest =>
      ((99 # 100) * previous <= v)%Q /\ (v <= (101 # 100) * previous)%Q /\ gentle v rest
  end.

(** A bar of the synthetic history: the close is at least 5, the low and
    the high enclose the open and the close, and both lie within one per
    cent of the close. *)
Definition syntheticBar (b : PriceBar Q) : Prop :=
  (5 <= close b)%Q
  /\ (low b <= close b)%Q /\ (close b <= high b)%Q
  /\ (low b <= open b)%Q /\ (open b <= high b)%Q
  /\ ((99 # 100) * close b <= low b)%Q /\ (high b <= (101 # 100) * close b)%Q.

(** The days [endDate - (periods - 1), ..., endDate] the loop of
    generateMockHistory visits, in its order. *)
Definition visitedDays (endDate : Z) (periods : nat) : list Z :=
  map (fun i => (endDate - Z.of_nat i)%Z) (rev (seq 0 periods)).

(** ** Series have the input's length; short histories are null *)

Section Structure.

Context {N : Type} {A : Arith N}.

Lemma mapi_from_length (X Y : Type) (f : nat -> X -> Y) (l : list X) (i : nat) :
  List.length (mapi_from f i l) = List.length l.
Proof.
  revert i; induction l as [|x l IH]; intros i; simpl; [reflexivity|].
  now rewrite IH.
Qed.

Lemma mapi_length (X Y : Type) (f : nat -> X -> Y) (l : list X) :
  List.length (mapi f l) = List.length l.
Proof. apply mapi_from_length. Qed.

Lemma mapi_from_nth_error (X Y : Type) (f : nat -> X -> Y) (l : list X) (i k : nat) :
  nth_error (mapi_from f i l) k = option_map (f (i + k)%nat) (nth_error l k).
Proof.
  revert i k; induction l as [|x l IH]; intros i k; destruct k; simpl; try reflexivity.
  - now rewrite Nat.add_0_r.
  - rewrite IH. now replace (S i + k)%nat with (i + S k)%nat by lia.
Qed.

Lemma mapi_nth_error (X Y : Type) (f : nat -> X -> Y) (l : list X) (k : nat) :
  nth_error (mapi f l) k = option_map (f k) (nth_error l k).
Proof. unfold mapi. now rewrite mapi_from_nth_error. Qed.

Lemma mapi_from_Forall (X Y : Type) (P : Y -> Prop) (f : nat -> X -> Y) (l : list X) (i : nat) :
  (forall k x, nth_error l k = Some x -> P (f (i + k)%nat x)) ->
  Forall P (mapi_from f i l).
Proof.
  revert i; induction l as [|x l IH]; intros i H; simpl; constructor.
  - specialize (H 0%nat x). rewrite Nat.add_0_r in H. now apply H.
  - apply IH. intros k y Hk.
    replace (S i + k)%nat with (i + S k)%nat by lia. now apply H.
Qed.

Lemma nth_error_lt (X : Type) (l : list X) (k : nat) (x : X) :
  nth_error l k = Some x -> (k < List.length l)%nat.
Proof. intros H. apply nth_error_Some. congruence. Qed.

Lemma rolling_length (values : list (nullable N)) (window : nat) reducer :
  List.length (rolling values window reducer) = List.length values.
Proof. apply mapi_length. Qed.

Lemma rolling_short (values : list (nullable N)) (window : nat) reducer :
  (List.length values < window)%nat -> allNull (rolling values window reducer).
Proof.
  intros H. apply mapi_from_Forall. intros k x Hk. simpl.
  apply nth_error_lt in Hk.
  destruct (Nat.ltb_spec (k + 1) window); [reflexivity | lia].
Qed.

Lemma ema_loop_length multiplier previous (values : list (nullable N)) :
  List.length (ema_loop multiplier previous values) = List.length values.
Proof.
  revert previous; induction values as [|[v|] values IH]; intros previous; simpl;
    [reflexivity | now rewrite IH | now rewrite IH].
Qed.

Lemma ema_length (values : list (nullable N)) period :
  List.length (ema values period) = List.length values.
Proof. apply ema_loop_length. Qed.

Lemma rsi_loop_length window i prev (closes : list (nullable N)) gainAvg lossAvg :
  List.length (rsi_loop window i prev closes gainAvg lossAvg) = List.length closes.
Proof.
  revert i prev gainAvg lossAvg; induction closes as [|c closes IH]; intros; simpl;
    [reflexivity|].
  destruct (i <=? window)%nat; [destruct (i =? window)%nat|]; simpl; now rewrite IH.
Qed.

Lemma rsi_loop_short window i prev (closes : list (nullable N)) gainAvg lossAvg :
  (i + List.length closes <= window)%nat ->
  allNull (rsi_loop window i prev closes gainAvg lossAvg).
Proof.
  revert i prev gainAvg lossAvg; induction closes as [|c closes IH]; intros; simpl;
    [constructor|].
  simpl in H.
  destruct (Nat.leb_spec i window); [|lia].
  destruct (Nat.eqb_spec i window); [lia|].
  constructor; [reflexivity|]. apply IH. lia.
Qed.

Lemma vwap_loop_length cumulativeVolume cumulativeTpv (points : list (PriceBar N)) :
  List.length (vwap_loop cumulativeVolume cumulativeTpv points) = List.length points.
Proof.
  revert cumulativeVolume cumulativeTpv; induction points as [|row points IH]; intros;
    simpl; [reflexivity|].
  destruct (noVolume (getVolume row)); simpl; now rewrite IH.
Qed.

Lemma calculateSMA_length (points : list (PriceBar N)) window :
  List.length (calculateSMA points window) = List.length points.
Proof. unfold calculateSMA. now rewrite rolling_length, length_map. Qed.

Lemma calculateRSI_length (points : list (PriceBar N)) window :
  List.length (calculateRSI points window) = List.length points.
Proof.
  unfold calculateRSI. destruct points as [|p points]; simpl; [reflexivity|].
  now rewrite rsi_loop_length, length_map.
Qed.

Lemma band_length sqrt (closes sma : list (nullable N)) window numStdDev side :
  List.length (band sqrt closes sma window numStdDev side) = List.length closes.
Proof. apply mapi_length. Qed.

Lemma band_short sqrt (closes sma : list (nullable N)) window numStdDev side :
  (List.length closes < window)%nat ->
  allNull (band sqrt closes sma window numStdDev side).
Proof.
  intros H. apply mapi_from_Forall. intros k x Hk. simpl.
  apply nth_error_lt in Hk.
  destruct (Nat.ltb_spec (k + 1) window); [reflexivity | lia].
Qed.

Lemma percentK_length (points : list (PriceBar N)) kWindow dWindow :
  List.length (percentK (calculateStochasticOscillator points kWindow dWindow))
  = List.length points.
Proof. apply mapi_length. Qed.

Lemma percentK_short (points : list (PriceBar N)) kWindow dWindow :
  (List.length points < kWindow)%nat ->
  allNull (percentK (calculateStochasticOscillator points kWindow dWindow)).
Proof.
  intros H. apply mapi_from_Forall. intros k x Hk. simpl.
  apply nth_error_lt in Hk. rewrite length_map in Hk || idtac.
  destruct (Nat.ltb_spec (k + 1) kWindow); [reflexivity | lia].
Qed.

End Structure.

Section NoWarmUp.

Context {N : Type} {A : Arith N}.

Lemma ema_loop_seeded multiplier p (values : list (nullable N)) :
  noNull (ema_loop multiplier (Some p) values).
Proof.
  revert p; induction values as [|[v|] values IH]; intros p; simpl; constructor;
    try discriminate; apply IH.
Qed.

Lemma ema_first_finite (values : list (nullable N)) v period :
  noNull (ema (Some v :: values) period).
Proof.
  unfold ema; simpl. constructor; [discriminate | apply ema_loop_seeded].
Qed.

Lemma noNull_nth (series : list (nullable N)) i :
  noNull series -> (i < List.length series)%nat -> exists v, at_ series i = Some v.
Proof.
  intros H Hi. unfold at_.
  assert (Hin : In (nth i series None) series) by (apply nth_In; exact Hi).
  unfold noNull in H. rewrite Forall_forall in H. specialize (H _ Hin).
  destruct (nth i series None) as [v|]; [now exists v | congruence].
Qed.

(** With a finite first close, no entry of the MACD line or of its signal
    line is null: the EMA has no warm-up. *)
Lemma calculateMACD_no_warm_up (p : PriceBar N) (rest : list (PriceBar N))
  (shortWindow longWindow signalWindow : Z) :
  is_finite (close p) = true ->
  noNull (macd (calculateMACD (p :: rest) shortWindow longWindow signalWindow)) /\
  noNull (signal_line (calculateMACD (p :: rest) shortWindow longWindow signalWindow)).
Proof.
  intros Hfin.
  assert (Hc : map getClose (p :: rest) = Some (close p) :: map getClose rest).
  { simpl. unfold getClose at 1, toNumber. now rewrite Hfin. }
  assert (Hm : noNull (macd (calculateMACD (p :: rest) shortWindow longWindow signalWindow))).
  { unfold calculateMACD; cbn [macd]. rewrite Hc.
    apply mapi_from_Forall. intros k x Hk. simpl.
    pose proof (ema_first_finite (map getClose rest) (close p) shortWindow) as Hs.
    pose proof (ema_first_finite (map getClose rest) (close p) longWindow) as Hl.
    destruct (noNull_nth (i := k) Hl) as [l Hl'].
    { apply nth_error_lt in Hk. rewrite ema_length in *. exact Hk. }
    rewrite Hl'.
    destruct x as [v|]; [discriminate|].
    apply nth_error_In in Hk. unfold noNull in Hs. rewrite Forall_forall in Hs.
    now apply Hs in Hk. }
  split; [exact Hm|].
  unfold calculateMACD in *; cbn [macd signal_line] in *.
  remember (mapi _ _) as line eqn:Hline.
  destruct line as [|[v|] line].
  - constructor.
  - apply ema_first_finite.
  - inversion Hm; congruence.
Qed.

End NoWarmUp.

(** ** The structural claims, for every arithmetic *)

(** ** The forecast loop and its dates *)

Lemma validDay_between (d e f : Z) :
  (d <= e <= f)%Z -> validDay d = true -> validDay f = true -> validDay e = true.
Proof.
  unfold validDay. intros He Hd Hf.
  apply andb_true_iff in Hd. apply andb_true_iff in Hf.
  destruct Hd as [Hd _]. destruct Hf as [_ Hf].
  apply Z.leb_le in Hd. apply Z.leb_le in Hf.
  apply andb_true_iff. split; apply Z.leb_le; lia.
Qed.

Lemma last_at (X : Type) (l : list X) (d x : X) :
  nth_error l (List.length l - 1) = Some x -> last l d = x.
Proof.
  intros H. destruct l as [|y l]; [discriminate|].
  destruct (exists_last (l := y :: l)) as [l' [a E]]; [discriminate|].
  rewrite E in *. rewrite last_last. rewrite length_app in H. cbn [List.length] in H.
  replace (List.length l' + 1 - 1)%nat with (List.length l' + 0)%nat in H by lia.
  rewrite nth_error_app2, Nat.add_0_r, Nat.sub_diag in H by lia.
  now injection H.
Qed.

Section Projection.

Context {N : Type} {A : Arith N}.

Lemma project_returned (lastDay : Z) (projected : Z -> N) (steps : list Z)
  (forecast : list (ForecastPoint N)) :
  project (newDate lastDay) projected steps = inr forecast ->
  forecast = map (fun i => mkForecast (lastDay + i) (projected i)) steps.
Proof.
  revert forecast; induction steps as [|i steps IH]; intros forecast H;
    cbn [project map] in *.
  - now injection H as <-.
  - destruct (validDay lastDay) eqn:Ev.
    + assert (Ed : newDate lastDay = Some lastDay) by (unfold newDate; now rewrite Ev).
      rewrite Ed in H, IH. cbn [addDays] in H. unfold newDate in H.
      destruct (validDay (lastDay + i)); cbn [formatISO] in H; [|discriminate].
      destruct (project (Some lastDay) projected steps) as [e|rest] eqn:Er; [discriminate|].
      injection H as <-. f_equal. now apply IH.
    + assert (Ed : newDate lastDay = None) by (unfold newDate; now rewrite Ev).
      rewrite Ed in H. cbn [addDays formatISO] in H. discriminate.
Qed.

Lemma project_returns (lastDay : Z) (projected : Z -> N) (steps : list Z) :
  (forall i, In i steps -> validDay lastDay = true /\ validDay (lastDay + i) = true) ->
  project (newDate lastDay) projected steps
  = inr (map (fun i => mkForecast (lastDay + i) (projected i)) steps).
Proof.
  induction steps as [|i steps IH]; intros H; cbn [project map]; [reflexivity|].
  destruct (H i (or_introl eq_refl)) as [Hd Hi].
  rewrite IH by (intros j Hj; apply H; now right).
  unfold newDate. rewrite Hd. cbn [addDays]. unfold newDate. rewrite Hi. reflexivity.
Qed.

Lemma project_throws (lastDate : option Z) (projected : Z -> N) (steps : list Z) :
  (exists i, In i steps /\ addDays lastDate i = None) ->
  project lastDate projected steps = inl (RangeError "Invalid time value").
Proof.
  induction steps as [|j steps IH]; intros [i [Hin Hi]]; [contradiction|].
  cbn [project].
  destruct (addDays lastDate j) as [day|] eqn:Ej; cbn [formatISO]; [|reflexivity].
  destruct Hin as [->|Hin]; [congruence|].
  rewrite IH by (exists i; now split). reflexivity.
Qed.

Lemma horizon_length (days : Z) : Z.of_nat (List.length (horizon days)) = Z.max 0 days.
Proof. unfold horizon. rewrite length_map, length_seq. lia. Qed.

Lemma horizon_In (days i : Z) : In i (horizon days) <-> (1 <= i <= days)%Z.
Proof.
  unfold horizon. rewrite in_map_iff. split.
  - intros [k [<- Hk]]. apply in_seq in Hk. lia.
  - intros Hi. exists (Z.to_nat i). split; [lia|]. apply in_seq. lia.
Qed.

Lemma horizon_nth (days : Z) (k : nat) (i : Z) :
  nth_error (horizon days) k = Some i -> i = Z.of_nat (S k).
Proof.
  unfold horizon. rewrite nth_error_map.
  destruct (nth_error (seq 1 (Z.to_nat days)) k) as [j|] eqn:Ej; [|discriminate].
  intros H. injection H as <-.
  assert (Hlt : (k < List.length (seq 1 (Z.to_nat days)))%nat)
    by (apply nth_error_Some; congruence).
  rewrite length_seq in Hlt.
  pose proof (nth_error_nth _ _ 0%nat Ej) as Hj. rewrite seq_nth in Hj by exact Hlt.
  subst j. reflexivity.
Qed.

(** Every loop of predictFuturePrices from a last bar dated [lastDay]. *)
Lemma project_horizon (lastDay days : Z) (projected : Z -> N) :
  ((days <= 0)%Z \/ (validDay lastDay = true /\ validDay (lastDay + days) = true) ->
   project (newDate lastDay) projected (horizon days)
   = inr (map (fun i => mkForecast (lastDay + i) (projected i)) (horizon days)))
  /\ ((1 <= days)%Z /\ (validDay lastDay = false \/ validDay (lastDay + days) = false) ->
      project (newDate lastDay) projected (horizon days)
      = inl (RangeError "Invalid time value")).
Proof.
  split.
  - intros H. apply project_returns. intros i Hi. apply horizon_In in Hi.
    destruct H as [H|[Hd He]]; [lia|]. split; [exact Hd|].
    apply (@validDay_between lastDay (lastDay + i) (lastDay + days)); [lia | exact Hd | exact He].
  - intros [Hdays H]. apply project_throws.
    destruct (validDay lastDay) eqn:Ed.
    + destruct H as [H|H]; [discriminate|].
      exists days. split; [apply horizon_In; lia|].
      unfold newDate. rewrite Ed. cbn [addDays]. unfold newDate. now rewrite H.
    + exists 1%Z. split; [apply horizon_In; lia|].
      unfold newDate. now rewrite Ed.
Qed.

Lemma predictFuturePrices_returns (points : list (PriceBar N))
  (indicator model : string) (days : Z) (lastBar : PriceBar N) :
  nth_error points (List.length points - 1) = Some lastBar ->
  (days <= 0)%Z
  \/ (validDay (date lastBar) = true /\ validDay (date lastBar + days) = true) ->
  exists forecast, predictFuturePrices points indicator model days = inr forecast.
Proof.
  intros Hlast Hok. unfold predictFuturePrices.
  destruct (List.length (filter is_finite (map close points)) =? 0)%nat;
    [now eexists|].
  rewrite (last_at _ _ Hlast). cbv zeta.
  destruct (String.eqb model "simple");
    [rewrite (proj1 (project_horizon (date lastBar) days _) Hok); now eexists|].
  destruct (String.eqb model "arima");
    [rewrite (proj1 (project_horizon (date lastBar) days _) Hok); now eexists|].
  destruct (String.eqb model "prophet");
    [rewrite (proj1 (project_horizon (date lastBar) days _) Hok); now eexists|].
  now eexists.
Qed.

End Projection.

Section Claims.

Context {N : Type} {A : Arith N}.

(** C3 (amended): every indicator series has the length of the input.  For
    a history shorter than the window, the SMA, the RSI, the three
    Bollinger series and %K are all-null, and %D is all-null for a history
    shorter than dWindow.  The MACD line and its signal line have no warm-up:
    once the first close is finite no entry of either is null. *)
Theorem short_history_series (points : list (PriceBar N)) (sqrt : N -> N)
  (numStdDev : N) (window kWindow dWindow : nat)
  (shortWindow longWindow signalWindow : Z) :
  (List.length (calculateSMA points window) = List.length points
   /\ List.length (calculateRSI points window) = List.length points
   /\ List.length (macd (calculateMACD points shortWindow longWindow signalWindow))
      = List.length points
   /\ List.length (signal_line (calculateMACD points shortWindow longWindow signalWindow))
      = List.length points
   /\ List.length (middle (calculateBollingerBands sqrt points window numStdDev))
      = List.length points
   /\ List.length (upper (calculateBollingerBands sqrt points window numStdDev))
      = List.length points
   /\ List.length (lower (calculateBollingerBands sqrt points window numStdDev))
      = List.length points
   /\ List.length (percentK (calculateStochasticOscillator points kWindow dWindow))
      = List.length points
   /\ List.length (percentD (calculateStochasticOscillator points kWindow dWindow))
      = List.length points
   /\ List.length (calculateVWAP points) = List.length points)
  /\ ((List.length points < window)%nat ->
      allNull (calculateSMA points window)
      /\ allNull (calculateRSI points window)
      /\ allNull (middle (calculateBollingerBands sqrt points window numStdDev))
      /\ allNull (upper (calculateBollingerBands sqrt points window numStdDev))
      /\ allNull (lower (calculateBollingerBands sqrt points window numStdDev)))
  /\ ((List.length points < kWindow)%nat ->
      allNull (percentK (calculateStochasticOscillator points kWindow dWindow)))
  /\ ((List.length points < dWindow)%nat ->
      allNull (percentD (calculateStochasticOscillator points kWindow dWindow)))
  /\ (forall p rest, points = p :: rest -> is_finite (close p) = true ->
      noNull (macd (calculateMACD points shortWindow longWindow signalWindow))
      /\ noNull (signal_line (calculateMACD points shortWindow longWindow signalWindow))).
Proof.
  split; [|split; [|split; [|split]]].
  - repeat split.
    + apply calculateSMA_length.
    + apply calculateRSI_length.
    + unfold calculateMACD; cbn [macd].
      now rewrite mapi_length, ema_length, length_map.
    + unfold calculateMACD; cbn [signal_line].
      now rewrite ema_length, mapi_length, ema_length, length_map.
    + cbn [calculateBollingerBands middle]. apply calculateSMA_length.
    + cbn [calculateBollingerBands upper]. now rewrite band_length, length_map.
    + cbn [calculateBollingerBands lower]. now rewrite band_length, length_map.
    + apply percentK_length.
    + cbn [calculateStochasticOscillator percentD].
      rewrite rolling_length. apply (percentK_length points kWindow dWindow).
    + apply vwap_loop_length.
  - intros Hshort. repeat split.
    + apply rolling_short. now rewrite length_map.
    + unfold calculateRSI. destruct points as [|p rest]; simpl; [constructor|].
      constructor; [reflexivity|]. apply rsi_loop_short.
      rewrite length_map. simpl in Hshort. lia.
    + apply rolling_short. now rewrite length_map.
    + apply band_short. now rewrite length_map.
    + apply band_short. now rewrite length_map.
  - apply percentK_short.
  - intros Hshort. cbn [calculateStochasticOscillator percentD].
    apply rolling_short.
    pose proof (percentK_length points kWindow dWindow) as HK.
    cbn [calculateStochasticOscillator percentK] in HK. rewrite HK. exact Hshort.
  - intros p rest -> Hfin. now apply calculateMACD_no_warm_up.
Qed.

(** C7 (amended): a bar without volume (zero, [null] or not finite) gets
    [null] at its own index, whatever was computed before it, and leaves the
    two running sums as they were: every other entry is what the series
    without that bar has there. *)
Theorem vwap_no_volume_bar_is_null (pre post : list (PriceBar N)) (row : PriceBar N) :
  noVolume (getVolume row) = true ->
  calculateVWAP (pre ++ row :: post)
  = firstn (List.length pre) (calculateVWAP (pre ++ post))
      ++ None :: skipn (List.length pre) (calculateVWAP (pre ++ post)).
Proof.
  intros Hrow. unfold calculateVWAP. generalize (@zero N A) at 1 3 5 as cv.
  generalize (@zero N A) as ct. induction pre as [|r pre IH]; intros ct cv; simpl.
  - now rewrite Hrow.
  - destruct (noVolume (getVolume r)); simpl; now rewrite IH.
Qed.

(** C10: for an indicator name outside the five known ones backtestStrategy
    returns one [hold] signal (numericSignal 0) per bar and the empty
    context. *)
Theorem backtestStrategy_unknown_indicator (sqrt : N -> N)
  (points : list (PriceBar N)) (indicator : string) :
  ~ In indicator ["sma"; "rsi"; "macd"; "bollinger"; "stochastic"]%string ->
  backtestStrategy sqrt points indicator = (map (fun _ => hold) points, CtxEmpty)
  /\ List.length (fst (backtestStrategy sqrt points indicator)) = List.length points
  /\ Forall (fun s => s = mkSignal "hold" 0) (fst (backtestStrategy sqrt points indicator))
  /\ snd (backtestStrategy sqrt points indicator) = CtxEmpty.
Proof.
  intros Hout.
  assert (E : backtestStrategy sqrt points indicator
              = (map (fun _ => hold) points, CtxEmpty)).
  { unfold backtestStrategy.
    repeat match goal with
           | |- context [String.eqb indicator ?s] =>
               destruct (String.eqb_spec indicator s) as [->|_];
               [exfalso; apply Hout; simpl; tauto|]
           end.
    reflexivity. }
  rewrite E; simpl. repeat split.
  - apply length_map.
  - apply Forall_forall. intros s Hs. apply in_map_iff in Hs.
    destruct Hs as [x [<- _]]. reflexivity.
Qed.

(** C4 (amended): predictFuturePrices returns the empty forecast, raising
    no error, when no close is finite and for every model name outside the
    three.  With at least one finite close and one of the three models it
    raises no error and returns one point for each of the [days] days (none
    for [days <= 0]) when [days <= 0] or the date of the last bar and the
    day [days] days after it are both dates a [Date] can hold; otherwise
    it throws [RangeError: Invalid time value]. *)
Theorem predictFuturePrices_length (points : list (PriceBar N))
  (indicator model : string) (days : Z) :
  (filter is_finite (map close points) = [] ->
   predictFuturePrices points indicator model days = inr [])
  /\ (forall lastBar,
        filter is_finite (map close points) <> [] ->
        In model ["simple"; "arima"; "prophet"]%string ->
        nth_error points (List.length points - 1) = Some lastBar ->
        ((days <= 0)%Z
         \/ (validDay (date lastBar) = true /\ validDay (date lastBar + days) = true) ->
         exists forecast,
           predictFuturePrices points indicator model days = inr forecast
           /\ Z.of_nat (List.length forecast) = Z.max 0 days)
        /\ ((1 <= days)%Z
            /\ (validDay (date lastBar) = false
                \/ validDay (date lastBar + days) = false) ->
            predictFuturePrices points indicator model days
            = inl (RangeError "Invalid time value")))
  /\ (~ In model ["simple"; "arima"; "prophet"]%string ->
      predictFuturePrices points indicator model days = inr []).
Proof.
  unfold predictFuturePrices. repeat split.
  - intros ->. reflexivity.
  - intros Hok.
    destruct (filter is_finite (map close points)) as [|c closes] eqn:E; [congruence|].
    cbn [List.length Nat.eqb]. rewrite (last_at _ _ H1).
    destruct H0 as [<-|[<-|[<-|[]]]]; cbn [String.eqb Ascii.eqb Bool.eqb andb];
      match goal with
      | |- context [project _ ?f _] =>
          rewrite (proj1 (project_horizon (date lastBar) days f) Hok)
      end;
      (eexists; split; [reflexivity|]); rewrite length_map; apply horizon_length.
  - intros Hbad.
    destruct (filter is_finite (map close points)) as [|c closes] eqn:E; [congruence|].
    cbn [List.length Nat.eqb]. rewrite (last_at _ _ H1).
    destruct H0 as [<-|[<-|[<-|[]]]]; cbn [String.eqb Ascii.eqb Bool.eqb andb];
      match goal with
      | |- context [project _ ?f _] =>
          exact (proj2 (project_horizon (date lastBar) days f) Hbad)
      end.
  - intros Hout.
    destruct (List.length (filter is_finite (map close points)) =? 0)%nat; [reflexivity|].
    repeat match goal with
           | |- context [String.eqb model ?s] =>
               destruct (String.eqb_spec model s) as [->|_];
               [exfalso; apply Hout; simpl; tauto|]
           end.
    reflexivity.
Qed.

End Claims.

(** ** Exact arithmetic *)

Lemma exact_ltb (a b : Q) : (a <? b)%num = true <-> (a < b)%Q.
Proof.
  cbn [nltb ExactArith]. rewrite negb_true_iff.
  split; intros H.
  - apply Qnot_le_lt. intros Hle. apply Qle_bool_iff in Hle. congruence.
  - destruct (Qle_bool b a) eqn:E; [|reflexivity].
    apply Qle_bool_iff in E. exfalso. exact (Qlt_not_le _ _ H E).
Qed.

Lemma exact_ltb_false (a b : Q) : (a <? b)%num = false <-> (b <= a)%Q.
Proof.
  cbn [nltb ExactArith]. rewrite negb_false_iff. apply Qle_bool_iff.
Qed.

Lemma exact_leb (a b : Q) : (a <=? b)%num = true <-> (a <= b)%Q.
Proof. apply Qle_bool_iff. Qed.

Lemma exact_eqb (a b : Q) : (a =? b)%num = true <-> (a == b)%Q.
Proof. apply Qeq_bool_iff. Qed.

Lemma exact_eqb_false (a b : Q) : (a =? b)%num = false <-> ~ (a == b)%Q.
Proof.
  split; intros H.
  - intros E. apply exact_eqb in E. congruence.
  - destruct (a =? b)%num eqn:E; [|reflexivity]. apply exact_eqb in E. contradiction.
Qed.

Lemma exact_zero : @zero Q ExactArith = 0%Q.
Proof. reflexivity. Qed.

(** *** maxDrawdown *)

Lemma drawdown_loop_nonpositive (series : list (ValuePoint Q)) (peak : option Q) (maxDd : Q) :
  (maxDd <= 0)%Q -> (AdvancedBacktest.drawdown_loop peak maxDd series <= 0)%Q.
Proof.
  revert peak maxDd; induction series as [|row series IH]; intros peak maxDd H;
    cbn [AdvancedBacktest.drawdown_loop]; [exact H|].
  set (peak' := if AdvancedBacktest.above (value row) peak then Some (value row) else peak).
  destruct (AdvancedBacktest.unusable peak'); [now apply IH|].
  destruct (_ <? maxDd)%num eqn:E; apply IH; [|exact H].
  apply exact_ltb in E. apply Qlt_le_weak in E. now apply Qle_trans with maxDd.
Qed.

Lemma drawdown_loop_flat (values : list (ValuePoint Q)) (peak : option Q) :
  nonDecreasing (map value values) ->
  match peak, values with
  | Some p, row :: _ => (p <= value row)%Q
  | _, _ => True
  end ->
  AdvancedBacktest.drawdown_loop peak zero values = 0%Q.
Proof.
  revert peak; induction values as [|row values IH]; intros peak Hmono Hpeak;
    cbn [AdvancedBacktest.drawdown_loop]; [reflexivity|].
  assert (Hq : exists q, (if AdvancedBacktest.above (value row) peak
                          then Some (value row) else peak) = Some q
                         /\ (q == value row)%Q).
  { destruct peak as [p|]; cbn [AdvancedBacktest.above].
    - destruct (p <? value row)%num eqn:E.
      + exists (value row). split; [reflexivity | apply Qeq_refl].
      + exists p. split; [reflexivity|]. apply exact_ltb_false in E.
        now apply Qle_antisym.
    - exists (value row). split; [reflexivity | apply Qeq_refl]. }
  destruct Hq as [q [-> Hq]].
  assert (Hnext : nonDecreasing (map value values)
                  /\ match values with
                     | [] => True
                     | next :: _ => (q <= value next)%Q
                     end).
  { destruct values as [|next values]; [split; exact I|].
    cbn [map nonDecreasing] in Hmono.
    destruct Hmono as [Hle Hmono]. split; [exact Hmono|]. now rewrite Hq. }
  destruct Hnext as [Hmono' Hle'].
  destruct (AdvancedBacktest.unusable (Some q)) eqn:U.
  - apply IH; [exact Hmono'|]. destruct values; [exact I | exact Hle'].
  - cbn [AdvancedBacktest.unusable is_finite ExactArith negb orb] in U.
    apply exact_eqb_false in U.
    assert (E : ((value row - nz (Some q)) / nz (Some q) <? zero)%num = false).
    { apply exact_ltb_false. cbn [nz nsub ndiv ExactArith]. rewrite exact_zero.
      setoid_replace (value row - q)%Q with 0%Q by (rewrite Hq; ring).
      unfold Qdiv. rewrite Qmult_0_l. apply Qle_refl. }
    rewrite E. apply IH; [exact Hmono'|]. destruct values; [exact I | exact Hle'].
Qed.

(** C8: over exact arithmetic maxDrawdown never returns a positive value,
    and on a curve that never falls it returns 0 itself. *)
Theorem maxDrawdown_nonpositive (series : list (ValuePoint Q)) :
  (AdvancedBacktest.maxDrawdown series <= 0)%Q
  /\ (nonDecreasing (map value series) -> AdvancedBacktest.maxDrawdown series = 0%Q).
Proof.
  split.
  - apply drawdown_loop_nonpositive. apply Qle_refl.
  - intros Hmono. apply drawdown_loop_flat; [exact Hmono | exact I].
Qed.

(** *** The SMA and RSI scenarios *)

(** C6 (amended): on 25 daily bars whose closes rise from 100 to 124,
    calculateSMA with window 20 gives at index 24 the mean of the last 20
    closes (105 to 124), and that mean is 114.5, in exact arithmetic and in
    binary64 alike. *)
Theorem sma20_of_rising_closes :
  (exists v : Q,
      nth_error (calculateSMA (risingBars 25 100) 20) 24 = Some (Some v)
      /\ (v == mean (skipn 5 (map close (risingBars 25 100))))%Q
      /\ (v == 229 # 2)%Q)
  /\ nth_error (calculateSMA (N:=float) (risingBars 25 100) 20) 24
     = Some (Some 114.5%float).
Proof.
  split.
  - eexists. split; [vm_compute; reflexivity|]. split; vm_compute; reflexivity.
  - vm_compute. reflexivity.
Qed.

(** C6, as stated: the value at index 24 is not 115.5. *)
Lemma sma20_of_rising_closes_is_not_115_5 :
  ~ exists v : Q,
      nth_error (calculateSMA (risingBars 25 100) 20) 24 = Some (Some v)
      /\ (v == 1155 # 10)%Q.
Proof.
  intros [v [H E]]. vm_compute in H. injection H as <-. vm_compute in E. discriminate.
Qed.

(** C2: with a zero average loss calculateRSI puts 100 in [rs], not in the
    result, which is then 100 - 100/101: on 15 bars each rising by 1 the
    first computed value (index 14) is 10000/101, about 99.0099, not 100. *)
Theorem rsi_zero_loss_is_not_100 :
  (forall gainAvg lossAvg : Q,
      (lossAvg == 0)%Q -> (rsi_value gainAvg lossAvg == 10000 # 101)%Q)
  /\ (exists v : Q,
         nth_error (calculateRSI (risingBars 15 1) 14) 14 = Some (Some v)
         /\ (v == 10000 # 101)%Q /\ ~ (v == 100)%Q)
  /\ nth_error (calculateRSI (N:=float) (risingBars 15 1) 14) 14
     = Some (Some 0x1.8c0a237c32b17p+6%float).    (* 99.009900990099013 *)
Proof.
  split; [|split].
  - intros g l Hl. unfold rsi_value.
    assert (E : (l =? zero)%num = true) by now apply exact_eqb.
    rewrite E. vm_compute. reflexivity.
  - eexists. split; [vm_compute; reflexivity|]. split; vm_compute; [reflexivity | discriminate].
  - vm_compute. reflexivity.
Qed.

(** *** The stochastic oscillator *)

Lemma fold_max2_ge (l : list Q) (a : Q) :
  (a <= fold_left max2 l a)%Q /\ forall x, In x l -> (x <= fold_left max2 l a)%Q.
Proof.
  revert a; induction l as [|y l IH]; intros a; simpl.
  - split; [apply Qle_refl | tauto].
  - destruct (IH (max2 a y)) as [H1 H2].
    assert (Ha : (a <= max2 a y)%Q /\ (y <= max2 a y)%Q).
    { unfold max2. destruct (a <? y)%num eqn:E.
      - apply exact_ltb in E. split; [now apply Qlt_le_weak | apply Qle_refl].
      - apply exact_ltb_false in E. split; [apply Qle_refl | exact E]. }
    split.
    + now apply Qle_trans with (max2 a y).
    + intros x [E|Hx]; [subst y; now apply Qle_trans with (max2 a x) | now apply H2].
Qed.

Lemma fold_min2_le (l : list Q) (a : Q) :
  (fold_left min2 l a <= a)%Q /\ forall x, In x l -> (fold_left min2 l a <= x)%Q.
Proof.
  revert a; induction l as [|y l IH]; intros a; simpl.
  - split; [apply Qle_refl | tauto].
  - destruct (IH (min2 a y)) as [H1 H2].
    assert (Ha : (min2 a y <= a)%Q /\ (min2 a y <= y)%Q).
    { unfold min2. destruct (y <? a)%num eqn:E.
      - apply exact_ltb in E. split; [now apply Qlt_le_weak | apply Qle_refl].
      - apply exact_ltb_false in E. split; [apply Qle_refl | exact E]. }
    split.
    + now apply Qle_trans with (min2 a y).
    + intros x [E|Hx]; [subst y; now apply Qle_trans with (min2 a x) | now apply H2].
Qed.

Lemma Math_max_ge (l : list Q) (x : Q) : In x l -> (x <= Math_max l)%Q.
Proof.
  destruct l as [|a l]; simpl; [tauto|].
  destruct (fold_max2_ge l a) as [H1 H2]. intros [<-|Hx]; [exact H1 | now apply H2].
Qed.

Lemma Math_min_le (l : list Q) (x : Q) : In x l -> (Math_min l <= x)%Q.
Proof.
  destruct l as [|a l]; simpl; [tauto|].
  destruct (fold_min2_le l a) as [H1 H2]. intros [<-|Hx]; [exact H1 | now apply H2].
Qed.

(** The entry at index [i] is in the trailing window that ends at [i]. *)
Lemma slice_has_last (X : Type) (l : list X) (window i : nat) (x : X) :
  (1 <= window)%nat -> (window <= i + 1)%nat -> nth_error l i = Some x ->
  In x (slice l (i + 1 - window) (i + 1)).
Proof.
  intros Hw Hi Hx. unfold slice.
  apply nth_error_In with (n := (window - 1)%nat).
  rewrite nth_error_firstn.
  destruct (Nat.ltb_spec (window - 1) (i + 1 - (i + 1 - window))); [|lia].
  rewrite nth_error_skipn.
  replace (i + 1 - window + (window - 1))%nat with i by lia. exact Hx.
Qed.

Lemma exact_percentK_entry (points : list (PriceBar Q)) (kWindow dWindow i : nat) (v : Q) :
  nth_error (percentK (calculateStochasticOscillator points kWindow dWindow)) i
  = Some (Some v) ->
  exists b, nth_error points i = Some b
            /\ (kWindow <= i + 1)%nat
            /\ closeAt points i = close b
            /\ v = (let rh := rangeHigh (map getHigh points) kWindow i in
                    let rl := rangeLow (map getLow points) kWindow i in
                    if (rh =? rl)%num then zero
                    else ((close b - rl) / (rh - rl)) * ofZ 100)%num.
Proof.
  cbn [calculateStochasticOscillator percentK]. rewrite mapi_nth_error.
  destruct (nth_error points i) as [b|] eqn:Hb; [|discriminate].
  cbn [option_map]. destruct (Nat.ltb_spec (i + 1) kWindow); [discriminate|].
  intros Hv. exists b. split; [reflexivity|]. split; [exact H|].
  assert (Hc : closeAt points i = close b).
  { unfold closeAt. apply nth_error_nth. now rewrite nth_error_map, Hb. }
  split; [exact Hc|].
  assert (Hn : nz (at_ (map getClose points) i) = close b).
  { unfold at_. erewrite nth_error_nth; [|rewrite nth_error_map, Hb; reflexivity].
    reflexivity. }
  rewrite Hn in Hv. cbv zeta.
  destruct (_ =? _)%num; injection Hv as <-; reflexivity.
Qed.

Lemma exact_range_bounds (points : list (PriceBar Q)) (kWindow i : nat) (b : PriceBar Q) :
  (1 <= kWindow)%nat -> (kWindow <= i + 1)%nat -> nth_error points i = Some b ->
  (high b <= rangeHigh (map getHigh points) kWindow i)%Q
  /\ (rangeLow (map getLow points) kWindow i <= low b)%Q.
Proof.
  intros Hk Hi Hb. split.
  - apply Math_max_ge. apply in_map_iff. exists (Some (high b)). split; [reflexivity|].
    apply slice_has_last; [exact Hk | exact Hi |]. now rewrite nth_error_map, Hb.
  - apply Math_min_le. apply in_map_iff. exists (Some (low b)). split; [reflexivity|].
    apply slice_has_last; [exact Hk | exact Hi |]. now rewrite nth_error_map, Hb.
Qed.

(** C5 (amended): over exact arithmetic, when every bar has
    low <= close <= high (and kWindow >= 1), each non-null %K lies in
    [0,100]; it is 0 whenever the trailing high-low range is zero, and it is
    0 exactly when that range is zero or the bar's close equals the trailing
    low. *)
Theorem percentK_range (points : list (PriceBar Q)) (kWindow dWindow i : nat) (v : Q) :
  (1 <= kWindow)%nat ->
  (forall b, In b points -> (low b <= close b)%Q /\ (close b <= high b)%Q) ->
  nth_error (percentK (calculateStochasticOscillator points kWindow dWindow)) i
  = Some (Some v) ->
  (0 <= v)%Q /\ (v <= 100)%Q
  /\ ((rangeHigh (map getHigh points) kWindow i
       == rangeLow (map getLow points) kWindow i)%Q -> (v == 0)%Q)
  /\ ((v == 0)%Q <->
      (rangeHigh (map getHigh points) kWindow i
       == rangeLow (map getLow points) kWindow i)%Q
      \/ (closeAt points i == rangeLow (map getLow points) kWindow i)%Q).
Proof.
  intros Hk Hbars Hv.
  destruct (exact_percentK_entry _ _ _ _ Hv) as [b [Hb [Hi [Hc ->]]]].
  destruct (@exact_range_bounds points kWindow i b Hk Hi Hb) as [Hhi Hlo].
  destruct (Hbars b (nth_error_In _ _ Hb)) as [Hlc Hch].
  rewrite Hc. cbv zeta.
  set (rh := rangeHigh (map getHigh points) kWindow i) in *.
  set (rl := rangeLow (map getLow points) kWindow i) in *.
  clear Hv. clearbody rh rl.
  destruct (rh =? rl)%num eqn:E.
  - apply exact_eqb in E. rewrite exact_zero.
    split; [apply Qle_refl|]. split; [unfold Qle; simpl; lia|].
    split; [intros _; apply Qeq_refl|].
    split; [intros _; now left | intros _; apply Qeq_refl].
  - apply exact_eqb_false in E.
    cbn [nsub ndiv nmul ofZ ExactArith]. change (inject_Z 100) with 100%Q.
    assert (Hd : (0 < rh - rl)%Q).
    { assert (rl <= rh)%Q by lra.
      destruct (Qlt_le_dec rl rh) as [Hlt|Hge]; [lra|].
      exfalso. apply E. now apply Qle_antisym. }
    assert (Hinv : (0 < / (rh - rl))%Q) by now apply Qinv_lt_0_compat.
    assert (Hone : ((rh - rl) * / (rh - rl) == 1)%Q).
    { apply Qmult_inv_r. lra. }
    unfold Qdiv. set (inv := (/ (rh - rl))%Q) in *. clearbody inv.
    split; [nra|]. split; [nra|]. split; [intros Heq; contradiction|].
    split; [intros Hz; right; nra | intros [Heq|Heq]; [contradiction | nra]].
Qed.

(** C5, as stated: fourteen bars with high 2, low 1 and close 1 satisfy
    low <= close <= high, %K at index 13 is 0, and the trailing range is 1. *)
Lemma percentK_zero_with_nonzero_range :
  (forall b, In b (repeat lowCloseBar 14) -> (low b <= close b)%Q /\ (close b <= high b)%Q)
  /\ exists v : Q,
       nth_error (percentK (calculateStochasticOscillator (repeat lowCloseBar 14) 14 3)) 13
       = Some (Some v)
       /\ (v == 0)%Q
       /\ ~ (rangeHigh (map getHigh (repeat lowCloseBar 14)) 14 13
             == rangeLow (map getLow (repeat lowCloseBar 14)) 14 13)%Q.
Proof.
  split.
  - intros b Hb. apply repeat_spec in Hb. subst b. split; vm_compute; discriminate.
  - eexists. split; [vm_compute; reflexivity|].
    split; vm_compute; [reflexivity | discriminate].
Qed.

(** *** The two simulators *)

Lemma exact_weightOf_range (s : string) :
  (0 <= Backtesting.weightOf (N:=Q) s)%Q /\ (Backtesting.weightOf (N:=Q) s <= 1)%Q.
Proof.
  unfold Backtesting.weightOf.
  destruct (endsWith s "strong"); [|destruct (endsWith s "medium");
                                     [|destruct (endsWith s "weak")]];
    split; unfold Qle; simpl; lia.
Qed.

Lemma exact_trade_keeps (signals : list Signal) (st : Backtesting.State Q)
  (index : nat) (row : PriceBar Q) :
  (0 < close row)%Q ->
  (0 <= Backtesting.cash st)%Q /\ (0 <= Backtesting.shares st)%Q ->
  (0 <= Backtesting.cash (Backtesting.trade signals st index row))%Q
  /\ (0 <= Backtesting.shares (Backtesting.trade signals st index row))%Q.
Proof.
  intros Hp [Hc Hs]. unfold Backtesting.trade.
  destruct (exact_weightOf_range (Backtesting.signalAt signals index)) as [Hw0 Hw1].
  set (w := Backtesting.weightOf (Backtesting.signalAt signals index)) in *.
  assert (Hinv : (0 < / close row)%Q) by now apply Qinv_lt_0_compat.
  destruct (_ && _).
  - cbn [Backtesting.cash Backtesting.shares nadd nsub nmul ndiv ExactArith].
    unfold Qdiv. set (inv := (/ close row)%Q) in *. clearbody inv w.
    assert (Hi : (0 <= Backtesting.cash st * w)%Q) by now apply Qmult_le_0_compat.
    assert (Hp' : (0 <= Backtesting.cash st * w * inv)%Q)
      by (apply Qmult_le_0_compat; [exact Hi | now apply Qlt_le_weak]).
    split; [nra | lra].
  - destruct (_ && _); [|tauto].
    cbn [nadd nsub nmul ExactArith]. clearbody w.
    assert (Hi : (0 <= Backtesting.shares st * w)%Q) by now apply Qmult_le_0_compat.
    assert (Hp' : (0 <= Backtesting.shares st * w * close row)%Q)
      by (apply Qmult_le_0_compat; [exact Hi | now apply Qlt_le_weak]).
    destruct (_ <=? _)%num eqn:E;
      cbn [Backtesting.cash Backtesting.shares].
    + split; [lra | rewrite exact_zero; apply Qle_refl].
    + split; [lra | nra].
Qed.

Lemma exact_replay_keeps (signals : list Signal) (initialCapital : Q)
  (points : list (PriceBar Q)) (st : Backtesting.State Q) (index : nat) :
  (forall b, In b points -> (0 < close b)%Q) ->
  (0 <= Backtesting.cash st)%Q /\ (0 <= Backtesting.shares st)%Q ->
  Forall (fun s => (0 <= Backtesting.cash s)%Q /\ (0 <= Backtesting.shares s)%Q)
         (map fst (Backtesting.replay signals initialCapital st index points)).
Proof.
  revert st index; induction points as [|row points IH]; intros st index Hpos Hst;
    cbn [Backtesting.replay]; [constructor|].
  assert (Hrest : forall b, In b points -> (0 < close b)%Q)
    by (intros b Hb; apply Hpos; now right).
  destruct (index =? 0)%nat; cbn [map fst]; constructor.
  - exact Hst.
  - now apply IH.
  - apply exact_trade_keeps; [apply Hpos; now left | exact Hst].
  - apply IH; [exact Hrest|].
    apply exact_trade_keeps; [apply Hpos; now left | exact Hst].
Qed.

Section ExactLab.

Variables stopLossPct takeProfitPct : Q.

Let keeps (s : AdvancedBacktest.State Q) : Prop :=
  (0 <= AdvancedBacktest.cash s)%Q /\ (0 <= AdvancedBacktest.shares s)%Q.

Lemma exact_protect_keeps (st : AdvancedBacktest.State Q) (row : PriceBar Q) :
  (0 < close row)%Q -> keeps st ->
  keeps (AdvancedBacktest.protect stopLossPct takeProfitPct st row).
Proof.
  intros Hp [Hc Hs]. unfold AdvancedBacktest.protect, keeps.
  destruct (_ && _); [|tauto].
  destruct (_ && _); [|destruct (_ && _); [|tauto]];
    cbn [AdvancedBacktest.cash AdvancedBacktest.shares nadd nmul ExactArith];
    rewrite exact_zero; (split; [nra | apply Qle_refl]).
Qed.

Lemma exact_act_keeps (signals : list Signal) (st : AdvancedBacktest.State Q)
  (idx : nat) (row : PriceBar Q) :
  (0 < close row)%Q -> keeps st ->
  keeps (AdvancedBacktest.act signals st idx row).
Proof.
  intros Hp [Hc Hs]. unfold AdvancedBacktest.act, keeps.
  assert (Hinv : (0 < / close row)%Q) by now apply Qinv_lt_0_compat.
  assert (Hone : (close row * / close row == 1)%Q) by (apply Qmult_inv_r; lra).
  destruct (_ && _).
  - destruct (_ <? _)%num; [|tauto].
    cbn [AdvancedBacktest.cash AdvancedBacktest.shares nsub nmul ndiv ExactArith].
    unfold Qdiv. set (inv := (/ close row)%Q) in *. clearbody inv.
    split; nra.
  - destruct (_ && _); [|tauto].
    cbn [AdvancedBacktest.cash AdvancedBacktest.shares nadd nmul ExactArith].
    rewrite exact_zero. split; [nra | apply Qle_refl].
Qed.

Lemma exact_step_keeps (signals : list Signal) (st : AdvancedBacktest.State Q)
  (idx : nat) (row : PriceBar Q) :
  (0 < close row)%Q -> keeps st ->
  keeps (AdvancedBacktest.step stopLossPct takeProfitPct signals st idx row).
Proof.
  intros Hp Hst. unfold AdvancedBacktest.step.
  exact (@exact_act_keeps signals _ idx row Hp (@exact_protect_keeps st row Hp Hst)).
Qed.

Lemma exact_lab_replay_keeps (signals : list Signal) (points : list (PriceBar Q))
  (st : AdvancedBacktest.State Q) (idx : nat) :
  (forall b, In b points -> (0 < close b)%Q) -> keeps st ->
  Forall keeps (AdvancedBacktest.replay stopLossPct takeProfitPct signals st idx points).
Proof.
  revert st idx; induction points as [|row points IH]; intros st idx Hpos Hst;
    cbn [AdvancedBacktest.replay]; constructor.
  - apply exact_step_keeps; [apply Hpos; now left | exact Hst].
  - apply IH; [intros b Hb; apply Hpos; now right|].
    apply exact_step_keeps; [apply Hpos; now left | exact Hst].
Qed.

Lemma exact_liquidate_keeps (points : list (PriceBar Q)) (st : AdvancedBacktest.State Q) :
  (forall b, In b points -> (0 < close b)%Q) -> keeps st ->
  keeps (AdvancedBacktest.liquidate points st).
Proof.
  intros Hpos [Hc Hs]. unfold AdvancedBacktest.liquidate, keeps.
  destruct (_ <? _)%num; [|tauto].
  destruct points as [|p points]; [tauto|].
  set (lastRow := last (p :: points) _).
  assert (Hl : (0 < close lastRow)%Q).
  { apply Hpos. subst lastRow. destruct (exists_last (l := p :: points)) as [l' [a E]];
      [discriminate|]. rewrite E, last_last. apply in_or_app. right. now left. }
  destruct (truthy _); [|tauto].
  cbn [AdvancedBacktest.cash AdvancedBacktest.shares nadd nmul ExactArith].
  split; [nra | exact Hs].
Qed.

Lemma exact_lab_states_keep (points : list (PriceBar Q)) (signals : list Signal)
  (initialCapital : Q) :
  (0 <= initialCapital)%Q ->
  (forall b, In b points -> (0 < close b)%Q) ->
  Forall keeps
         (AdvancedBacktest.states stopLossPct takeProfitPct points signals initialCapital).
Proof.
  intros Hcap Hpos. unfold AdvancedBacktest.states.
  assert (Hstart : keeps (AdvancedBacktest.start initialCapital)).
  { split; [exact Hcap | apply Qle_refl]. }
  set (run := AdvancedBacktest.start initialCapital :: _).
  assert (Hrun : Forall keeps run).
  { subst run. constructor; [exact Hstart|]. now apply exact_lab_replay_keeps. }
  apply Forall_app. split; [exact Hrun|].
  constructor; [|constructor].
  apply exact_liquidate_keeps; [exact Hpos|].
  rewrite Forall_forall in Hrun. apply Hrun.
  subst run. destruct (exists_last (l := AdvancedBacktest.start initialCapital
    :: AdvancedBacktest.replay stopLossPct takeProfitPct signals
         (AdvancedBacktest.start initialCapital) 0 points)) as [l' [a E]];
    [discriminate|].
  rewrite E, last_last. apply in_or_app. right. now left.
Qed.

End ExactLab.

(** Over exact arithmetic, from a starting capital that is not negative, on
    bars whose closes are positive and for every signal sequence, both
    simulators keep the running cash and the running share count at or
    above zero: before the first bar, after each bar and (for the
    all-or-nothing variant, under any stop-loss and take-profit setting)
    after the closing liquidation. *)
Theorem simulators_keep_cash_and_shares (points : list (PriceBar Q))
  (signals : list Signal) (initialCapital stopLossPct takeProfitPct : Q) :
  (0 <= initialCapital)%Q ->
  (forall b, In b points -> (0 < close b)%Q) ->
  Forall (fun s => (0 <= Backtesting.cash s)%Q /\ (0 <= Backtesting.shares s)%Q)
         (Backtesting.states points signals initialCapital)
  /\ Forall (fun s => (0 <= AdvancedBacktest.cash s)%Q /\ (0 <= AdvancedBacktest.shares s)%Q)
            (AdvancedBacktest.states stopLossPct takeProfitPct points signals initialCapital).
Proof.
  intros Hcap Hpos. split.
  - unfold Backtesting.states.
    assert (Hstart : (0 <= Backtesting.cash (Backtesting.start initialCapital))%Q
                     /\ (0 <= Backtesting.shares (Backtesting.start initialCapital))%Q).
    { split; [exact Hcap | apply Qle_refl]. }
    constructor; [exact Hstart|]. now apply exact_replay_keeps.
  - now apply exact_lab_states_keep.
Qed.

(** The invariant on three rising bars, a buy and a sell, from capital 10000
    with a 5% stop-loss and a 10% take-profit. *)
Lemma simulators_keep_cash_and_shares_witness :
  Forall (fun s => (0 <= Backtesting.cash s)%Q /\ (0 <= Backtesting.shares s)%Q)
         (Backtesting.states (risingBars 3 100)
            [hold; mkSignal "buy_strong" 1; mkSignal "sell_weak" (-1)] 10000%Q)
  /\ Forall (fun s => (0 <= AdvancedBacktest.cash s)%Q /\ (0 <= AdvancedBacktest.shares s)%Q)
            (AdvancedBacktest.states 5%Q 10%Q (risingBars 3 100)
               [hold; mkSignal "buy_strong" 1; mkSignal "sell_weak" (-1)] 10000%Q).
Proof.
  apply (@simulators_keep_cash_and_shares (risingBars 3 100)
           [hold; mkSignal "buy_strong" 1; mkSignal "sell_weak" (-1)] 10000%Q 5%Q 10%Q).
  - unfold Qle; simpl; lia.
  - intros b Hb. simpl in Hb.
    destruct Hb as [<-|[<-|[<-|[]]]]; unfold Qlt; simpl; lia.
Defined.

(** C1: under binary64, the arithmetic the code runs on, runSimulation
    breaks the invariant on an input of the claim's domain.  From a capital
    of 10000 (the lab's default) and a buy at a close of 145,
    [qty = cash / price; cash -= qty * price] leaves the cash at -2^-39
    (about -1.8e-12) while shares are held; read exactly, the same step
    leaves 0.  On the same input runTradingSimulation, which subtracts the
    amount it invests, keeps cash and shares at or above zero. *)
Theorem runSimulation_buy_leaves_cash_below_zero :
  (zero <? ofZ 10000)%num = true
  /\ (forall b : PriceBar float, In b barsAt145 -> (zero <? close b)%num = true)
  /\ (exists st : AdvancedBacktest.State float,
        nth_error (AdvancedBacktest.states (ofZ 5) (ofZ 10) barsAt145 holdThenBuy
                     (ofZ 10000)) 2 = Some st
        /\ AdvancedBacktest.cash st = (-0x1p-39)%float
        /\ (AdvancedBacktest.cash st <? zero)%num = true
        /\ (zero <? AdvancedBacktest.shares st)%num = true)
  /\ (exists st : AdvancedBacktest.State Q,
        nth_error (AdvancedBacktest.states 5%Q 10%Q barsAt145 holdThenBuy 10000%Q) 2
        = Some st
        /\ (AdvancedBacktest.cash st == 0)%Q)
  /\ Forall (fun s : Backtesting.State float =>
               (zero <=? Backtesting.cash s)%num = true
               /\ (zero <=? Backtesting.shares s)%num = true)
            (Backtesting.states barsAt145 holdThenBuy (ofZ 10000)).
Proof.
  split; [vm_compute; reflexivity|]. split.
  { intros b [<-|[<-|[]]]; vm_compute; reflexivity. }
  split.
  { eexists. split; [vm_compute; reflexivity|].
    split; [vm_compute; reflexivity|]. split; vm_compute; reflexivity. }
  split.
  { eexists. split; [vm_compute; reflexivity|]. vm_compute. reflexivity. }
  repeat constructor; vm_compute; reflexivity.
Qed.

(** Over binary64 the all-or-nothing simulator can leave the cash a rounding
    error below zero after a buy: from 10000 at a close of 145,
    [cash -= (cash / price) * price] leaves a negative cash. *)
Theorem runSimulation_binary64_buy_rounds_below_zero :
  exists st : AdvancedBacktest.State float,
    nth_error (AdvancedBacktest.states (ofZ 0) (ofZ 0) [flatBar 0 (ofZ 145)]
                 [mkSignal "buy_weak" 1] (ofZ 10000)) 1 = Some st
    /\ (AdvancedBacktest.cash st <? zero)%num = true
    /\ (zero <? AdvancedBacktest.shares st)%num = true.
Proof.
  eexists. split; [vm_compute; reflexivity|]. split; vm_compute; reflexivity.
Qed.

(** C3, as stated: on one bar (fewer than 9, 12 or 26) the MACD line and its
    signal line are not all-null, and on three bars (fewer than kWindow = 14)
    %D is not all-null: its entry at index 2 is the mean of three nulls, 0. *)
Lemma short_history_macd_and_percentD_not_null :
  (List.length (risingBars (N:=Q) 1 100) < 9)%nat
  /\ ~ allNull (macd (calculateMACD (risingBars (N:=Q) 1 100) 12 26 9))
  /\ ~ allNull (signal_line (calculateMACD (risingBars (N:=Q) 1 100) 12 26 9))
  /\ (List.length (risingBars (N:=Q) 3 100) < 14)%nat
  /\ ~ allNull (percentD (calculateStochasticOscillator (risingBars (N:=Q) 3 100) 14 3)).
Proof.
  split; [simpl; lia|]. split; [|split; [|split; [simpl; lia|]]].
  - intros H. vm_compute in H. inversion H as [|v l Hv _]; discriminate.
  - intros H. vm_compute in H. inversion H as [|v l Hv _]; discriminate.
  - intros H. vm_compute in H.
    inversion H as [|v0 l0 _ H0]; subst. inversion H0 as [|v1 l1 _ H1]; subst.
    inversion H1 as [|v2 l2 Hv _]; discriminate.
Qed.

(** C4, as stated: a non-empty input whose only close is NaN gets the empty
    forecast under 'simple', not one of length [days]; and a non-empty input
    whose bar has a finite close and a date that is no valid date gets an
    error, not a forecast. *)
Lemma forecast_empty_on_nonempty_input :
  List.length [nanCloseBar] = 1%nat
  /\ predictFuturePrices [nanCloseBar] "sma" "simple" 3 = inr []
  /\ validDay (maxDay + 1) = false
  /\ predictFuturePrices [flatBar (N:=float) (maxDay + 1) (ofZ 100)] "sma" "simple" 3
     = inl (RangeError "Invalid time value").
Proof.
  split; [reflexivity|]. split; [vm_compute; reflexivity|].
  split; vm_compute; reflexivity.
Qed.

(** A bar of volume 0 between two bars of volume 10. *)
Lemma vwap_no_volume_bar_is_null_witness :
  noVolume (getVolume noVolumeBar) = true
  /\ calculateVWAP ([volumeBar] ++ noVolumeBar :: [volumeBar])
     = firstn 1 (calculateVWAP ([volumeBar] ++ [volumeBar]))
         ++ None :: skipn 1 (calculateVWAP ([volumeBar] ++ [volumeBar])).
Proof.
  split; [reflexivity|].
  exact (@vwap_no_volume_bar_is_null Q ExactArith [volumeBar] [volumeBar] noVolumeBar
           eq_refl).
Defined.

(** C7, as stated: after a bar that computed a VWAP (index 0), a bar of
    volume 0 (index 1) gets [null], not the value computed before it. *)
Lemma vwap_no_volume_bar_not_carried :
  exists v : Q,
    nth_error (calculateVWAP volumeThenNone) 0 = Some (Some v)
    /\ (forall b, nth_error volumeThenNone 1 = Some b -> (volume b == 0)%Q)
    /\ nth_error (calculateVWAP volumeThenNone) 1 = Some None
    /\ nth_error (calculateVWAP volumeThenNone) 1 <> Some (Some v).
Proof.
  eexists. split; [vm_compute; reflexivity|]. split; [|split].
  - intros b Hb. vm_compute in Hb. injection Hb as <-. vm_compute. reflexivity.
  - vm_compute. reflexivity.
  - vm_compute. discriminate.
Qed.

(** The indicator name [ema] is none of the five. *)
Lemma backtestStrategy_unknown_indicator_witness :
  backtestStrategy (fun x : Q => x) (risingBars 3 100) "ema"
  = (map (fun _ => hold) (risingBars (N:=Q) 3 100), CtxEmpty)
  /\ List.length (fst (backtestStrategy (fun x : Q => x) (risingBars 3 100) "ema"))
     = List.length (risingBars (N:=Q) 3 100)
  /\ Forall (fun s => s = mkSignal "hold" 0)
            (fst (backtestStrategy (fun x : Q => x) (risingBars 3 100) "ema"))
  /\ snd (backtestStrategy (fun x : Q => x) (risingBars 3 100) "ema") = CtxEmpty.
Proof.
  apply (@backtestStrategy_unknown_indicator Q ExactArith (fun x : Q => x)
           (risingBars 3 100) "ema").
  simpl. intros [H|[H|[H|[H|[H|[]]]]]]; discriminate.
Defined.

(** Fourteen bars with high 2, low 1 and close 1, at index 13. *)
Lemma percentK_range_witness :
  (0 <= 0)%Q /\ (0 <= 100)%Q
  /\ ((rangeHigh (map getHigh (repeat lowCloseBar 14)) 14 13
       == rangeLow (map getLow (repeat lowCloseBar 14)) 14 13)%Q -> (0 == 0)%Q)
  /\ ((0 == 0)%Q <->
      (rangeHigh (map getHigh (repeat lowCloseBar 14)) 14 13
       == rangeLow (map getLow (repeat lowCloseBar 14)) 14 13)%Q
      \/ (closeAt (repeat lowCloseBar 14) 13
          == rangeLow (map getLow (repeat lowCloseBar 14)) 14 13)%Q).
Proof.
  apply (@percentK_range (repeat lowCloseBar 14) 14 3 13 0%Q).
  - lia.
  - intros b Hb. apply repeat_spec in Hb. subst b. split; unfold Qle; simpl; lia.
  - vm_compute. reflexivity.
Defined.

(** *** The starting capital of a request *)

(** C9: the [/insights] handler has no capital check.  For a request with
    a symbol, a fetched history that is not empty and any [initialCapital]
    string that is not empty, the answer is decided by the forecast alone:
    500 with its message when predictFuturePrices throws, and else 200 with
    a payload whose simulation is runTradingSimulation run from
    [Number(initialCapital)], whatever its sign.  In particular the answer
    is 200 whenever the date of the last bar and the last day of the
    forecast are dates a [Date] can hold. *)
Theorem insights_runs_with_any_capital {N : Type} {A : Arith N} (sqrt : N -> N)
  (Number : string -> N) (loopBound : N -> Z)
  (generateMockHistory : string -> list (PriceBar N))
  (history : list (PriceBar N)) (symbol capital : string)
  (indicator forecastModel forecastHorizon : option string) :
  symbol <> ""%string -> capital <> ""%string -> history <> [] ->
  (forall e,
     Insights.prediction loopBound history
       (Insights.options Number
          (Insights.mkQuery (Some symbol) indicator forecastModel forecastHorizon
             (Some capital)))
     = inl e ->
     Insights.insights sqrt Number loopBound generateMockHistory (Some history)
       (Insights.mkQuery (Some symbol) indicator forecastModel forecastHorizon
          (Some capital))
     = Insights.Status500 (Insights.Message (message e)))
  /\ (forall prediction,
        Insights.prediction loopBound history
          (Insights.options Number
             (Insights.mkQuery (Some symbol) indicator forecastModel forecastHorizon
                (Some capital)))
        = inr prediction ->
        exists payload : Insights.Payload N,
          Insights.insights sqrt Number loopBound generateMockHistory (Some history)
            (Insights.mkQuery (Some symbol) indicator forecastModel forecastHorizon
               (Some capital))
          = Insights.Json payload
          /\ Insights.summaryInitialCapital payload = Number capital
          /\ Insights.simulation payload
             = Backtesting.runTradingSimulation history (Insights.signals payload)
                 (Number capital)
          /\ Insights.forecast payload = prediction)
  /\ (forall lastBar,
        nth_error history (List.length history - 1) = Some lastBar ->
        validDay (date lastBar) = true ->
        validDay (date lastBar
                  + Insights.forecastDays loopBound
                      (Insights.options Number
                         (Insights.mkQuery (Some symbol) indicator forecastModel
                            forecastHorizon (Some capital)))) = true ->
        exists payload : Insights.Payload N,
          Insights.insights sqrt Number loopBound generateMockHistory (Some history)
            (Insights.mkQuery (Some symbol) indicator forecastModel forecastHorizon
               (Some capital))
          = Insights.Json payload
          /\ Insights.summaryInitialCapital payload = Number capital
          /\ Insights.simulation payload
             = Backtesting.runTradingSimulation history (Insights.signals payload)
                 (Number capital)).
Proof.
  intros Hsym Hcap Hhist.
  unfold Insights.insights. cbn [Insights.symbol].
  assert (Hg : Insights.given (Some symbol) = true).
  { unfold Insights.given. destruct (String.eqb_spec symbol ""); [contradiction|].
    reflexivity. }
  rewrite Hg. cbn [negb]. unfold Insights.computeSignals.
  destruct history as [|p history]; [contradiction|].
  cbn [List.length Nat.eqb].
  set (opts := Insights.options Number _).
  assert (Ecap : Insights.o_initialCapital opts = Some (Number capital)).
  { subst opts. unfold Insights.options, Insights.given.
    cbn [Insights.o_initialCapital Insights.initialCapital].
    destruct (String.eqb_spec capital ""); [contradiction|]. reflexivity. }
  rewrite Ecap. clearbody opts.
  split; [|split].
  - intros e He. rewrite He. reflexivity.
  - intros prediction Hp. rewrite Hp. eexists. split; [reflexivity|].
    split; [reflexivity|]. split; reflexivity.
  - intros lastBar Hlast Hd Hend.
    destruct (@predictFuturePrices_returns N A (p :: history)
                (match Insights.o_indicator opts with
                 | Some i => i
                 | None => "sma"%string
                 end)
                (match Insights.o_forecastModel opts with
                 | Some m => m
                 | None => "simple"%string
                 end)
                (Insights.forecastDays loopBound opts) lastBar Hlast
                (or_intror (conj Hd Hend))) as [prediction Hp].
    unfold Insights.prediction. cbv zeta. rewrite Hp.
    eexists. split; [reflexivity|]. split; reflexivity.
Qed.

(** The request [GET /insights?symbol=AAPL&initialCapital=-5] on a fetched
    history of three bars: the default forecast of 60 days returns, and the
    answer is 200. *)
Lemma insights_runs_with_any_capital_witness :
  (numberOf "-5" < 0)%Q
  /\ exists prediction : list (ForecastPoint Q),
       Insights.prediction Qfloor (risingBars 3 100)
         (Insights.options numberOf negativeCapitalQuery)
       = inr prediction
       /\ List.length prediction = 60%nat
       /\ exists payload : Insights.Payload Q,
            Insights.insights (fun x : Q => x) numberOf Qfloor (fun _ => [])
              (Some (risingBars 3 100)) negativeCapitalQuery
            = Insights.Json payload
            /\ Insights.summaryInitialCapital payload = numberOf "-5"
            /\ Insights.simulation payload
               = Backtesting.runTradingSimulation (risingBars 3 100)
                   (Insights.signals payload) (numberOf "-5")
            /\ Insights.forecast payload = prediction.
Proof.
  split; [unfold Qlt; simpl; lia|].
  eexists. split; [vm_compute; reflexivity|]. split; [reflexivity|].
  apply (proj1 (proj2 (@insights_runs_with_any_capital Q ExactArith (fun x : Q => x)
                         numberOf Qfloor (fun _ => []) (risingBars 3 100) "AAPL" "-5"
                         None None None
                         ltac:(discriminate) ltac:(discriminate) ltac:(discriminate)))).
  vm_compute. reflexivity.
Defined.

(** ** Further properties of the engine *)

Lemma slice_map (X Y : Type) (f : X -> Y) (l : list X) (start stop : nat) :
  slice (map f l) start stop = map f (slice l start stop).
Proof. unfold slice. now rewrite skipn_map, firstn_map. Qed.

Lemma exact_getClose (points : list (PriceBar Q)) :
  map getClose points = map (fun b => Some (close b)) points.
Proof. reflexivity. Qed.

Lemma exact_sum_closes (sl : list (PriceBar Q)) (acc : Q) :
  (fold_left (fun a v => (a + nz v)%num) (map (fun b => Some (close b)) sl) acc
   == acc + fold_right Qplus 0 (map close sl))%Q.
Proof.
  revert acc; induction sl as [|b sl IH]; intros acc; simpl.
  - ring.
  - rewrite IH. cbn [nadd ExactArith]. ring.
Qed.

(** The SMA at an index with enough history is the arithmetic mean of the
    closes of the trailing window (exact arithmetic). *)
Theorem calculateSMA_is_trailing_mean (points : list (PriceBar Q)) (window i : nat) :
  (1 <= window)%nat -> (window <= i + 1)%nat -> (i < List.length points)%nat ->
  exists v : Q,
    nth_error (calculateSMA points window) i = Some (Some v)
    /\ (v == mean (map close (slice points (i + 1 - window) (i + 1))))%Q.
Proof.
  intros _ Hw Hi. unfold calculateSMA, rolling. rewrite mapi_nth_error.
  destruct (nth_error (map getClose points) i) as [x|] eqn:Hx.
  2:{ apply nth_error_None in Hx. rewrite length_map in Hx. lia. }
  cbn [option_map]. destruct (Nat.ltb_spec (i + 1) window); [lia|].
  eexists. split; [reflexivity|].
  rewrite exact_getClose, slice_map. unfold mean_reducer, mean.
  rewrite exact_sum_closes, !length_map. rewrite exact_zero.
  cbn [ndiv ofnat ofZ ExactArith].
  apply Qdiv_comp; [ring | reflexivity].
Qed.

(** Index 24 of the 25 rising bars, window 20. *)
Lemma calculateSMA_is_trailing_mean_witness :
  exists v : Q,
    nth_error (calculateSMA (risingBars 25 100) 20) 24 = Some (Some v)
    /\ (v == mean (map close (slice (risingBars 25 100) (24 + 1 - 20) (24 + 1))))%Q.
Proof.
  apply (@calculateSMA_is_trailing_mean (risingBars 25 100) 20 24); simpl; lia.
Defined.

Section SeriesLengths.

Context {N : Type} {A : Arith N}.

Lemma trading_replay_length (signals : list Signal) (initialCapital : N)
  (points : list (PriceBar N)) (st : Backtesting.State N) (index : nat) :
  List.length (Backtesting.replay signals initialCapital st index points)
  = List.length points.
Proof.
  revert st index; induction points as [|row points IH]; intros st index;
    cbn [Backtesting.replay]; [reflexivity|].
  destruct (index =? 0)%nat; cbn [List.length]; now rewrite IH.
Qed.

Lemma lab_step_equity (stopLossPct takeProfitPct : N) (signals : list Signal)
  (st : AdvancedBacktest.State N) (idx : nat) (row : PriceBar N) :
  List.length (AdvancedBacktest.equity
                 (AdvancedBacktest.step stopLossPct takeProfitPct signals st idx row))
  = S (List.length (AdvancedBacktest.equity st)).
Proof.
  unfold AdvancedBacktest.step. cbn [AdvancedBacktest.equity].
  rewrite length_app. cbn [List.length].
  assert (E : AdvancedBacktest.equity
                (AdvancedBacktest.act signals
                   (AdvancedBacktest.protect stopLossPct takeProfitPct st row) idx row)
              = AdvancedBacktest.equity st).
  { unfold AdvancedBacktest.act, AdvancedBacktest.protect.
    repeat match goal with
           | |- context [if ?c then _ else _] => destruct c
           end; reflexivity. }
  rewrite E. lia.
Qed.

Lemma last_nonempty (X : Type) (x d d' : X) (l : list X) :
  last (x :: l) d = last (x :: l) d'.
Proof.
  revert x; induction l as [|y l IH]; intros x; [reflexivity|].
  change (last (y :: l) d = last (y :: l) d'). apply IH.
Qed.

Lemma lab_replay_last_equity (stopLossPct takeProfitPct : N) (signals : list Signal)
  (points : list (PriceBar N)) (st : AdvancedBacktest.State N) (idx : nat) :
  List.length (AdvancedBacktest.equity
                 (last (st :: AdvancedBacktest.replay stopLossPct takeProfitPct
                                signals st idx points) st))
  = (List.length (AdvancedBacktest.equity st) + List.length points)%nat.
Proof.
  revert st idx; induction points as [|row points IH]; intros st idx.
  - cbn. lia.
  - cbn [AdvancedBacktest.replay].
    set (st' := AdvancedBacktest.step stopLossPct takeProfitPct signals st idx row).
    transitivity (List.length (AdvancedBacktest.equity
                    (last (st' :: AdvancedBacktest.replay stopLossPct takeProfitPct
                                    signals st' (S idx) points) st'))).
    + f_equal. f_equal. cbn [last]. apply last_nonempty.
    + rewrite IH. subst st'. rewrite lab_step_equity. cbn [List.length]. lia.
Qed.

(** Both simulators return one equity point per bar. *)
Theorem equity_series_length (points : list (PriceBar N)) (signals : list Signal)
  (initialCapital stopLossPct takeProfitPct : N) :
  List.length (Backtesting.runTradingSimulation points signals initialCapital)
  = List.length points
  /\ List.length (fst (AdvancedBacktest.runSimulation stopLossPct takeProfitPct
                         points signals initialCapital))
     = List.length points.
Proof.
  split.
  - unfold Backtesting.runTradingSimulation.
    now rewrite length_map, trading_replay_length.
  - unfold AdvancedBacktest.runSimulation, AdvancedBacktest.states. cbn [fst].
    rewrite last_last.
    assert (E : forall st, AdvancedBacktest.equity (AdvancedBacktest.liquidate points st)
                           = AdvancedBacktest.equity st).
    { intros st. unfold AdvancedBacktest.liquidate.
      repeat match goal with
             | |- context [if ?c then _ else _] => destruct c
             | |- context [match ?l with [] => _ | _ :: _ => _ end] => destruct l
             end; reflexivity. }
    rewrite E, lab_replay_last_equity. reflexivity.
Qed.

End SeriesLengths.


(** ** The exponential average *)

Section Smoothing.

Context {N : Type} {A : Arith N}.

Lemma ema_loop_repeats multiplier (values : list (nullable N)) previous (i : nat) :
  nth_error values (S i) = Some None ->
  nth_error (ema_loop multiplier previous values) (S i)
  = nth_error (ema_loop multiplier previous values) i.
Proof.
  revert previous i; induction values as [|v values IH]; intros previous i H;
    [discriminate|].
  destruct i as [|i].
  - destruct values as [|w values]; [discriminate|].
    cbn in H. injection H as ->. destruct v as [x|]; reflexivity.
  - cbn [nth_error] in H.
    destruct v as [x|]; cbn [ema_loop nth_error]; now apply IH.
Qed.

Lemma ema_loop_unseeded multiplier (values : list (nullable N)) (i : nat) :
  nth_error (ema_loop multiplier None values) i = Some None
  <-> (i < List.length values)%nat
      /\ forall j, (j <= i)%nat -> nth_error values j = Some None.
Proof.
  revert i; induction values as [|v values IH]; intros i.
  - destruct i; cbn; (split; [discriminate | intros [H _]; lia]).
  - destruct v as [x|].
    + split.
      * intros H. exfalso.
        pose proof (ema_loop_seeded multiplier x (Some x :: values)) as Hs.
        cbn [ema_loop] in H.
        destruct i as [|i]; [discriminate|]. cbn [nth_error] in H.
        apply nth_error_In in H.
        pose proof (ema_loop_seeded multiplier x values) as Hs'.
        unfold noNull in Hs'. rewrite Forall_forall in Hs'. now apply Hs' in H.
      * intros [_ H]. specialize (H 0%nat (Nat.le_0_l i)). discriminate.
    + cbn [ema_loop]. destruct i as [|i].
      * cbn. split; [intros _; split; [lia|] | reflexivity].
        intros j Hj. now replace j with 0%nat by lia.
      * cbn [nth_error List.length]. rewrite IH. split.
        -- intros [Hi Hall]. split; [lia|]. intros [|j] Hj; [reflexivity|].
           cbn. apply Hall. lia.
        -- intros [Hi Hall]. split; [lia|]. intros j Hj.
           apply (Hall (S j)). lia.
Qed.

(** ema carries its last value over a null input, and is null only before
    the first input that is not null. *)
Theorem ema_carries_forward (values : list (nullable N)) (period : Z) (i : nat) :
  (nth_error values (S i) = Some None ->
   nth_error (ema values period) (S i) = nth_error (ema values period) i)
  /\ (nth_error (ema values period) i = Some None
      <-> (i < List.length values)%nat
          /\ forall j, (j <= i)%nat -> nth_error values j = Some None).
Proof.
  split; [apply ema_loop_repeats | apply ema_loop_unseeded].
Qed.

End Smoothing.

Lemma exact_ema_loop_between (a b multiplier : Q) (values : list (nullable Q))
  (previous : nullable Q) :
  (0 <= multiplier)%Q -> (multiplier <= 1)%Q ->
  (forall v, In (Some v) values -> (a <= v)%Q /\ (v <= b)%Q) ->
  (forall p, previous = Some p -> (a <= p)%Q /\ (p <= b)%Q) ->
  forall v, In (Some v) (ema_loop multiplier previous values) ->
            (a <= v)%Q /\ (v <= b)%Q.
Proof.
  intros Hm0 Hm1. revert previous; induction values as [|x values IH];
    intros previous Hin Hprev v Hv; [contradiction|].
  assert (Hrest : forall v, In (Some v) values -> (a <= v)%Q /\ (v <= b)%Q)
    by (intros w Hw; apply Hin; now right).
  destruct x as [x|]; cbn [ema_loop] in Hv.
  - assert (Hx : (a <= x)%Q /\ (x <= b)%Q) by (apply Hin; now left).
    set (next := match previous with
                 | Some p => ((x - p) * multiplier + p)%num
                 | None => x
                 end) in *.
    assert (Hnext : (a <= next)%Q /\ (next <= b)%Q).
    { subst next. destruct previous as [p|]; [|exact Hx].
      destruct (Hprev p eq_refl) as [Hp0 Hp1]. destruct Hx as [Hx0 Hx1].
      cbn [nadd nsub nmul ExactArith]. split; nra. }
    destruct Hv as [Hv|Hv].
    + injection Hv as <-. exact Hnext.
    + apply (IH (Some next)); [exact Hrest | | exact Hv].
      intros p Hp. injection Hp as <-. exact Hnext.
  - destruct Hv as [Hv|Hv].
    + now apply Hprev.
    + now apply (IH previous).
Qed.

Lemma exact_multiplier_range (period : Z) :
  (1 <= period)%Z ->
  (0 <= ofZ 2 / (ofZ period + ofZ 1))%num%Q /\ (ofZ 2 / (ofZ period + ofZ 1) <= 1)%num%Q.
Proof.
  intros Hp. cbn [ofZ nadd ndiv ExactArith].
  assert (Hd : (2 <= inject_Z period + inject_Z 1)%Q).
  { rewrite <- inject_Z_plus. change 2%Q with (inject_Z 2). rewrite <- Zle_Qle. lia. }
  change (inject_Z 2) with 2%Q. split.
  - apply Qle_shift_div_l; lra.
  - apply Qle_shift_div_r; lra.
Qed.

(** Over exact arithmetic and for a period of at least 1, ema stays within
    the bounds of its inputs: an exponential average of values in [a, b] is
    in [a, b]. *)
Theorem ema_between (a b : Q) (values : list (nullable Q)) (period : Z) :
  (1 <= period)%Z ->
  (forall v, In (Some v) values -> (a <= v)%Q /\ (v <= b)%Q) ->
  forall v, In (Some v) (ema values period) -> (a <= v)%Q /\ (v <= b)%Q.
Proof.
  intros Hp Hin v Hv. destruct (exact_multiplier_range Hp) as [H0 H1].
  apply (@exact_ema_loop_between a b _ values None H0 H1 Hin); [discriminate | exact Hv].
Qed.

Lemma exact_ema_loop_at_least (a multiplier : Q) (values : list (nullable Q))
  (previous : nullable Q) :
  (0 <= multiplier)%Q -> (multiplier <= 1)%Q ->
  (forall v, In (Some v) values -> (a <= v)%Q) ->
  (forall p, previous = Some p -> (a <= p)%Q) ->
  forall v, In (Some v) (ema_loop multiplier previous values) -> (a <= v)%Q.
Proof.
  intros Hm0 Hm1. revert previous; induction values as [|x values IH];
    intros previous Hin Hprev v Hv; [contradiction|].
  assert (Hrest : forall v, In (Some v) values -> (a <= v)%Q)
    by (intros w Hw; apply Hin; now right).
  destruct x as [x|]; cbn [ema_loop] in Hv.
  - assert (Hx : (a <= x)%Q) by (apply Hin; now left).
    set (next := match previous with
                 | Some p => ((x - p) * multiplier + p)%num
                 | None => x
                 end) in *.
    assert (Hnext : (a <= next)%Q).
    { subst next. destruct previous as [p|]; [|exact Hx].
      pose proof (Hprev p eq_refl) as Hp0.
      cbn [nadd nsub nmul ExactArith]. nra. }
    destruct Hv as [Hv|Hv].
    + injection Hv as <-. exact Hnext.
    + apply (IH (Some next)); [exact Hrest | | exact Hv].
      intros p Hp. injection Hp as <-. exact Hnext.
  - destruct Hv as [Hv|Hv].
    + now apply Hprev.
    + now apply (IH previous).
Qed.

Lemma exact_ema_at_least (a : Q) (values : list (nullable Q)) (period : Z) :
  (1 <= period)%Z ->
  (forall v, In (Some v) values -> (a <= v)%Q) ->
  forall v, In (Some v) (ema values period) -> (a <= v)%Q.
Proof.
  intros Hp Hin v Hv. destruct (exact_multiplier_range Hp) as [H0 H1].
  apply (@exact_ema_loop_at_least a _ values None H0 H1 Hin); [discriminate | exact Hv].
Qed.

(** ** The RSI *)

Lemma exact_ofnat_positive (n : nat) : (1 <= n)%nat -> (1 <= ofnat (N:=Q) n)%Q.
Proof.
  intros H. unfold ofnat. cbn [ofZ ExactArith]. change 1%Q with (inject_Z 1).
  rewrite <- Zle_Qle. lia.
Qed.

Lemma exact_rsi_value_range (gainAvg lossAvg : Q) :
  (0 <= gainAvg)%Q -> (0 <= lossAvg)%Q ->
  (0 <= rsi_value gainAvg lossAvg)%Q /\ (rsi_value gainAvg lossAvg < 100)%Q.
Proof.
  intros Hg Hl. unfold rsi_value.
  set (rs := if (lossAvg =? zero)%num then ofZ 100 else (gainAvg / lossAvg)%num).
  assert (Hrs : (0 <= rs)%Q).
  { subst rs. destruct (lossAvg =? zero)%num eqn:E.
    - cbn. unfold Qle; simpl; lia.
    - apply exact_eqb_false in E. rewrite exact_zero in E.
      cbn [ndiv ExactArith]. apply Qle_shift_div_l; [|lra].
      destruct (Qlt_le_dec 0 lossAvg) as [Hlt|Hge]; [exact Hlt|].
      exfalso. apply E. now apply Qle_antisym. }
  clearbody rs. cbn [ofZ nadd nsub ndiv ExactArith].
  change (inject_Z 100) with 100%Q. change (inject_Z 1) with 1%Q.
  assert (Hinv : (0 < / (1 + rs))%Q) by (apply Qinv_lt_0_compat; lra).
  assert (Hone : ((1 + rs) * / (1 + rs) == 1)%Q) by (apply Qmult_inv_r; lra).
  unfold Qdiv. set (inv := (/ (1 + rs))%Q) in *. clearbody inv.
  split; nra.
Qed.

Lemma exact_rsi_loop_range (window : nat) (closes : list (nullable Q)) (i : nat)
  (prev : nullable Q) (gainAvg lossAvg : Q) :
  (1 <= window)%nat -> (0 <= gainAvg)%Q -> (0 <= lossAvg)%Q ->
  forall v, In (Some v) (rsi_loop window i prev closes gainAvg lossAvg) ->
            (0 <= v)%Q /\ (v < 100)%Q.
Proof.
  intros Hw. revert i prev gainAvg lossAvg.
  induction closes as [|cur closes IH]; intros i prev gainAvg lossAvg Hg Hl v Hv;
    [contradiction|].
  cbn [rsi_loop] in Hv.
  set (change := (nz cur - nz prev)%num) in *.
  set (gain := if (zero <? change)%num then change else zero) in *.
  set (loss := if (change <? zero)%num then (- change)%num else zero) in *.
  assert (Hgain : (0 <= gain)%Q).
  { subst gain. destruct (zero <? change)%num eqn:E.
    - apply exact_ltb in E. rewrite exact_zero in E. lra.
    - rewrite exact_zero. apply Qle_refl. }
  assert (Hloss : (0 <= loss)%Q).
  { subst loss. destruct (change <? zero)%num eqn:E.
    - apply exact_ltb in E. rewrite exact_zero in E. cbn [nopp ExactArith]. lra.
    - rewrite exact_zero. apply Qle_refl. }
  pose proof (exact_ofnat_positive Hw) as Hn.
  assert (Hinv : (0 < / ofnat window)%Q) by (apply Qinv_lt_0_compat; lra).
  clearbody gain loss.
  destruct (i <=? window)%nat.
  - destruct (i =? window)%nat.
    + assert (Hg' : (0 <= (gainAvg + gain) / ofnat window)%num%Q).
      { cbn [nadd ndiv ExactArith]. unfold Qdiv.
        apply Qmult_le_0_compat; lra. }
      assert (Hl' : (0 <= (lossAvg + loss) / ofnat window)%num%Q).
      { cbn [nadd ndiv ExactArith]. unfold Qdiv.
        apply Qmult_le_0_compat; lra. }
      destruct Hv as [Hv|Hv].
      * injection Hv as <-. now apply exact_rsi_value_range.
      * exact (IH _ _ _ _ Hg' Hl' v Hv).
    + destruct Hv as [Hv|Hv]; [discriminate|].
      apply (IH _ _ _ _) with (v := v) (3 := Hv); cbn [nadd ExactArith]; lra.
  - assert (Hw1 : (0 <= ofnat window - ofZ 1)%num%Q).
    { cbn [nsub ofZ ExactArith]. change (inject_Z 1) with 1%Q. lra. }
    assert (Hg' : (0 <= (gainAvg * (ofnat window - ofZ 1) + gain) / ofnat window)%num%Q).
    { cbn [nadd nsub nmul ndiv ofZ ExactArith]. unfold Qdiv.
      apply Qmult_le_0_compat; [|lra].
      cbn [nsub ofZ ExactArith] in Hw1.
      assert (0 <= gainAvg * (ofnat window - inject_Z 1))%Q
        by now apply Qmult_le_0_compat.
      lra. }
    assert (Hl' : (0 <= (lossAvg * (ofnat window - ofZ 1) + loss) / ofnat window)%num%Q).
    { cbn [nadd nsub nmul ndiv ofZ ExactArith]. unfold Qdiv.
      apply Qmult_le_0_compat; [|lra].
      cbn [nsub ofZ ExactArith] in Hw1.
      assert (0 <= lossAvg * (ofnat window - inject_Z 1))%Q
        by now apply Qmult_le_0_compat.
      lra. }
    destruct Hv as [Hv|Hv].
    + injection Hv as <-. now apply exact_rsi_value_range.
    + exact (IH _ _ _ _ Hg' Hl' v Hv).
Qed.

(** Over exact arithmetic and for a window of at least 1, every RSI value
    calculateRSI computes is at least 0 and strictly below 100: the value 100
    itself is never reached. *)
Theorem calculateRSI_range (points : list (PriceBar Q)) (window : nat) (v : Q) :
  (1 <= window)%nat ->
  In (Some v) (calculateRSI points window) ->
  (0 <= v)%Q /\ (v < 100)%Q.
Proof.
  intros Hw Hv. unfold calculateRSI in Hv.
  destruct (map getClose points) as [|first rest]; [contradiction|].
  destruct Hv as [Hv|Hv]; [discriminate|].
  apply (@exact_rsi_loop_range window rest 1 first zero zero Hw) with (v := v);
    [rewrite exact_zero; apply Qle_refl | rewrite exact_zero; apply Qle_refl | exact Hv].
Qed.

(** ** The directional index *)

Section DirectionalShape.

Context {N : Type} {A : Arith N}.

Lemma movesFrom_length (points : list (PriceBar N)) :
  List.length (movesFrom points) = List.length points.
Proof. apply mapi_length. Qed.

Lemma movesFrom_head (p : PriceBar N) (rest : list (PriceBar N)) :
  nth_error (movesFrom (p :: rest)) 0 = Some None.
Proof. reflexivity. Qed.

(** The three series of calculateADX have the length of the input, and their
    first entry is null: bar 0 has no previous bar. *)
Theorem calculateADX_shape (points : list (PriceBar N)) (period : Z) :
  List.length (adx (calculateADX points period)) = List.length points
  /\ List.length (plusDI (calculateADX points period)) = List.length points
  /\ List.length (minusDI (calculateADX points period)) = List.length points
  /\ (points <> [] ->
      nth_error (adx (calculateADX points period)) 0 = Some None
      /\ nth_error (plusDI (calculateADX points period)) 0 = Some None
      /\ nth_error (minusDI (calculateADX points period)) 0 = Some None).
Proof.
  unfold calculateADX; cbn [adx plusDI minusDI].
  repeat split.
  - rewrite ema_length, length_map, mapi_length, ema_length. unfold trList.
    now rewrite length_map, movesFrom_length.
  - rewrite length_map, mapi_length, ema_length. unfold trList.
    now rewrite length_map, movesFrom_length.
  - rewrite length_map, mapi_length, ema_length. unfold trList.
    now rewrite length_map, movesFrom_length.
  - destruct points as [|p rest]; [congruence|]. reflexivity.
  - destruct points as [|p rest]; [congruence|]. reflexivity.
  - destruct points as [|p rest]; [congruence|]. reflexivity.
Qed.

End DirectionalShape.

Lemma exact_Math_abs_nonneg (x : Q) : (0 <= Math_abs x)%Q.
Proof.
  unfold Math_abs. destruct (x <? zero)%num eqn:E.
  - apply exact_ltb in E. rewrite exact_zero in E. cbn [nopp ExactArith]. lra.
  - apply exact_ltb_false in E. now rewrite exact_zero in E.
Qed.

Lemma exact_Math_abs_le (x y : Q) : (0 <= x)%Q -> (0 <= y)%Q -> (Math_abs (x - y)%num <= x + y)%Q.
Proof.
  intros Hx Hy. unfold Math_abs. cbn [nsub nopp ExactArith].
  destruct (_ <? _)%num; lra.
Qed.

Lemma exact_directionalMove_nonneg (prev cur : PriceBar Q) :
  (0 <= fst (fst (directionalMove prev cur)))%Q
  /\ (0 <= snd (fst (directionalMove prev cur)))%Q
  /\ (0 <= snd (directionalMove prev cur))%Q.
Proof.
  unfold directionalMove. cbn [fst snd]. split; [|split].
  - destruct (_ && _) eqn:E; [|rewrite exact_zero; apply Qle_refl].
    apply andb_true_iff in E. destruct E as [_ E]. apply exact_ltb in E.
    rewrite exact_zero in E. now apply Qlt_le_weak.
  - destruct (_ && _) eqn:E; [|rewrite exact_zero; apply Qle_refl].
    apply andb_true_iff in E. destruct E as [_ E]. apply exact_ltb in E.
    rewrite exact_zero in E. now apply Qlt_le_weak.
  - eapply Qle_trans; [apply exact_Math_abs_nonneg|].
    apply Math_max_ge. right. left. reflexivity.
Qed.

Lemma exact_moves_nonneg (points : list (PriceBar Q)) :
  Forall (fun m => match m with
                   | Some (p, q, t) => (0 <= p)%Q /\ (0 <= q)%Q /\ (0 <= t)%Q
                   | None => True
                   end)
         (movesFrom points).
Proof.
  apply mapi_from_Forall. intros k x Hk. cbn [Nat.add].
  destruct (k =? 0)%nat; [exact I|].
  pose proof (exact_directionalMove_nonneg (nth (k - 1) points x) x) as H.
  destruct (directionalMove (nth (k - 1) points x) x) as [[p q] t]. exact H.
Qed.

Lemma exact_projection_nonneg (points : list (PriceBar Q)) (f : Q * Q * Q -> Q) :
  (forall p q t, (0 <= p)%Q /\ (0 <= q)%Q /\ (0 <= t)%Q -> (0 <= f (p, q, t))%Q) ->
  forall v, In (Some v) (map (option_map f) (movesFrom points)) -> (0 <= v)%Q.
Proof.
  intros Hf v Hv. apply in_map_iff in Hv. destruct Hv as [m [Hm Hin]].
  pose proof (exact_moves_nonneg points) as Hall. rewrite Forall_forall in Hall.
  specialize (Hall m Hin). destruct m as [[[p q] t]|]; [|discriminate].
  injection Hm as <-. now apply Hf.
Qed.

Lemma exact_nz_at_nonneg (series : list (nullable Q)) (i : nat) :
  (forall v, In (Some v) series -> (0 <= v)%Q) -> (0 <= nz (at_ series i))%Q.
Proof.
  intros H. unfold at_.
  destruct (Nat.lt_ge_cases i (List.length series)) as [Hi|Hi].
  - pose proof (nth_In series None Hi) as Hin.
    destruct (nth i series None) as [v|]; [now apply H | apply Qle_refl].
  - rewrite nth_overflow by exact Hi. apply Qle_refl.
Qed.

Lemma exact_directionalIndex_range (tr sp sm : nullable Q) (p m d : Q) :
  (forall t, tr = Some t -> (0 <= t)%Q) -> (0 <= nz sp)%Q -> (0 <= nz sm)%Q ->
  directionalIndex tr sp sm = Some (p, m, d) ->
  (0 <= p)%Q /\ (0 <= m)%Q /\ (0 <= d)%Q /\ (d <= 100)%Q.
Proof.
  intros Htr Hsp Hsm. unfold directionalIndex.
  destruct tr as [t|]; [|discriminate].
  destruct (truthy t) eqn:Ht; cbn [negb]; [|discriminate].
  unfold truthy in Ht. apply andb_true_iff in Ht. destruct Ht as [Ht _].
  apply negb_true_iff, exact_eqb_false in Ht. rewrite exact_zero in Ht.
  assert (Hpos : (0 < t)%Q).
  { pose proof (Htr t eq_refl) as H0.
    destruct (Qlt_le_dec 0 t) as [Hlt|Hge]; [exact Hlt|].
    exfalso. apply Ht. now apply Qle_antisym. }
  assert (Hinv : (0 < / t)%Q) by now apply Qinv_lt_0_compat.
  set (pDI := ((nz sp / t) * ofZ 100)%num).
  set (mDI := ((nz sm / t) * ofZ 100)%num).
  assert (HpDI : (0 <= pDI)%Q).
  { subst pDI. cbn [ndiv nmul ofZ ExactArith]. change (inject_Z 100) with 100%Q.
    unfold Qdiv. assert (0 <= nz sp * / t)%Q by (apply Qmult_le_0_compat; lra). lra. }
  assert (HmDI : (0 <= mDI)%Q).
  { subst mDI. cbn [ndiv nmul ofZ ExactArith]. change (inject_Z 100) with 100%Q.
    unfold Qdiv. assert (0 <= nz sm * / t)%Q by (apply Qmult_le_0_compat; lra). lra. }
  clearbody pDI mDI. intros H. injection H as <- <- <-.
  split; [exact HpDI|]. split; [exact HmDI|].
  pose proof (exact_Math_abs_nonneg (pDI - mDI)%num) as Habs0.
  pose proof (exact_Math_abs_le HpDI HmDI) as Habs1.
  cbn [nsub ExactArith] in Habs0, Habs1.
  cbn [ndiv nmul nadd nsub ofZ ExactArith]. change (inject_Z 100) with 100%Q.
  change (inject_Z 1) with 1%Q.
  set (a := Math_abs (pDI - mDI)%Q) in *. clearbody a.
  destruct (truthy (pDI + mDI)%Q) eqn:Hsum.
  - unfold truthy in Hsum. apply andb_true_iff in Hsum. destruct Hsum as [Hsum _].
    apply negb_true_iff, exact_eqb_false in Hsum. rewrite exact_zero in Hsum.
    assert (Hs : (0 < pDI + mDI)%Q).
    { destruct (Qlt_le_dec 0 (pDI + mDI)) as [Hlt|Hge]; [exact Hlt|].
      exfalso. apply Hsum. apply Qle_antisym; lra. }
    assert (Hi : (0 < / (pDI + mDI))%Q) by now apply Qinv_lt_0_compat.
    assert (Ho : ((pDI + mDI) * / (pDI + mDI) == 1)%Q) by (apply Qmult_inv_r; lra).
    unfold Qdiv. set (inv := (/ (pDI + mDI))%Q) in *. clearbody inv.
    split; nra.
  - assert (Hz : (pDI + mDI == 0)%Q).
    { unfold truthy in Hsum. apply andb_false_iff in Hsum.
      destruct Hsum as [Hsum|Hsum].
      - apply negb_false_iff, exact_eqb in Hsum. now rewrite exact_zero in Hsum.
      - apply exact_eqb_false in Hsum. exfalso. apply Hsum. apply Qeq_refl. }
    unfold Qdiv. change (/ 1)%Q with 1%Q. split; lra.
Qed.

(** Over exact arithmetic and for a period of at least 1, the directional
    indicators +DI and -DI are never negative and every ADX value lies in
    [0, 100]. *)
Theorem calculateADX_ranges (points : list (PriceBar Q)) (period : Z) :
  (1 <= period)%Z ->
  (forall v, In (Some v) (plusDI (calculateADX points period)) -> (0 <= v)%Q)
  /\ (forall v, In (Some v) (minusDI (calculateADX points period)) -> (0 <= v)%Q)
  /\ (forall v, In (Some v) (adx (calculateADX points period)) ->
                (0 <= v)%Q /\ (v <= 100)%Q).
Proof.
  intros Hp. unfold calculateADX; cbn [adx plusDI minusDI].
  set (smoothedTR := ema (trList points) period).
  set (smoothedPlusDM := ema (plusDMList points) period).
  set (smoothedMinusDM := ema (minusDMList points) period).
  assert (Htr : forall v, In (Some v) smoothedTR -> (0 <= v)%Q).
  { apply exact_ema_at_least; [exact Hp|]. unfold trList.
    apply exact_projection_nonneg. intros p q t H; cbn; tauto. }
  assert (Hpl : forall v, In (Some v) smoothedPlusDM -> (0 <= v)%Q).
  { apply exact_ema_at_least; [exact Hp|]. unfold plusDMList.
    apply exact_projection_nonneg. intros p q t H; cbn; tauto. }
  assert (Hmi : forall v, In (Some v) smoothedMinusDM -> (0 <= v)%Q).
  { apply exact_ema_at_least; [exact Hp|]. unfold minusDMList.
    apply exact_projection_nonneg. intros p q t H; cbn; tauto. }
  set (rows := mapi _ smoothedTR).
  assert (Hrows : Forall (fun r => match r with
                                   | Some (p, m, d) =>
                                       (0 <= p)%Q /\ (0 <= m)%Q /\ (0 <= d)%Q /\ (d <= 100)%Q
                                   | None => True
                                   end) rows).
  { subst rows. apply mapi_from_Forall. intros k tr Hk. cbn [Nat.add].
    destruct (directionalIndex tr (at_ smoothedPlusDM k) (at_ smoothedMinusDM k))
      as [[[p m] d]|] eqn:E; [|exact I].
    apply (@exact_directionalIndex_range tr (at_ smoothedPlusDM k) (at_ smoothedMinusDM k));
      [ | now apply exact_nz_at_nonneg | now apply exact_nz_at_nonneg | exact E].
    intros t ->. apply Htr. now apply nth_error_In in Hk. }
  clearbody rows. rewrite Forall_forall in Hrows.
  assert (Hproj : forall (f : Q * Q * Q -> Q) v,
             In (Some v) (map (option_map f) rows) ->
             exists p m d, f (p, m, d) = v
                           /\ (0 <= p)%Q /\ (0 <= m)%Q /\ (0 <= d)%Q /\ (d <= 100)%Q).
  { intros f v Hv. apply in_map_iff in Hv. destruct Hv as [r [Hr Hin]].
    specialize (Hrows r Hin). destruct r as [[[p m] d]|]; [|discriminate].
    injection Hr as <-. now exists p, m, d. }
  split; [|split].
  - intros v Hv. destruct (Hproj _ _ Hv) as [p [m [d [<- H]]]]. cbn. tauto.
  - intros v Hv. destruct (Hproj _ _ Hv) as [p [m [d [<- H]]]]. cbn. tauto.
  - intros v Hv. destruct (exact_multiplier_range Hp) as [H0 H1].
    apply (@exact_ema_loop_between 0 100 _ (map (option_map snd) rows) None H0 H1);
      [ | discriminate | exact Hv].
    intros w Hw. destruct (Hproj _ _ Hw) as [p [m [d [<- H]]]]. cbn. tauto.
Qed.

(** ** Bollinger bands and the VWAP *)

Lemma at_mapi (N X : Type) (f : nat -> X -> nullable N) (l : list X) (i : nat) :
  at_ (mapi f l) i = match nth_error l i with
                     | Some x => f i x
                     | None => None
                     end.
Proof.
  unfold at_. pose proof (mapi_nth_error f l i) as H.
  destruct (nth_error l i) as [x|] eqn:E; cbn [option_map] in H.
  - now apply nth_error_nth.
  - apply nth_overflow. apply nth_error_None in H. exact H.
Qed.

(** Over exact arithmetic: below index window - 1 the three Bollinger series
    are null together; from there on, for a window of at least one bar, all
    three are set, the upper and the lower band lie symmetrically around the
    middle one (the SMA), and when [Math.sqrt] and the width factor are not
    negative the lower band is at most the middle and the middle at most
    the upper. *)
Theorem bollinger_bands_around_sma (sqrt : Q -> Q) (points : list (PriceBar Q))
  (window : nat) (numStdDev : Q) (i : nat) :
  ((i + 1 < window)%nat ->
   at_ (middle (calculateBollingerBands sqrt points window numStdDev)) i = None
   /\ at_ (upper (calculateBollingerBands sqrt points window numStdDev)) i = None
   /\ at_ (lower (calculateBollingerBands sqrt points window numStdDev)) i = None)
  /\ ((1 <= window)%nat -> (window <= i + 1)%nat -> (i < List.length points)%nat ->
      exists m u l : Q,
        at_ (middle (calculateBollingerBands sqrt points window numStdDev)) i = Some m
        /\ at_ (upper (calculateBollingerBands sqrt points window numStdDev)) i = Some u
        /\ at_ (lower (calculateBollingerBands sqrt points window numStdDev)) i = Some l
        /\ (u + l == 2 * m)%Q
        /\ ((0 <= numStdDev)%Q -> (forall x, 0 <= sqrt x)%Q -> (l <= m)%Q /\ (m <= u)%Q)).
Proof.
  cbn [calculateBollingerBands middle upper lower].
  unfold calculateSMA, rolling, band. split.
  - intros Hi. rewrite !at_mapi.
    destruct (nth_error (map getClose points) i) as [x|]; [|tauto].
    destruct (Nat.ltb_spec (i + 1) window); [tauto | lia].
  - intros _ Hw Hi. rewrite !at_mapi.
    destruct (nth_error (map getClose points) i) as [x|] eqn:Hx.
    2:{ apply nth_error_None in Hx. rewrite length_map in Hx. lia. }
    destruct (Nat.ltb_spec (i + 1) window); [lia|].
    eexists. eexists. eexists.
    split; [reflexivity|]. split; [reflexivity|]. split; [reflexivity|].
    cbn [nadd nsub nmul ExactArith].
    split; [ring|]. intros Hk Hs.
    match goal with |- context [sqrt ?v] => pose proof (Hs v) as Hv; set (s := sqrt v) in * end.
    clearbody s. assert (0 <= s * numStdDev)%Q by now apply Qmult_le_0_compat.
    split; lra.
Qed.

Lemma exact_vwap_loop_between (a b : Q) (points : list (PriceBar Q))
  (cumulativeVolume cumulativeTpv : Q) :
  (forall row, In row points ->
     (0 <= volume row)%Q
     /\ (a <= low row)%Q /\ (low row <= b)%Q
     /\ (a <= close row)%Q /\ (close row <= b)%Q
     /\ (a <= high row)%Q /\ (high row <= b)%Q) ->
  (0 <= cumulativeVolume)%Q ->
  (a * cumulativeVolume <= cumulativeTpv)%Q ->
  (cumulativeTpv <= b * cumulativeVolume)%Q ->
  forall v, In (Some v) (vwap_loop cumulativeVolume cumulativeTpv points) ->
            (a <= v)%Q /\ (v <= b)%Q.
Proof.
  revert cumulativeVolume cumulativeTpv.
  induction points as [|row points IH]; intros cv ct Hrows Hcv Hlo Hhi v Hv;
    [contradiction|].
  assert (Hrest : forall r, In r points ->
             (0 <= volume r)%Q
             /\ (a <= low r)%Q /\ (low r <= b)%Q
             /\ (a <= close r)%Q /\ (close r <= b)%Q
             /\ (a <= high r)%Q /\ (high r <= b)%Q)
    by (intros r Hr; apply Hrows; now right).
  destruct (Hrows row (or_introl eq_refl)) as [Hv0 [Hl0 [Hl1 [Hc0 [Hc1 [Hh0 Hh1]]]]]].
  cbn [vwap_loop] in Hv.
  destruct (noVolume (getVolume row)) eqn:Hno.
  - destruct Hv as [Hv|Hv]; [discriminate|]. now apply (IH cv ct).
  - assert (Hvol : (0 < volume row)%Q).
    { cbn in Hno. apply negb_false_iff in Hno. unfold truthy in Hno.
      apply andb_true_iff in Hno. destruct Hno as [Hno _].
      apply negb_true_iff, exact_eqb_false in Hno. rewrite exact_zero in Hno.
      destruct (Qlt_le_dec 0 (volume row)) as [Hlt|Hge]; [exact Hlt|].
      exfalso. apply Hno. now apply Qle_antisym. }
    change (nz (getVolume row)) with (volume row) in Hv.
    change (nz (getHigh row)) with (high row) in Hv.
    change (nz (getLow row)) with (low row) in Hv.
    change (nz (getClose row)) with (close row) in Hv.
    set (tp := ((high row + low row + close row) / ofZ 3)%num) in *.
    assert (Htp : (a <= tp)%Q /\ (tp <= b)%Q).
    { subst tp. cbn [nadd ndiv ofZ ExactArith]. change (inject_Z 3) with 3%Q.
      split; [apply Qle_shift_div_l | apply Qle_shift_div_r]; lra. }
    clearbody tp. destruct Htp as [Htp0 Htp1].
    cbn [nadd nmul ExactArith] in Hv.
    set (cv' := (cv + volume row)%Q) in *.
    set (ct' := (ct + tp * volume row)%Q) in *.
    assert (Hcv' : (0 < cv')%Q) by (subst cv'; lra).
    assert (Hlo' : (a * cv' <= ct')%Q) by (subst cv' ct'; nra).
    assert (Hhi' : (ct' <= b * cv')%Q) by (subst cv' ct'; nra).
    clearbody cv' ct'.
    destruct Hv as [Hv|Hv].
    + destruct (zero <? cv')%num; [|discriminate]. injection Hv as <-.
      cbn [ndiv ExactArith].
      split; [apply Qle_shift_div_l | apply Qle_shift_div_r]; lra.
    + apply (IH cv' ct'); try assumption. lra.
Qed.

(** Over exact arithmetic: when no bar has a negative volume and the high,
    low and close of every bar lie in [a, b], every VWAP value lies in
    [a, b]. *)
Theorem calculateVWAP_between (a b : Q) (points : list (PriceBar Q)) (v : Q) :
  (forall row, In row points ->
     (0 <= volume row)%Q
     /\ (a <= low row)%Q /\ (low row <= b)%Q
     /\ (a <= close row)%Q /\ (close row <= b)%Q
     /\ (a <= high row)%Q /\ (high row <= b)%Q) ->
  In (Some v) (calculateVWAP points) ->
  (a <= v)%Q /\ (v <= b)%Q.
Proof.
  intros Hrows Hv. unfold calculateVWAP in Hv.
  apply (@exact_vwap_loop_between a b points zero zero Hrows); rewrite ?exact_zero;
    try lra; exact Hv.
Qed.

(** ** The forecaster *)

Section ForecastDates.

Context {N : Type} {A : Arith N}.

(** The k-th point of a returned forecast (counting from 0) is dated k + 1
    days after the last bar, whatever the model. *)
Theorem forecast_dates_follow_last_bar (points : list (PriceBar N))
  (indicator model : string) (days : Z) (forecast : list (ForecastPoint N))
  (k : nat) (p : ForecastPoint N) :
  predictFuturePrices points indicator model days = inr forecast ->
  nth_error forecast k = Some p ->
  exists lastBar,
    nth_error points (List.length points - 1) = Some lastBar
    /\ fdate p = (date lastBar + Z.of_nat (S k))%Z.
Proof.
  unfold predictFuturePrices. intros Hret H.
  destruct (List.length (filter is_finite (map close points)) =? 0)%nat eqn:E.
  { injection Hret as <-. destruct k; discriminate. }
  destruct points as [|b points]; [discriminate|].
  destruct (exists_last (l := b :: points)) as [l' [lastBar El]]; [discriminate|].
  rewrite El in Hret. rewrite last_last in Hret.
  exists lastBar. split.
  - rewrite El, length_app. cbn [List.length].
    replace (List.length l' + 1 - 1)%nat with (List.length l' + 0)%nat by lia.
    now rewrite nth_error_app2, Nat.add_0_r, Nat.sub_diag by lia.
  - assert (Hk : forall projected : Z -> N,
               nth_error (map (fun i => mkForecast (date lastBar + i) (projected i))
                              (horizon days)) k = Some p ->
               fdate p = (date lastBar + Z.of_nat (S k))%Z).
    { intros projected Hn. unfold horizon in Hn. rewrite map_map, nth_error_map in Hn.
      destruct (nth_error (seq 1 (Z.to_nat days)) k) as [j|] eqn:Ej; [|discriminate].
      injection Hn as <-. cbn [fdate]. f_equal.
      assert (Hlt : (k < List.length (seq 1 (Z.to_nat days)))%nat)
        by (apply nth_error_Some; congruence).
      rewrite length_seq in Hlt.
      pose proof (nth_error_nth _ _ 0%nat Ej) as Hj. rewrite seq_nth in Hj by exact Hlt.
      subst j. reflexivity. }
    cbv zeta in Hret.
    destruct (String.eqb model "simple");
      [apply project_returned in Hret; subst forecast; eapply Hk; exact H|].
    destruct (String.eqb model "arima");
      [apply project_returned in Hret; subst forecast; eapply Hk; exact H|].
    destruct (String.eqb model "prophet");
      [apply project_returned in Hret; subst forecast; eapply Hk; exact H|].
    injection Hret as <-. destruct k; discriminate.
Qed.

End ForecastDates.

Lemma exact_sum_flat (c : Q) (sl : list Q) (acc : Q) :
  Forall (fun v => (v == c)%Q) sl ->
  (fold_left (fun a v => (a + v)%num) sl acc
   == acc + inject_Z (Z.of_nat (List.length sl)) * c)%Q.
Proof.
  intros H. revert acc; induction H as [|v sl Hv Hsl IH]; intros acc.
  - cbn. ring.
  - cbn [fold_left List.length]. rewrite IH. cbn [nadd ExactArith].
    rewrite Nat2Z.inj_succ. unfold Z.succ. rewrite inject_Z_plus. rewrite Hv. ring.
Qed.

Lemma slice_holds_index (X : Type) (l : list X) (start i : nat) (x : X) :
  (start <= i)%nat -> nth_error l i = Some x -> In x (slice l start (i + 1)).
Proof.
  intros Hs Hx. unfold slice. apply nth_error_In with (n := (i - start)%nat).
  rewrite nth_error_firstn.
  destruct (Nat.ltb_spec (i - start) (i + 1 - start)); [|lia].
  rewrite nth_error_skipn. now replace (start + (i - start))%nat with i by lia.
Qed.

Lemma slice_incl (X : Type) (l : list X) (start stop : nat) (x : X) :
  In x (slice l start stop) -> In x l.
Proof.
  unfold slice. intros H.
  rewrite <- (firstn_skipn start l). apply in_or_app. right.
  rewrite <- (firstn_skipn (stop - start) (skipn start l)). apply in_or_app. now left.
Qed.

Lemma exact_smoothSeries_flat (c : Q) (values : list Q) (window : nat) :
  (1 <= window)%nat ->
  Forall (fun v => (v == c)%Q) values ->
  Forall (fun v => (v == c)%Q) (smoothSeries values window).
Proof.
  intros Hw H. unfold smoothSeries. apply mapi_from_Forall. intros k x Hk. cbn [Nat.add].
  set (sl := slice values (k + 1 - window) (k + 1)).
  assert (Hin : In x sl)
    by (apply (@slice_holds_index _ values (k + 1 - window) k x); [lia | exact Hk]).
  assert (Hsl : Forall (fun v => (v == c)%Q) sl).
  { apply Forall_forall. intros v Hv. rewrite Forall_forall in H. apply H.
    now apply slice_incl in Hv. }
  rewrite (exact_sum_flat zero Hsl). rewrite exact_zero.
  assert (Hlen : (1 <= inject_Z (Z.of_nat (List.length sl)))%Q).
  { change 1%Q with (inject_Z 1). rewrite <- Zle_Qle.
    destruct sl; [contradiction | cbn [List.length]; lia]. }
  cbn [ndiv ofnat ofZ ExactArith]. field. lra.
Qed.

Lemma exact_regression_sums_flat (c : Q) (points : list Q) (i : nat)
  (sumX sumY sumXY sumXX : Q) :
  Forall (fun v => (v == c)%Q) points ->
  (snd (fst (fst (regression_sums i points sumX sumY sumXY sumXX)))
   == sumY + inject_Z (Z.of_nat (List.length points)) * c)%Q
  /\ (snd (fst (regression_sums i points sumX sumY sumXY sumXX))
      == sumXY + c * (fst (fst (fst (regression_sums i points sumX sumY sumXY sumXX)))
                      - sumX))%Q.
Proof.
  intros H. revert i sumX sumY sumXY sumXX.
  induction H as [|y points Hy Hpts IH]; intros i sumX sumY sumXY sumXX.
  - cbn. split; ring.
  - cbn [regression_sums List.length].
    specialize (IH (S i) (sumX + ofnat i)%num (sumY + y)%num
                   (sumXY + ofnat i * y)%num (sumXX + ofnat i * ofnat i)%num).
    destruct (regression_sums (S i) points (sumX + ofnat i)%num (sumY + y)%num
                (sumXY + ofnat i * y)%num (sumXX + ofnat i * ofnat i)%num)
      as [[[sx sy] sxy] sxx].
    cbn [fst snd] in *. destruct IH as [H1 H2].
    cbn [nadd nmul ExactArith] in H1, H2.
    rewrite Nat2Z.inj_succ. unfold Z.succ. rewrite inject_Z_plus.
    set (n := inject_Z (Z.of_nat (List.length points))) in *.
    set (x := ofnat (N:=Q) i) in *. clearbody n x.
    split; [rewrite H1 | rewrite H2]; rewrite Hy; ring.
Qed.

Lemma exact_linearRegression_flat (c : Q) (points : list Q) :
  points <> [] -> Forall (fun v => (v == c)%Q) points ->
  (slope (linearRegression points) == 0)%Q
  /\ (intercept (linearRegression points) == c)%Q.
Proof.
  intros Hne H. unfold linearRegression.
  destruct (List.length points =? 0)%nat eqn:E.
  { apply Nat.eqb_eq in E. destruct points; [congruence | discriminate]. }
  apply Nat.eqb_neq in E.
  destruct (exact_regression_sums_flat 0 zero zero zero zero H) as [HY HXY].
  destruct (regression_sums 0 points zero zero zero zero) as [[[sumX sumY] sumXY] sumXX].
  cbn [fst snd] in HY, HXY. rewrite exact_zero in HY, HXY.
  set (n := ofnat (N:=Q) (List.length points)).
  assert (Hn : (1 <= n)%Q).
  { subst n. apply exact_ofnat_positive. lia. }
  assert (HY' : (sumY == n * c)%Q) by (rewrite HY; subst n; unfold ofnat; cbn; ring).
  assert (HXY' : (sumXY == c * sumX)%Q) by (rewrite HXY; ring).
  clearbody n.
  assert (Hslope : ((if (n * sumXX - sumX * sumX =? zero)%num then zero
                     else ((n * sumXY - sumX * sumY) / (n * sumXX - sumX * sumX))%num)
                    == 0)%Q).
  { destruct (_ =? _)%num; [now rewrite exact_zero|].
    cbn [nsub nmul ndiv ExactArith]. unfold Qdiv.
    setoid_replace (n * sumXY - sumX * sumY)%Q with 0%Q
      by (rewrite HY', HXY'; ring).
    ring. }
  cbn [slope intercept]. split; [exact Hslope|].
  cbn [nsub nmul ndiv ExactArith] in *. rewrite Hslope, HY'. field. lra.
Qed.

Lemma exact_filter_finite (values : list Q) : filter is_finite values = values.
Proof.
  induction values as [|v values IH]; [reflexivity|].
  change (v :: filter is_finite values = v :: values). now rewrite IH.
Qed.

(** Over exact arithmetic: on a history whose closes all equal c, each of
    the three models forecasts c for every future day: every point of a
    returned forecast has the value c. *)
Theorem forecast_of_flat_history (c : Q) (points : list (PriceBar Q))
  (indicator model : string) (days : Z) (forecast : list (ForecastPoint Q))
  (p : ForecastPoint Q) :
  (forall b, In b points -> (close b == c)%Q) ->
  predictFuturePrices points indicator model days = inr forecast ->
  In p forecast ->
  (fvalue p == c)%Q.
Proof.
  intros Hflat Hret Hp. unfold predictFuturePrices in Hret.
  rewrite exact_filter_finite in Hret.
  set (closes := map close points) in *.
  assert (Hcloses : Forall (fun v => (v == c)%Q) closes).
  { apply Forall_forall. intros v Hv. apply in_map_iff in Hv.
    destruct Hv as [b [<- Hb]]. now apply Hflat. }
  destruct (List.length closes =? 0)%nat eqn:E.
  { injection Hret as <-. contradiction. }
  apply Nat.eqb_neq in E.
  assert (Hne : closes <> []) by (intros H0; rewrite H0 in E; now apply E).
  assert (Hnth : forall k, (k < List.length closes)%nat -> (nth k closes zero == c)%Q).
  { intros k Hk. rewrite Forall_forall in Hcloses. apply Hcloses. now apply nth_In. }
  clearbody closes. cbv zeta in Hret.
  destruct (String.eqb model "simple").
  { apply project_returned in Hret. subst forecast.
    apply in_map_iff in Hp. destruct Hp as [i [<- _]]. cbn [fvalue].
    cbn [nadd nsub nmul ndiv ExactArith].
    rewrite (Hnth (List.length closes - 1)%nat) by lia.
    rewrite (Hnth 0%nat) by lia.
    unfold Qdiv. ring. }
  destruct (String.eqb model "arima").
  { apply project_returned in Hret. subst forecast.
    apply in_map_iff in Hp. destruct Hp as [i [<- _]]. cbn [fvalue].
    destruct (exact_linearRegression_flat Hne Hcloses) as [Hs Hi].
    cbn [nadd nmul ExactArith]. rewrite Hs, Hi. ring. }
  destruct (String.eqb model "prophet").
  2:{ injection Hret as <-. contradiction. }
  apply project_returned in Hret. subst forecast.
  apply in_map_iff in Hp. destruct Hp as [i [<- _]]. cbn [fvalue].
  assert (Hsm : Forall (fun v => (v == c)%Q) (smoothSeries closes 7))
    by (apply exact_smoothSeries_flat; [lia | exact Hcloses]).
  assert (Hsne : smoothSeries closes 7 <> []).
  { intros H0. apply (f_equal (@List.length Q)) in H0.
    unfold smoothSeries in H0. rewrite mapi_length in H0. cbn in H0. lia. }
  destruct (exact_linearRegression_flat Hsne Hsm) as [Hs Hi].
  cbn [nadd nmul ExactArith]. rewrite Hs, Hi. ring.
Qed.

(** ** The signal stream *)

Section SignalStream.

Context {N : Type} {A : Arith N}.

Lemma graded_buy (diff strong medium : N) :
  In (buy (graded "buy" diff strong medium)) sevenSignals.
Proof.
  unfold graded. destruct (_ <? _)%num; [|destruct (_ <? _)%num]; cbn; tauto.
Qed.

Lemma graded_sell (diff strong medium : N) :
  In (sell (graded "sell" diff strong medium)) sevenSignals.
Proof.
  unfold graded. destruct (_ <? _)%num; [|destruct (_ <? _)%num]; cbn; tauto.
Qed.

Lemma hold_known : In hold sevenSignals.
Proof. now left. Qed.

Lemma mapi_all (X Y : Type) (P : Y -> Prop) (f : nat -> X -> Y) (l : list X) :
  (forall i x, P (f i x)) -> Forall P (mapi f l).
Proof. intros H. apply mapi_from_Forall. intros k x _. apply H. Qed.

Local Ltac known_signal :=
  repeat match goal with
         | |- In hold sevenSignals => exact hold_known
         | |- In (buy (graded _ _ _ _)) sevenSignals => apply graded_buy
         | |- In (sell (graded _ _ _ _)) sevenSignals => apply graded_sell
         | |- In (if ?c then _ else _) sevenSignals => destruct c
         | |- In (match ?v with Some _ => _ | None => _ end) sevenSignals => destruct v
         end.

(** For every indicator name backtestStrategy returns one signal per bar,
    each one of the seven signals of the classifier; so the label starts
    with [buy] exactly when the numeric signal is positive and with [sell]
    exactly when it is negative, which is what the two simulators read. *)
Theorem backtestStrategy_signals (sqrt : N -> N) (points : list (PriceBar N))
  (indicator : string) :
  List.length (fst (backtestStrategy sqrt points indicator)) = List.length points
  /\ Forall (fun s => In s sevenSignals) (fst (backtestStrategy sqrt points indicator))
  /\ Forall (fun s => startsWith (signal s) "buy" = (0 <? numericSignal s)%Z
                      /\ startsWith (signal s) "sell" = (numericSignal s <? 0)%Z)
            (fst (backtestStrategy sqrt points indicator)).
Proof.
  assert (Hknown : Forall (fun s => In s sevenSignals)
                          (fst (backtestStrategy sqrt points indicator))).
  { unfold backtestStrategy.
    repeat match goal with
           | |- context [String.eqb indicator ?s] => destruct (String.eqb indicator s)
           end; cbn [fst].
    - apply mapi_all. intros i x. unfold smaSignal. known_signal.
    - apply mapi_all. intros i x. unfold rsiSignal. known_signal.
    - apply mapi_all. intros i x. unfold macdSignal. known_signal.
    - apply mapi_all. intros i x. unfold bollingerSignal. known_signal.
    - apply mapi_all. intros i x. unfold stochasticSignal. known_signal.
    - apply Forall_forall. intros s Hs. apply in_map_iff in Hs.
      destruct Hs as [x [<- _]]. exact hold_known. }
  split; [|split; [exact Hknown|]].
  - unfold backtestStrategy.
    repeat match goal with
           | |- context [String.eqb indicator ?s] => destruct (String.eqb indicator s)
           end; cbn [fst]; rewrite ?mapi_length, ?length_map; reflexivity.
  - eapply Forall_impl; [|exact Hknown]. intros s Hs. cbn in Hs.
    repeat (destruct Hs as [<-|Hs]; [split; reflexivity|]). contradiction.
Qed.

End SignalStream.

(** ** The all-or-nothing simulator: positions, log and value *)

Lemma entries_app (N : Type) (log : list (AdvancedBacktest.Trade N))
  (t : AdvancedBacktest.Trade N) :
  entries (log ++ [t])
  = (entries log + match AdvancedBacktest.type t with
                   | AdvancedBacktest.BUY => 1
                   | _ => 0
                   end)%nat.
Proof.
  unfold entries. rewrite filter_app, length_app. f_equal.
  cbn. destruct (AdvancedBacktest.type t); reflexivity.
Qed.

Lemma exits_app (N : Type) (log : list (AdvancedBacktest.Trade N))
  (t : AdvancedBacktest.Trade N) :
  exits (log ++ [t])
  = (exits log + match AdvancedBacktest.type t with
                 | AdvancedBacktest.SELL
                 | AdvancedBacktest.STOP
                 | AdvancedBacktest.TARGET => 1
                 | _ => 0
                 end)%nat.
Proof.
  unfold exits. rewrite filter_app, length_app. f_equal.
  cbn. destruct (AdvancedBacktest.type t); reflexivity.
Qed.

Lemma exact_flat_not_positive (x : Q) : (x == 0)%Q -> (zero <? x)%num = false.
Proof. intros H. apply exact_ltb_false. rewrite exact_zero, H. apply Qle_refl. Qed.

Lemma exact_positive_not_zero (x : Q) : (0 < x)%Q -> (x =? zero)%num = false.
Proof.
  intros H. apply exact_eqb_false. rewrite exact_zero. intros E. rewrite E in H.
  exact (Qlt_irrefl 0 H).
Qed.

Section ExactPositions.

Variables stopLossPct takeProfitPct : Q.

Lemma exact_protect_position (st : AdvancedBacktest.State Q) (row : PriceBar Q) :
  flatOrHolding st ->
  flatOrHolding (AdvancedBacktest.protect stopLossPct takeProfitPct st row).
Proof.
  intros Hst. unfold AdvancedBacktest.protect.
  destruct Hst as [[Hs [He Hlog]]|[Hs [He Hlog]]].
  - rewrite (exact_flat_not_positive Hs). cbn [andb]. left. tauto.
  - destruct (_ && _); [|right; tauto].
    destruct (_ && _); [|destruct (_ && _); [|right; tauto]];
      left; cbn [AdvancedBacktest.shares AdvancedBacktest.entryPrice AdvancedBacktest.trades];
      rewrite entries_app, exits_app; cbn [AdvancedBacktest.type];
      (split; [rewrite exact_zero; apply Qeq_refl | split; [reflexivity | lia]]).
Qed.

Lemma exact_act_position (signals : list Signal) (st : AdvancedBacktest.State Q)
  (idx : nat) (row : PriceBar Q) :
  flatOrHolding st ->
  flatOrHolding (AdvancedBacktest.act signals st idx row).
Proof.
  intros Hst. unfold AdvancedBacktest.act.
  destruct Hst as [[Hs [He Hlog]]|[Hs [He Hlog]]].
  - rewrite (exact_flat_not_positive Hs).
    destruct ((0 <? _)%Z && _ && (zero <? close row)%num) eqn:E;
      [|rewrite andb_false_r; left; tauto].
    apply andb_true_iff in E. destruct E as [_ Hprice]. apply exact_ltb in Hprice.
    rewrite exact_zero in Hprice.
    destruct (zero <? _)%num eqn:Hq; [|left; tauto].
    apply exact_ltb in Hq. rewrite exact_zero in Hq. right.
    cbn [AdvancedBacktest.shares AdvancedBacktest.entryPrice AdvancedBacktest.trades].
    rewrite entries_app, exits_app; cbn [AdvancedBacktest.type].
    split; [exact Hq|]. split; [now exists (close row) | lia].
  - rewrite (exact_positive_not_zero Hs). rewrite andb_false_r. cbn [andb].
    destruct (_ && _); [|right; tauto].
    left. cbn [AdvancedBacktest.shares AdvancedBacktest.entryPrice AdvancedBacktest.trades].
    rewrite entries_app, exits_app; cbn [AdvancedBacktest.type].
    split; [rewrite exact_zero; apply Qeq_refl | split; [reflexivity | lia]].
Qed.

Lemma exact_step_position (signals : list Signal) (st : AdvancedBacktest.State Q)
  (idx : nat) (row : PriceBar Q) :
  flatOrHolding st ->
  flatOrHolding (AdvancedBacktest.step stopLossPct takeProfitPct signals st idx row).
Proof.
  intros Hst.
  exact (@exact_act_position signals _ idx row (@exact_protect_position st row Hst)).
Qed.

Lemma exact_replay_position (signals : list Signal) (points : list (PriceBar Q))
  (st : AdvancedBacktest.State Q) (idx : nat) :
  flatOrHolding st ->
  Forall flatOrHolding
         (AdvancedBacktest.replay stopLossPct takeProfitPct signals st idx points).
Proof.
  revert st idx; induction points as [|row points IH]; intros st idx Hst;
    cbn [AdvancedBacktest.replay]; constructor.
  - now apply exact_step_position.
  - apply IH. now apply exact_step_position.
Qed.

Lemma exact_liquidate_position (points : list (PriceBar Q)) (st : AdvancedBacktest.State Q) :
  flatOrHolding st -> flatOrHolding (AdvancedBacktest.liquidate points st).
Proof.
  intros Hst. unfold AdvancedBacktest.liquidate.
  destruct (_ <? _)%num; [|exact Hst].
  destruct points as [|p points]; [exact Hst|].
  destruct (truthy _); [|exact Hst].
  unfold flatOrHolding in *.
  cbn [AdvancedBacktest.shares AdvancedBacktest.entryPrice AdvancedBacktest.trades].
  rewrite entries_app, exits_app; cbn [AdvancedBacktest.type].
  rewrite !Nat.add_0_r. exact Hst.
Qed.

End ExactPositions.

(** Over exact arithmetic, for every input: at every step the all-or-nothing
    simulator is either flat (no share, no entry price) with as many BUY
    entries logged as SELL, STOP and TARGET exits, or holding (a positive
    share count and a positive entry price) with exactly one more entry than
    exits. *)
Theorem runSimulation_positions_match_log (points : list (PriceBar Q))
  (signals : list Signal) (initialCapital stopLossPct takeProfitPct : Q) :
  Forall flatOrHolding
         (AdvancedBacktest.states stopLossPct takeProfitPct points signals initialCapital).
Proof.
  unfold AdvancedBacktest.states.
  assert (Hstart : flatOrHolding (AdvancedBacktest.start initialCapital)).
  { left. cbn. split; [apply Qeq_refl | split; reflexivity]. }
  set (run := AdvancedBacktest.start initialCapital :: _).
  assert (Hrun : Forall flatOrHolding run).
  { subst run. constructor; [exact Hstart|]. now apply exact_replay_position. }
  apply Forall_app. split; [exact Hrun|].
  constructor; [|constructor].
  apply exact_liquidate_position.
  rewrite Forall_forall in Hrun. apply Hrun.
  subst run. destruct (exists_last (l := AdvancedBacktest.start initialCapital
    :: AdvancedBacktest.replay stopLossPct takeProfitPct signals
         (AdvancedBacktest.start initialCapital) 0 points)) as [l' [a E]];
    [discriminate|].
  rewrite E, last_last. apply in_or_app. right. now left.
Qed.

Lemma exact_protect_value (stopLossPct takeProfitPct : Q)
  (st : AdvancedBacktest.State Q) (row : PriceBar Q) :
  (AdvancedBacktest.cash (AdvancedBacktest.protect stopLossPct takeProfitPct st row)
   + AdvancedBacktest.shares (AdvancedBacktest.protect stopLossPct takeProfitPct st row)
     * close row
   == AdvancedBacktest.cash st + AdvancedBacktest.shares st * close row)%Q.
Proof.
  unfold AdvancedBacktest.protect.
  destruct (_ && _); [|apply Qeq_refl].
  destruct (_ && _); [|destruct (_ && _); [|apply Qeq_refl]];
    cbn [AdvancedBacktest.cash AdvancedBacktest.shares nadd nmul ExactArith];
    rewrite exact_zero; ring.
Qed.

Lemma exact_act_value (signals : list Signal) (st : AdvancedBacktest.State Q)
  (idx : nat) (row : PriceBar Q) :
  (AdvancedBacktest.cash (AdvancedBacktest.act signals st idx row)
   + AdvancedBacktest.shares (AdvancedBacktest.act signals st idx row) * close row
   == AdvancedBacktest.cash st + AdvancedBacktest.shares st * close row)%Q.
Proof.
  unfold AdvancedBacktest.act.
  destruct ((0 <? AdvancedBacktest.numericAt signals idx)%Z
            && (AdvancedBacktest.shares st =? zero)%num
            && (zero <? close row)%num) eqn:E.
  - apply andb_true_iff in E. destruct E as [E _].
    apply andb_true_iff in E. destruct E as [_ E]. apply exact_eqb in E.
    rewrite exact_zero in E.
    destruct (zero <? AdvancedBacktest.cash st / close row)%num; [|apply Qeq_refl].
    cbn [AdvancedBacktest.cash AdvancedBacktest.shares nsub nmul ndiv ExactArith].
    rewrite E. ring.
  - destruct ((AdvancedBacktest.numericAt signals idx <? 0)%Z
              && (zero <? AdvancedBacktest.shares st)%num); [|apply Qeq_refl].
    cbn [AdvancedBacktest.cash AdvancedBacktest.shares nadd nmul ExactArith].
    rewrite exact_zero. ring.
Qed.

(** Over exact arithmetic, for every input: no stop, target, buy or sell
    changes what the portfolio is worth at the bar where it happens; the
    equity point a bar pushes is the cash and shares held before the bar,
    marked at the bar's close. *)
Theorem runSimulation_trades_at_the_close (signals : list Signal)
  (st : AdvancedBacktest.State Q) (idx : nat) (row : PriceBar Q)
  (stopLossPct takeProfitPct : Q) :
  exists v : Q,
    AdvancedBacktest.equity
      (AdvancedBacktest.step stopLossPct takeProfitPct signals st idx row)
    = AdvancedBacktest.equity st ++ [mkPoint (date row) v]
    /\ (v == AdvancedBacktest.cash st + AdvancedBacktest.shares st * close row)%Q
    /\ (v == AdvancedBacktest.cash
               (AdvancedBacktest.step stopLossPct takeProfitPct signals st idx row)
             + AdvancedBacktest.shares
                 (AdvancedBacktest.step stopLossPct takeProfitPct signals st idx row)
               * close row)%Q.
Proof.
  unfold AdvancedBacktest.step.
  cbn [AdvancedBacktest.equity AdvancedBacktest.cash AdvancedBacktest.shares].
  set (st1 := AdvancedBacktest.protect stopLossPct takeProfitPct st row).
  set (st2 := AdvancedBacktest.act signals st1 idx row).
  assert (Heq : AdvancedBacktest.equity st2 = AdvancedBacktest.equity st).
  { subst st2 st1. unfold AdvancedBacktest.act, AdvancedBacktest.protect.
    repeat match goal with
           | |- context [if ?c then _ else _] => destruct c
           end; reflexivity. }
  eexists. split; [rewrite Heq; reflexivity|]. cbn [nadd nmul ExactArith].
  split; [|apply Qeq_refl].
  subst st2. rewrite exact_act_value. subst st1. apply exact_protect_value.
Qed.

(** ** A stream of hold signals *)

Lemma hold_signalAt (signals : list Signal) (index : nat) :
  Forall (fun s => s = hold) signals -> Backtesting.signalAt signals index = "hold"%string.
Proof.
  intros H. unfold Backtesting.signalAt.
  destruct (nth_error signals index) as [s|] eqn:E; [|reflexivity].
  apply nth_error_In in E. rewrite Forall_forall in H. now rewrite (H s E).
Qed.

Lemma hold_numericAt (signals : list Signal) (idx : nat) :
  Forall (fun s => s = hold) signals -> AdvancedBacktest.numericAt signals idx = 0%Z.
Proof.
  intros H. unfold AdvancedBacktest.numericAt.
  destruct (nth_error signals idx) as [s|] eqn:E; [|reflexivity].
  apply nth_error_In in E. rewrite Forall_forall in H. now rewrite (H s E).
Qed.

Lemma exact_hold_replay (signals : list Signal) (initialCapital : Q)
  (points : list (PriceBar Q)) (index : nat) :
  Forall (fun s => s = hold) signals ->
  Forall (fun r => (value (snd r) == initialCapital)%Q)
         (Backtesting.replay signals initialCapital (Backtesting.start initialCapital)
            index points).
Proof.
  intros H. revert index; induction points as [|row points IH]; intros index;
    cbn [Backtesting.replay]; [constructor|].
  assert (Ht : Backtesting.trade signals (Backtesting.start initialCapital) index row
               = Backtesting.start initialCapital).
  { unfold Backtesting.trade. now rewrite (hold_signalAt index H). }
  destruct (index =? 0)%nat.
  - constructor; [apply Qeq_refl | apply IH].
  - rewrite Ht. constructor; [|apply IH].
    cbn [snd value Backtesting.start Backtesting.cash Backtesting.shares nadd nmul
           ExactArith].
    rewrite exact_zero. ring.
Qed.

Lemma exact_hold_step (stopLossPct takeProfitPct : Q) (signals : list Signal)
  (st : AdvancedBacktest.State Q) (idx : nat) (row : PriceBar Q) :
  Forall (fun s => s = hold) signals ->
  AdvancedBacktest.shares st = zero ->
  AdvancedBacktest.step stopLossPct takeProfitPct signals st idx row
  = AdvancedBacktest.mkState (AdvancedBacktest.cash st) zero
      (AdvancedBacktest.entryPrice st) (AdvancedBacktest.trades st)
      (AdvancedBacktest.equity st
         ++ [mkPoint (date row) (AdvancedBacktest.cash st + zero * close row)%num]).
Proof.
  intros H Hs. unfold AdvancedBacktest.step, AdvancedBacktest.act, AdvancedBacktest.protect.
  rewrite (hold_numericAt idx H), Hs. cbn [Z.ltb Z.compare andb].
  change (zero <? zero)%num with false. cbn [andb]. now rewrite Hs.
Qed.

Lemma exact_hold_last (stopLossPct takeProfitPct : Q) (signals : list Signal)
  (initialCapital : Q) (points : list (PriceBar Q)) (st : AdvancedBacktest.State Q)
  (idx : nat) :
  Forall (fun s => s = hold) signals ->
  AdvancedBacktest.cash st = initialCapital ->
  AdvancedBacktest.shares st = zero ->
  AdvancedBacktest.trades st = [] ->
  Forall (fun p => (value p == initialCapital)%Q) (AdvancedBacktest.equity st) ->
  let final := last (st :: AdvancedBacktest.replay stopLossPct takeProfitPct
                             signals st idx points) st in
  AdvancedBacktest.shares final = zero
  /\ AdvancedBacktest.trades final = []
  /\ Forall (fun p => (value p == initialCapital)%Q) (AdvancedBacktest.equity final).
Proof.
  intros H. revert st idx; induction points as [|row points IH];
    intros st idx Hc Hs Ht He; cbv zeta.
  - cbn. tauto.
  - cbn [AdvancedBacktest.replay].
    set (st' := AdvancedBacktest.step stopLossPct takeProfitPct signals st idx row).
    assert (Est : st' = AdvancedBacktest.mkState (AdvancedBacktest.cash st) zero
                          (AdvancedBacktest.entryPrice st) (AdvancedBacktest.trades st)
                          (AdvancedBacktest.equity st
                             ++ [mkPoint (date row)
                                   (AdvancedBacktest.cash st + zero * close row)%num]))
      by (subst st'; now apply exact_hold_step).
    replace (last (st :: st' :: AdvancedBacktest.replay stopLossPct takeProfitPct
                                  signals st' (S idx) points) st)
      with (last (st' :: AdvancedBacktest.replay stopLossPct takeProfitPct
                           signals st' (S idx) points) st')
      by (cbn [last]; apply last_nonempty).
    apply IH; rewrite Est; cbn [AdvancedBacktest.cash AdvancedBacktest.shares
                                  AdvancedBacktest.trades AdvancedBacktest.equity];
      try assumption; try reflexivity.
    apply Forall_app. split; [exact He|]. constructor; [|constructor].
    cbn [value nadd nmul ExactArith]. rewrite Hc, exact_zero. ring.
Qed.

(** Over exact arithmetic: on a stream of hold signals (and so for an
    indicator name backtestStrategy does not know) neither simulator trades:
    every portfolio value and every equity value is the starting capital,
    and the trade log is empty. *)
Theorem hold_signals_never_trade (points : list (PriceBar Q)) (signals : list Signal)
  (initialCapital stopLossPct takeProfitPct : Q) :
  Forall (fun s => s = hold) signals ->
  Forall (fun p => (value p == initialCapital)%Q)
         (Backtesting.runTradingSimulation points signals initialCapital)
  /\ Forall (fun p => (value p == initialCapital)%Q)
            (fst (AdvancedBacktest.runSimulation stopLossPct takeProfitPct
                    points signals initialCapital))
  /\ snd (AdvancedBacktest.runSimulation stopLossPct takeProfitPct
            points signals initialCapital) = [].
Proof.
  intros H. split.
  - unfold Backtesting.runTradingSimulation. apply Forall_map.
    now apply exact_hold_replay.
  - unfold AdvancedBacktest.runSimulation, AdvancedBacktest.states. cbn [fst snd].
    rewrite last_last.
    assert (Hlast := @exact_hold_last stopLossPct takeProfitPct signals initialCapital
                       points (AdvancedBacktest.start initialCapital) 0 H).
    destruct Hlast as [Hs [Ht He]]; [reflexivity | reflexivity | reflexivity | constructor |].
    set (final := last _ _) in *. clearbody final.
    unfold AdvancedBacktest.liquidate. rewrite Hs.
    change (zero <? zero)%num with false. cbv iota. split; assumption.
Qed.

(** ** The drawdown of a curve that is never negative *)

Lemma exact_drawdown_loop_floor (series : list (ValuePoint Q)) (peak : option Q) (maxDd : Q) :
  (forall p, In p series -> (0 <= value p)%Q) ->
  (forall q, peak = Some q -> (0 <= q)%Q) ->
  (-1 <= maxDd)%Q ->
  (-1 <= AdvancedBacktest.drawdown_loop peak maxDd series)%Q.
Proof.
  revert peak maxDd; induction series as [|row series IH]; intros peak maxDd Hs Hp Hm;
    cbn [AdvancedBacktest.drawdown_loop]; [exact Hm|].
  assert (Hrow : (0 <= value row)%Q) by (apply Hs; now left).
  assert (Hrest : forall p, In p series -> (0 <= value p)%Q)
    by (intros p Hin; apply Hs; now right).
  set (peak' := if AdvancedBacktest.above (value row) peak then Some (value row) else peak).
  assert (Hp' : forall q, peak' = Some q -> (0 <= q)%Q).
  { subst peak'. intros q. destruct (AdvancedBacktest.above (value row) peak).
    - intros E. injection E as <-. exact Hrow.
    - apply Hp. }
  clearbody peak'.
  destruct (AdvancedBacktest.unusable peak') eqn:U; [now apply IH|].
  destruct peak' as [q|]; [|discriminate].
  cbn [AdvancedBacktest.unusable is_finite ExactArith negb orb] in U.
  apply exact_eqb_false in U. rewrite exact_zero in U.
  assert (Hq : (0 < q)%Q).
  { pose proof (Hp' q eq_refl) as H0.
    destruct (Qlt_le_dec 0 q) as [Hlt|Hge]; [exact Hlt|].
    exfalso. apply U. now apply Qle_antisym. }
  destruct (_ <? maxDd)%num; apply IH; try assumption.
  cbn [nz nsub ndiv ExactArith]. apply Qle_shift_div_l; lra.
Qed.

(** Over exact arithmetic: on a curve whose values are never negative,
    maxDrawdown is at least -1 (a loss of at most 100%). *)
Theorem maxDrawdown_at_least_minus_one (series : list (ValuePoint Q)) :
  (forall p, In p series -> (0 <= value p)%Q) ->
  (-1 <= AdvancedBacktest.maxDrawdown series)%Q.
Proof.
  intros H. apply exact_drawdown_loop_floor; [exact H | discriminate |].
  rewrite exact_zero. lra.
Qed.

(** ** The insights request *)

Section InsightsResponses.

Context {N : Type} {A : Arith N}.

Lemma backtestStrategy_length (sqrt : N -> N) (points : list (PriceBar N))
  (indicator : string) :
  List.length (fst (backtestStrategy sqrt points indicator)) = List.length points.
Proof.
  unfold backtestStrategy.
  repeat match goal with
         | |- context [String.eqb indicator ?s] => destruct (String.eqb indicator s)
         end; cbn [fst]; rewrite ?mapi_length, ?length_map; reflexivity.
Qed.

(** The [/insights] handler answers 400 when the symbol is absent or empty.
    Otherwise it works on the fetched history, or on the synthetic one when
    the fetch failed or came back empty; it answers 500 with the
    no-historical-data message when that history is empty too.  On a
    history that is not empty the forecast decides: when predictFuturePrices
    throws (a last bar without a valid date, a horizon that runs past the
    dates a [Date] can hold) the answer is 500 with that error's message,
    and else it is 200 with a payload whose history is the one used, with
    one signal and one simulation point per bar, with the forecast
    returned, and with capital 10000 when the request names none.  The
    forecast does not throw, and the answer is 200, whenever the date of
    the last bar and the last day of the forecast are dates a [Date] can
    hold. *)
Theorem insights_falls_back_to_synthetic_history (sqrt : N -> N) (Number : string -> N)
  (loopBound : N -> Z) (generateMockHistory : string -> list (PriceBar N))
  (fetched : option (list (PriceBar N))) (query : Insights.Query) :
  (Insights.given (Insights.symbol query) = false ->
   Insights.insights sqrt Number loopBound generateMockHistory fetched query
   = Insights.Status400 Insights.SymbolRequired)
  /\ (forall symbol used,
        Insights.symbol query = Some symbol -> symbol <> ""%string ->
        used = match fetched with
               | Some (b :: rest) => b :: rest
               | _ => generateMockHistory symbol
               end ->
        (used = [] ->
         Insights.insights sqrt Number loopBound generateMockHistory fetched query
         = Insights.Status500
             (Insights.Message "No historical data available for the requested symbol."))
        /\ (used <> [] ->
            (forall e,
               Insights.prediction loopBound used (Insights.options Number query) = inl e ->
               Insights.insights sqrt Number loopBound generateMockHistory fetched query
               = Insights.Status500 (Insights.Message (message e)))
            /\ (forall prediction,
                  Insights.prediction loopBound used (Insights.options Number query)
                  = inr prediction ->
                  exists payload,
                    Insights.insights sqrt Number loopBound generateMockHistory
                      fetched query
                    = Insights.Json payload
                    /\ Insights.history payload = used
                    /\ List.length (Insights.signals payload) = List.length used
                    /\ List.length (Insights.simulation payload) = List.length used
                    /\ Insights.forecast payload = prediction
                    /\ (Insights.given (Insights.initialCapital query) = false ->
                        Insights.summaryInitialCapital payload = ofZ 10000))
            /\ (forall lastBar,
                  nth_error used (List.length used - 1) = Some lastBar ->
                  validDay (date lastBar) = true ->
                  validDay (date lastBar
                            + Insights.forecastDays loopBound
                                (Insights.options Number query)) = true ->
                  exists payload,
                    Insights.insights sqrt Number loopBound generateMockHistory
                      fetched query
                    = Insights.Json payload
                    /\ Insights.history payload = used))).
Proof.
  split.
  - intros H. unfold Insights.insights. now rewrite H.
  - intros symbol used Hsym Hne Hused.
    assert (Hgiven : Insights.given (Insights.symbol query) = true).
    { rewrite Hsym. cbn. destruct (String.eqb_spec symbol ""); [contradiction | reflexivity]. }
    unfold Insights.insights. rewrite Hgiven, Hsym. cbn [negb].
    unfold Insights.computeSignals.
    set (history := if (List.length match fetched with Some h => h | None => [] end =? 0)%nat
                    then generateMockHistory symbol
                    else match fetched with Some h => h | None => [] end).
    assert (Eh : history = used).
    { subst history used. destruct fetched as [[|b rest]|]; reflexivity. }
    clearbody history. subst history. split.
    + intros ->. reflexivity.
    + intros Hu. destruct used as [|b rest] eqn:Eu; [congruence|].
      cbn [List.length Nat.eqb]. split; [|split].
      3:{ intros lastBar Hlast Hd Hend.
          destruct (@predictFuturePrices_returns N A (b :: rest)
                      (match Insights.o_indicator (Insights.options Number query) with
                       | Some i => i
                       | None => "sma"%string
                       end)
                      (match Insights.o_forecastModel (Insights.options Number query) with
                       | Some m => m
                       | None => "simple"%string
                       end)
                      (Insights.forecastDays loopBound (Insights.options Number query))
                      lastBar Hlast (or_intror (conj Hd Hend))) as [prediction Hp].
          unfold Insights.prediction. cbv zeta. rewrite Hp.
          eexists. split; reflexivity. }
      * intros e He. rewrite He. reflexivity.
      * intros prediction Hp. rewrite Hp. eexists. split; [reflexivity|].
        cbn [Insights.history Insights.signals Insights.simulation Insights.forecast
               Insights.summaryInitialCapital].
        split; [reflexivity|]. split; [apply backtestStrategy_length|].
        split; [|split; [reflexivity|]].
        -- unfold Backtesting.runTradingSimulation.
           now rewrite length_map, trading_replay_length.
        -- intros Hcap. unfold Insights.options. cbn [Insights.o_initialCapital].
           now rewrite Hcap.
Qed.

End InsightsResponses.

(** ** The price targets *)

Lemma exact_clamp_floor (v : Q) :
  (0 <= clamp v zero None)%Q /\ (v <= clamp v zero None)%Q
  /\ ((0 <= v)%Q -> clamp v zero None = v)
  /\ ((v < 0)%Q -> clamp v zero None = 0%Q).
Proof.
  unfold clamp, max2. rewrite exact_zero.
  destruct (v <? 0)%num eqn:E;
    [apply exact_ltb in E | apply exact_ltb_false in E];
    repeat split; intros; try reflexivity; try lra.
Qed.

Lemma last_is_nth_error (T : Type) (l : list T) (d : T) :
  l <> [] -> nth_error l (List.length l - 1) = Some (last l d).
Proof.
  intros H. destruct (exists_last H) as [l' [a E]]. subst l.
  rewrite last_last, length_app. cbn [List.length].
  replace (List.length l' + 1 - 1)%nat with (List.length l' + 0)%nat by lia.
  now rewrite nth_error_app2, Nat.add_0_r, Nat.sub_diag by lia.
Qed.

(** Over exact arithmetic: there are price targets exactly when the forecast
    is not empty; the base target is the last forecast value; the optimistic
    and the conservative target are never negative, even below a negative
    base; and for a base that is not negative they lie on either side of
    it. *)
Theorem priceTargets_around_base (prediction : list (ForecastPoint Q)) :
  (priceTargets prediction = None <-> prediction = [])
  /\ forall t, priceTargets prediction = Some t ->
       (exists p, nth_error prediction (List.length prediction - 1) = Some p
                  /\ base t = fvalue p)
       /\ (0 <= optimistic t)%Q /\ (0 <= conservative t)%Q
       /\ (conservative t <= optimistic t)%Q
       /\ ((0 <= base t)%Q -> (conservative t <= base t)%Q /\ (base t <= optimistic t)%Q)
       /\ ((base t < 0)%Q -> (optimistic t == 0)%Q /\ (conservative t == 0)%Q).
Proof.
  split.
  - destruct prediction; cbn; split; intros H; congruence.
  - intros t Ht. destruct prediction as [|p0 rest]; [discriminate|].
    unfold priceTargets in Ht. cbv zeta in Ht.
    assert (Hlast := @last_is_nth_error _ (p0 :: rest) p0 ltac:(discriminate)).
    set (lastPoint := last (p0 :: rest) p0) in *.
    set (lastValue := fvalue lastPoint) in *.
    assert (Hbase : lastValue = fvalue lastPoint) by reflexivity.
    clearbody lastValue lastPoint.
    assert (H108 : (dec 108 2 == 108 # 100)%Q) by reflexivity.
    assert (H92 : (dec 92 2 == 92 # 100)%Q) by reflexivity.
    change (lastValue * dec 108 2)%num with (lastValue * dec 108 2)%Q in Ht.
    change (lastValue * dec 92 2)%num with (lastValue * dec 92 2)%Q in Ht.
    set (up := (lastValue * dec 108 2)%Q) in *.
    set (down := (lastValue * dec 92 2)%Q) in *.
    assert (Hup : (up == lastValue * (108 # 100))%Q) by (subst up; now rewrite H108).
    assert (Hdown : (down == lastValue * (92 # 100))%Q) by (subst down; now rewrite H92).
    clearbody up down.
    destruct (exact_clamp_floor up) as (U0 & U1 & U2 & U3).
    destruct (exact_clamp_floor down) as (D0 & D1 & D2 & D3).
    set (cu := clamp up zero None) in *. set (cd := clamp down zero None) in *.
    clearbody cu cd.
    injection Ht as <-. cbn [base optimistic conservative].
    split.
    { exists lastPoint. split; [exact Hlast | exact Hbase]. }
    split; [exact U0|]. split; [exact D0|].
    split.
    { destruct (Qlt_le_dec lastValue 0) as [Hn|Hp].
      - rewrite U3, D3 by lra. lra.
      - rewrite U2, D2 by lra. lra. }
    split.
    { intros Hb. rewrite U2, D2 by lra. lra. }
    { intros Hb. rewrite U3, D3 by lra. split; reflexivity. }
Qed.

(** ** The synthetic history *)

Lemma next_range (value : Z) :
  (1 <= value < MockHistory.modulus)%Z ->
  (1 <= MockHistory.next value < MockHistory.modulus)%Z.
Proof.
  intros Hv. unfold MockHistory.next.
  assert (Hm : (0 < MockHistory.modulus)%Z) by reflexivity.
  pose proof (Z.mod_pos_bound (value * MockHistory.multiplier) _ Hm) as Hb.
  assert (Hnz : ((value * MockHistory.multiplier) mod MockHistory.modulus <> 0)%Z).
  { intros E. apply Z.mod_divide in E; [|discriminate].
    rewrite Z.mul_comm in E. apply Z.gauss in E; [|reflexivity].
    apply Z.divide_pos_le in E; lia. }
  lia.
Qed.

Lemma initialValue_range (symbol : string) :
  (1 <= MockHistory.initialValue symbol < MockHistory.modulus)%Z.
Proof.
  unfold MockHistory.initialValue.
  assert (Hm : (0 < MockHistory.modulus)%Z) by reflexivity.
  assert (Hs : (0 <= MockHistory.seedOf symbol < MockHistory.modulus)%Z)
    by (unfold MockHistory.seedOf; now apply Z.mod_pos_bound).
  destruct (MockHistory.seedOf symbol =? 0)%Z eqn:E.
  - split; [lia | reflexivity].
  - apply Z.eqb_neq in E. lia.
Qed.

Lemma exact_uniform_range (value : Z) :
  (1 <= value < MockHistory.modulus)%Z ->
  (0 <= MockHistory.uniform (N:=Q) value)%Q /\ (MockHistory.uniform (N:=Q) value < 1)%Q.
Proof.
  intros Hv. unfold MockHistory.uniform. cbn [ndiv ofZ ExactArith].
  assert (H0 : (0 <= inject_Z (value - 1))%Q)
    by (change 0%Q with (inject_Z 0); rewrite <- Zle_Qle; lia).
  assert (H1 : (inject_Z (value - 1) < inject_Z 2147483646)%Q)
    by (rewrite <- Zlt_Qlt; unfold MockHistory.modulus in Hv; lia).
  assert (Hd : (0 < inject_Z 2147483646)%Q) by reflexivity.
  split.
  - apply Qle_shift_div_l; [exact Hd | lra].
  - apply Qlt_shift_div_r; [exact Hd | lra].
Qed.

Lemma exact_bar (round : Q -> Q) (d value : Z) (price : Q) :
  (1 <= value < MockHistory.modulus)%Z -> (5 <= price)%Q ->
  (1 <= fst (fst (MockHistory.bar round d value price)) < MockHistory.modulus)%Z
  /\ snd (fst (MockHistory.bar round d value price))
     = close (snd (MockHistory.bar round d value price))
  /\ date (snd (MockHistory.bar round d value price)) = d
  /\ syntheticBar (snd (MockHistory.bar round d value price))
  /\ ((99 # 100) * price <= close (snd (MockHistory.bar round d value price)))%Q
  /\ (close (snd (MockHistory.bar round d value price)) <= (101 # 100) * price)%Q.
Proof.
  intros Hv Hp. unfold MockHistory.bar. cbv zeta.
  cbn [fst snd close date open high low].
  pose proof (@next_range value Hv) as H1. set (v1 := MockHistory.next value) in *.
  pose proof (@next_range v1 H1) as H2. set (v2 := MockHistory.next v1) in *.
  pose proof (@next_range v2 H2) as H3. set (v3 := MockHistory.next v2) in *.
  pose proof (@next_range v3 H3) as H4. set (v4 := MockHistory.next v3) in *.
  pose proof (@next_range v4 H4) as H5. set (v5 := MockHistory.next v4) in *.
  destruct (@exact_uniform_range v1 H1) as [L1 R1].
  destruct (@exact_uniform_range v2 H2) as [L2 R2].
  destruct (@exact_uniform_range v3 H3) as [L3 R3].
  destruct (@exact_uniform_range v4 H4) as [L4 R4].
  set (u1 := MockHistory.uniform v1) in *. set (u2 := MockHistory.uniform v2) in *.
  set (u3 := MockHistory.uniform v3) in *. set (u4 := MockHistory.uniform v4) in *.
  clearbody u1 u2 u3 u4 v1 v2 v3 v4 v5.
  split; [exact H5|]. split; [reflexivity|]. split; [reflexivity|].
  change (dec 5 1) with (5 # 10)%Q. change (dec 1 2) with (1 # 100)%Q.
  cbn [nadd nsub nmul ofZ ExactArith]. unfold inject_Z.
  set (price' := Math_max [_; _]).
  assert (Hprice : (5 <= price')%Q /\ ((99 # 100) * price <= price')%Q
                   /\ (price' <= (101 # 100) * price)%Q).
  { assert (M1 : (0 <= price * u1)%Q) by (apply Qmult_le_0_compat; lra).
    assert (M1' : (price * u1 <= price)%Q) by nra.
    subst price'. unfold Math_max, fold_left, max2.
    destruct (_ <? _)%num eqn:E;
      [apply exact_ltb in E | apply exact_ltb_false in E];
      repeat split; nra. }
  clearbody price'. destruct Hprice as (P5 & Plow & Phigh).
  set (hi := (price' * (1 + u2 * (1 # 100)))%Q).
  set (lo := (price' * (1 - u3 * (1 # 100)))%Q).
  set (op := (price' * (1 + (u4 - (5 # 10)) * (1 # 100)))%Q).
  assert (M2 : (0 <= price' * u2)%Q) by (apply Qmult_le_0_compat; lra).
  assert (M2' : (price' * u2 <= price')%Q) by nra.
  assert (M3 : (0 <= price' * u3)%Q) by (apply Qmult_le_0_compat; lra).
  assert (M3' : (price' * u3 <= price')%Q) by nra.
  assert (M4 : (0 <= price' * u4)%Q) by (apply Qmult_le_0_compat; lra).
  assert (M4' : (price' * u4 <= price')%Q) by nra.
  assert (Hhi : (price' <= hi)%Q /\ (hi <= (101 # 100) * price')%Q)
    by (subst hi; split; nra).
  assert (Hlo : ((99 # 100) * price' <= lo)%Q /\ (lo <= price')%Q)
    by (subst lo; split; nra).
  assert (Hop : ((99 # 100) * price' <= op)%Q /\ (op <= (101 # 100) * price')%Q)
    by (subst op; split; nra).
  clearbody hi lo op. clear M2 M2' M3 M3' M4 M4'.
  destruct Hhi as [Hhi Hhi']. destruct Hlo as [Hlo Hlo']. destruct Hop as [Hop Hop'].
  split; [|split; assumption].
  unfold syntheticBar. cbn [close open high low].
  unfold Math_max, Math_min, fold_left, max2, min2.
  destruct (lo <? op)%num eqn:A1;
    [apply exact_ltb in A1 | apply exact_ltb_false in A1];
    (destruct (op <? hi)%num eqn:A2;
     [apply exact_ltb in A2 | apply exact_ltb_false in A2]);
    repeat match goal with
           | |- context [(?a <? ?b)%num] =>
               let E := fresh "E" in
               destruct (a <? b)%num eqn:E;
               [apply exact_ltb in E | apply exact_ltb_false in E]
           end;
    repeat split; lra.
Qed.

Section SyntheticDates.

Context {N : Type} {A : Arith N}.

Variable round : N -> N.

Lemma generate_dates (endDate : Z) (offsets : list nat) (value : Z) (price : N) :
  map (@date N) (MockHistory.generate round endDate value price offsets)
  = filter (fun d => negb (MockHistory.weekend d))
           (map (fun i => (endDate - Z.of_nat i)%Z) offsets).
Proof.
  revert value price; induction offsets as [|i rest IH]; intros value price;
    cbn [MockHistory.generate map filter]; [reflexivity|].
  destruct (MockHistory.weekend (endDate - Z.of_nat i)); cbn [negb]; [apply IH|].
  destruct (MockHistory.bar round (endDate - Z.of_nat i) value price)
    as [[value' price'] row] eqn:Eb.
  cbn [map]. rewrite IH. f_equal.
  unfold MockHistory.bar in Eb. cbv zeta in Eb. injection Eb as _ _ <-. reflexivity.
Qed.

End SyntheticDates.

Lemma weekend_before (z : Z) (j : Z) :
  MockHistory.weekend (z - j)
  = (((MockHistory.getDay z - j) mod 7 =? 0)%Z || ((MockHistory.getDay z - j) mod 7 =? 6)%Z).
Proof.
  unfold MockHistory.weekend, MockHistory.getDay.
  rewrite Zminus_mod_idemp_l.
  replace (z - j + 4)%Z with (z + 4 - j)%Z by lia. reflexivity.
Qed.

Lemma five_weekdays_a_week (endDate : Z) (n : nat) :
  List.length (filter (fun d => negb (MockHistory.weekend d))
                      (map (fun i => (endDate - Z.of_nat i)%Z) (rev (seq n 7))))
  = 5%nat.
Proof.
  assert (E : map (fun i => (endDate - Z.of_nat i)%Z) (rev (seq n 7))
              = map (fun j => (endDate - Z.of_nat n - j)%Z) [6; 5; 4; 3; 2; 1; 0]%Z).
  { cbn [seq rev app map]. repeat (f_equal; try lia). }
  rewrite E. cbn [map filter]. rewrite !weekend_before.
  assert (Hg : (0 <= MockHistory.getDay (endDate - Z.of_nat n) < 7)%Z)
    by (unfold MockHistory.getDay; apply Z.mod_pos_bound; lia).
  set (g := MockHistory.getDay (endDate - Z.of_nat n)) in *. clearbody g.
  assert (Hcases : (g = 0 \/ g = 1 \/ g = 2 \/ g = 3 \/ g = 4 \/ g = 5 \/ g = 6)%Z) by lia.
  destruct Hcases as [-> | [-> | [-> | [-> | [-> | [-> | ->]]]]]]; reflexivity.
Qed.

Lemma whole_weeks (endDate : Z) (weeks : nat) :
  List.length (filter (fun d => negb (MockHistory.weekend d))
                      (visitedDays endDate (7 * weeks)))
  = (5 * weeks)%nat.
Proof.
  unfold visitedDays. induction weeks as [|k IH]; [reflexivity|].
  replace (7 * S k)%nat with (7 * k + 7)%nat by lia.
  rewrite seq_app, rev_app_distr, map_app, filter_app, length_app, IH.
  rewrite five_weekdays_a_week. lia.
Qed.

Lemma exact_generate (round : Q -> Q) (endDate : Z) (offsets : list nat)
  (value : Z) (price : Q) :
  (1 <= value < MockHistory.modulus)%Z -> (5 <= price)%Q ->
  Forall syntheticBar (MockHistory.generate round endDate value price offsets)
  /\ gentle price (map (@close Q) (MockHistory.generate round endDate value price offsets)).
Proof.
  revert value price; induction offsets as [|i rest IH]; intros value price Hv Hp;
    cbn [MockHistory.generate].
  - split; [constructor | exact I].
  - destruct (MockHistory.weekend (endDate - Z.of_nat i)); [now apply IH|].
    pose proof (@exact_bar round (endDate - Z.of_nat i)%Z value price Hv Hp) as Hbar.
    destruct (MockHistory.bar round (endDate - Z.of_nat i) value price)
      as [[value' price'] row].
    cbn [fst snd] in Hbar. destruct Hbar as (Hv' & Hc & _ & Hrow & Hlow & Hhigh).
    subst price'.
    assert (Hp' : (5 <= close row)%Q) by apply Hrow.
    destruct (IH value' (close row) Hv' Hp') as [Hall Hgentle].
    split; [constructor; assumption|].
    cbn [map gentle]. repeat split; assumption.
Qed.

(** Over exact arithmetic, for every symbol, number of periods, end date
    and rounding of the volume: every bar of the synthetic history has a
    close of at least 5, a low and a high that enclose the open and the
    close and lie within one per cent of the close; the first close is
    within one per cent of a starting price in [100, 120), and each later
    close within one per cent of the close before it. *)
Theorem generateMockHistory_bars (round : Q -> Q) (endDate : Z) (symbol : string)
  (periods : nat) :
  Forall syntheticBar (MockHistory.generateMockHistory round endDate symbol periods)
  /\ exists first : Q,
       (100 <= first)%Q /\ (first < 120)%Q
       /\ gentle first
            (map (@close Q) (MockHistory.generateMockHistory round endDate symbol periods)).
Proof.
  unfold MockHistory.generateMockHistory. cbv zeta.
  pose proof (@next_range _ (initialValue_range symbol)) as Hv.
  set (v0 := MockHistory.next (MockHistory.initialValue symbol)) in *.
  destruct (@exact_uniform_range v0 Hv) as [L R].
  set (u := MockHistory.uniform v0) in *. clearbody u v0.
  cbn [nadd nmul ofZ ExactArith]. unfold inject_Z.
  set (first := ((100 # 1) + u * (20 # 1))%Q).
  assert (Hfirst : (100 <= first)%Q /\ (first < 120)%Q) by (subst first; split; lra).
  clearbody first. destruct Hfirst as [F0 F1].
  destruct (@exact_generate round endDate (rev (seq 0 periods)) v0 first Hv) as [Hall Hg];
    [lra|].
  split; [exact Hall|]. exists first. repeat split; assumption.
Qed.

Section SyntheticCalendar.

Context {N : Type} {A : Arith N}.

(** For every arithmetic, symbol, end date and rounding: the dates of the
    synthetic history are, in order, the days of the last [periods] days
    (the end date included) that are not a Saturday or a Sunday; so there
    are at most [periods] bars, none on a weekend, and exactly 5 bars for
    each 7 periods asked for. *)
Theorem generateMockHistory_skips_weekends (round : N -> N) (endDate : Z)
  (symbol : string) (periods : nat) :
  map (@date N) (MockHistory.generateMockHistory round endDate symbol periods)
  = filter (fun d => negb (MockHistory.weekend d)) (visitedDays endDate periods)
  /\ Forall (fun b => MockHistory.weekend (date b) = false)
            (MockHistory.generateMockHistory round endDate symbol periods)
  /\ (List.length (MockHistory.generateMockHistory round endDate symbol periods)
      <= periods)%nat
  /\ List.length (MockHistory.generateMockHistory round endDate symbol (7 * periods))
     = (5 * periods)%nat.
Proof.
  assert (Hdates : forall n,
            map (@date N) (MockHistory.generateMockHistory round endDate symbol n)
            = filter (fun d => negb (MockHistory.weekend d)) (visitedDays endDate n)).
  { intros n. unfold MockHistory.generateMockHistory. cbv zeta. apply generate_dates. }
  split; [apply Hdates|]. split; [|split].
  - assert (H : Forall (fun d => MockHistory.weekend d = false)
                       (map (@date N)
                            (MockHistory.generateMockHistory round endDate symbol periods))).
    { rewrite Hdates. apply Forall_forall. intros d Hd.
      apply filter_In in Hd. destruct Hd as [_ Hd]. now apply negb_true_iff in Hd. }
    rewrite Forall_map in H. exact H.
  - rewrite <- (length_map (@date N)), Hdates.
    eapply Nat.le_trans; [apply filter_length_le|].
    unfold visitedDays. now rewrite length_map, length_rev, length_seq.
  - rewrite <- (length_map (@date N)), Hdates. apply whole_weeks.
Qed.

End SyntheticCalendar.

(** ** The strategy lab's run *)

Section LabEquity.

Context {N : Type} {A : Arith N}.

Variables stopLossPct takeProfitPct : N.

Lemma lab_step_pushes (signals : list Signal) (st : AdvancedBacktest.State N)
  (idx : nat) (row : PriceBar N) :
  exists v,
    AdvancedBacktest.equity
      (AdvancedBacktest.step stopLossPct takeProfitPct signals st idx row)
    = AdvancedBacktest.equity st ++ [mkPoint (date row) v]
    /\ v = (AdvancedBacktest.cash
              (AdvancedBacktest.step stopLossPct takeProfitPct signals st idx row)
            + AdvancedBacktest.shares
                (AdvancedBacktest.step stopLossPct takeProfitPct signals st idx row)
              * close row)%num.
Proof.
  unfold AdvancedBacktest.step.
  cbn [AdvancedBacktest.equity AdvancedBacktest.cash AdvancedBacktest.shares].
  eexists. split; [|reflexivity]. f_equal.
  unfold AdvancedBacktest.act, AdvancedBacktest.protect.
  repeat match goal with
         | |- context [if ?c then _ else _] => destruct c
         end; reflexivity.
Qed.

Lemma lab_liquidate_equity (points : list (PriceBar N)) (st : AdvancedBacktest.State N) :
  AdvancedBacktest.equity (AdvancedBacktest.liquidate points st)
  = AdvancedBacktest.equity st.
Proof.
  unfold AdvancedBacktest.liquidate.
  repeat match goal with
         | |- context [if ?c then _ else _] => destruct c
         | |- context [match ?l with [] => _ | _ :: _ => _ end] => destruct l
         end; reflexivity.
Qed.

Lemma lab_replay_equity_dates (signals : list Signal) (points : list (PriceBar N))
  (st : AdvancedBacktest.State N) (idx : nat) :
  map (@pdate N)
      (AdvancedBacktest.equity
         (last (st :: AdvancedBacktest.replay stopLossPct takeProfitPct
                        signals st idx points) st))
  = map (@pdate N) (AdvancedBacktest.equity st) ++ map (@date N) points.
Proof.
  revert st idx; induction points as [|row points IH]; intros st idx.
  - cbn. now rewrite app_nil_r.
  - cbn [AdvancedBacktest.replay].
    set (st' := AdvancedBacktest.step stopLossPct takeProfitPct signals st idx row).
    transitivity (map (@pdate N) (AdvancedBacktest.equity
                    (last (st' :: AdvancedBacktest.replay stopLossPct takeProfitPct
                                    signals st' (S idx) points) st'))).
    + f_equal. f_equal. cbn [last]. apply last_nonempty.
    + rewrite IH. subst st'.
      destruct (lab_step_pushes signals st idx row) as [v [E _]]. rewrite E.
      rewrite map_app. cbn [map pdate]. now rewrite <- app_assoc.
Qed.

Lemma lab_equity_dates (points : list (PriceBar N)) (signals : list Signal)
  (initialCapital : N) :
  map (@pdate N)
      (fst (AdvancedBacktest.runSimulation stopLossPct takeProfitPct
              points signals initialCapital))
  = map (@date N) points.
Proof.
  unfold AdvancedBacktest.runSimulation, AdvancedBacktest.states. cbn [fst].
  rewrite last_last, lab_liquidate_equity, lab_replay_equity_dates. reflexivity.
Qed.

End LabEquity.

Lemma exact_replay_equity (stopLossPct takeProfitPct : Q) (signals : list Signal)
  (points : list (PriceBar Q)) (st : AdvancedBacktest.State Q) (idx : nat) :
  (forall b, In b points -> (0 < close b)%Q) ->
  (0 <= AdvancedBacktest.cash st)%Q -> (0 <= AdvancedBacktest.shares st)%Q ->
  Forall (fun p => (0 <= value p)%Q) (AdvancedBacktest.equity st) ->
  Forall (fun p => (0 <= value p)%Q)
         (AdvancedBacktest.equity
            (last (st :: AdvancedBacktest.replay stopLossPct takeProfitPct
                           signals st idx points) st)).
Proof.
  revert st idx; induction points as [|row points IH]; intros st idx Hpos Hc Hs He.
  - exact He.
  - cbn [AdvancedBacktest.replay].
    set (st' := AdvancedBacktest.step stopLossPct takeProfitPct signals st idx row).
    assert (Hrow : (0 < close row)%Q) by (apply Hpos; now left).
    destruct (@exact_step_keeps stopLossPct takeProfitPct signals st idx row Hrow
                (conj Hc Hs)) as [Hc' Hs'].
    fold st' in Hc', Hs'.
    destruct (lab_step_pushes stopLossPct takeProfitPct signals st idx row) as [v [E Hv]].
    fold st' in E, Hv.
    assert (He' : Forall (fun p => (0 <= value p)%Q) (AdvancedBacktest.equity st')).
    { rewrite E. apply Forall_app. split; [exact He|]. constructor; [|constructor].
      cbn [value]. rewrite Hv. cbn [nadd nmul ExactArith]. nra. }
    replace (last (st :: st' :: AdvancedBacktest.replay stopLossPct takeProfitPct
                                  signals st' (S idx) points) st)
      with (last (st' :: AdvancedBacktest.replay stopLossPct takeProfitPct
                           signals st' (S idx) points) st')
      by (cbn [last]; apply last_nonempty).
    apply IH; try assumption. intros b Hb. apply Hpos. now right.
Qed.

Lemma exact_equity_nonneg (stopLossPct takeProfitPct : Q) (points : list (PriceBar Q))
  (signals : list Signal) (initialCapital : Q) :
  (0 <= initialCapital)%Q ->
  (forall b, In b points -> (0 < close b)%Q) ->
  Forall (fun p => (0 <= value p)%Q)
         (fst (AdvancedBacktest.runSimulation stopLossPct takeProfitPct
                 points signals initialCapital)).
Proof.
  intros Hcap Hpos.
  unfold AdvancedBacktest.runSimulation, AdvancedBacktest.states. cbn [fst].
  rewrite last_last, lab_liquidate_equity.
  apply exact_replay_equity; [exact Hpos | exact Hcap | apply Qle_refl | constructor].
Qed.

Lemma exact_capital (x : Q) :
  ((x <= 0)%Q -> (max2 (Lab.orZero x) zero <=? zero)%num = true)
  /\ ((0 < x)%Q -> max2 (Lab.orZero x) zero = x
                   /\ (max2 (Lab.orZero x) zero <=? zero)%num = false).
Proof.
  unfold Lab.orZero, truthy, max2. split; intros H.
  - destruct (x =? zero)%num eqn:E0; cbn [negb andb].
    + change (zero <? zero)%num with false. cbv iota. reflexivity.
    + apply exact_eqb_false in E0. rewrite exact_zero in E0.
      assert (Ex : (x =? x)%num = true) by (apply exact_eqb; apply Qeq_refl).
      rewrite Ex.
      assert (El : (x <? zero)%num = true).
      { apply exact_ltb. rewrite exact_zero.
        destruct (Qlt_le_dec x 0) as [Hl|Hg]; [exact Hl|].
        exfalso. apply E0. now apply Qle_antisym. }
      rewrite El. reflexivity.
  - assert (E0 : (x =? zero)%num = false).
    { apply exact_eqb_false. rewrite exact_zero. lra. }
    assert (Ex : (x =? x)%num = true) by (apply exact_eqb; apply Qeq_refl).
    assert (El : (x <? zero)%num = false).
    { apply exact_ltb_false. rewrite exact_zero. lra. }
    rewrite E0, Ex. cbn [negb andb]. rewrite El. split; [reflexivity|].
    destruct (x <=? zero)%num eqn:E; [|reflexivity].
    apply exact_leb in E. rewrite exact_zero in E. lra.
Qed.

Lemma exact_lastValue_nonneg (equity : list (ValuePoint Q)) :
  Forall (fun p => (0 <= value p)%Q) equity -> (0 <= Lab.lastValue equity)%Q.
Proof.
  intros H. unfold Lab.lastValue. destruct equity as [|p rest]; [apply Qle_refl|].
  rewrite Forall_forall in H. apply H.
  destruct (exists_last (l := p :: rest)) as [l' [a E]]; [discriminate|].
  rewrite E, last_last. apply in_or_app. right. now left.
Qed.

(** Over exact arithmetic, for every run of the lab: it fails with the
    capital message exactly when the capital entered is zero or negative,
    and with the history message exactly when the capital is positive and
    the target history is empty; otherwise the chart has one row per target
    bar, dated like the bars and in their order, and the maximum drawdown
    reported is at most 0; and when every target close is positive, no
    chart value and no final value is negative, the total return is at
    least -100 and so is the maximum drawdown. *)
Theorem handleRun_outcomes (sqrt : Q -> Q) (initialCapital stopLoss takeProfit : Q)
  (indicator : string) (targetPoints benchmarkPoints : list (PriceBar Q)) :
  (Lab.handleRun sqrt initialCapital stopLoss takeProfit indicator
                 targetPoints benchmarkPoints = inl Lab.CapitalNotPositive
   <-> (initialCapital <= 0)%Q)
  /\ (Lab.handleRun sqrt initialCapital stopLoss takeProfit indicator
                    targetPoints benchmarkPoints = inl Lab.NoPriceHistory
      <-> (0 < initialCapital)%Q /\ targetPoints = [])
  /\ forall r,
       Lab.handleRun sqrt initialCapital stopLoss takeProfit indicator
                     targetPoints benchmarkPoints = inr r ->
       (0 < initialCapital)%Q /\ targetPoints <> []
       /\ map (@Lab.cdate Q) (Lab.chart r) = map (@date Q) targetPoints
       /\ (Lab.maxDrawdownPct (Lab.metrics r) <= 0)%Q
       /\ ((forall b, In b targetPoints -> (0 < close b)%Q) ->
           Forall (fun row => (0 <= Lab.strategy row)%Q) (Lab.chart r)
           /\ (0 <= Lab.finalValue (Lab.metrics r))%Q
           /\ (-100 <= Lab.totalReturn (Lab.metrics r))%Q
           /\ (-100 <= Lab.maxDrawdownPct (Lab.metrics r))%Q).
Proof.
  unfold Lab.handleRun. cbv zeta.
  destruct (exact_capital initialCapital) as [Hneg Hpos].
  destruct (Qlt_le_dec 0 initialCapital) as [Hc|Hc].
  - destruct (Hpos Hc) as [Ecap Etest]. rewrite Etest, Ecap. clear Hneg Hpos Ecap Etest.
    destruct (List.length targetPoints =? 0)%nat eqn:El.
    + apply Nat.eqb_eq in El. apply length_zero_iff_nil in El. split; [|split].
      * split; [discriminate | intros H; lra].
      * split; [intros _; split; [exact Hc | exact El] | reflexivity].
      * intros r H. discriminate.
    + assert (Hne : targetPoints <> []) by (intros ->; discriminate).
      set (signals := fst (backtestStrategy sqrt targetPoints indicator)).
      set (sim := AdvancedBacktest.runSimulation (Lab.orZero stopLoss)
                    (Lab.orZero takeProfit) targetPoints signals initialCapital).
      set (benchmarkSim := AdvancedBacktest.runSimulation zero zero benchmarkPoints _ _).
      assert (Hdates := lab_equity_dates (Lab.orZero stopLoss) (Lab.orZero takeProfit)
                          targetPoints signals initialCapital).
      fold sim in Hdates.
      assert (Hdd : (AdvancedBacktest.maxDrawdown (fst sim) <= 0)%Q).
      { unfold AdvancedBacktest.maxDrawdown. apply drawdown_loop_nonpositive.
        apply Qle_refl. }
      assert (Hnn : (forall b, In b targetPoints -> (0 < close b)%Q) ->
                    Forall (fun p => (0 <= value p)%Q) (fst sim)).
      { intros Hcloses. subst sim. apply exact_equity_nonneg; [lra | exact Hcloses]. }
      clearbody sim benchmarkSim. clear El.
      split; [|split].
      * split; [discriminate | intros H; lra].
      * split; [discriminate | intros [_ H]; contradiction].
      * intros r H. injection H as <-.
        cbn [Lab.chart Lab.metrics Lab.maxDrawdownPct Lab.finalValue Lab.totalReturn].
        split; [exact Hc|]. split; [exact Hne|].
        split; [rewrite map_map; cbn [Lab.cdate]; exact Hdates|].
        split; [cbn [nmul ofZ ExactArith]; unfold inject_Z; lra|].
        intros Hcloses. specialize (Hnn Hcloses).
        assert (Hfinal := exact_lastValue_nonneg Hnn).
        assert (Hfloor : (-1 <= AdvancedBacktest.maxDrawdown (fst sim))%Q).
        { unfold AdvancedBacktest.maxDrawdown. apply exact_drawdown_loop_floor.
          - intros p Hp. rewrite Forall_forall in Hnn. now apply Hnn.
          - discriminate.
          - rewrite exact_zero. lra. }
        split; [|split; [exact Hfinal|split]].
        -- apply Forall_map. cbn [Lab.strategy]. exact Hnn.
        -- cbn [nmul nsub ndiv ofZ ExactArith]. unfold inject_Z.
           assert (Hq : (0 <= Lab.lastValue (fst sim) / initialCapital)%Q)
             by (apply Qle_shift_div_l; lra).
           set (q := (Lab.lastValue (fst sim) / initialCapital)%Q) in *. clearbody q.
           lra.
        -- cbn [nmul ofZ ExactArith]. unfold inject_Z. lra.
  - rewrite (Hneg Hc). split; [|split].
    + split; [intros _; exact Hc | reflexivity].
    + split; [discriminate | intros [H _]; lra].
    + intros r H. discriminate.
Qed.

(** ** The regression forecast of a linear history *)

Lemma exact_ofnat_S (n : nat) : (ofnat (N:=Q) (S n) == ofnat n + 1)%Q.
Proof.
  unfold ofnat. cbn [ofZ ExactArith].
  rewrite Nat2Z.inj_succ. unfold Z.succ. rewrite inject_Z_plus. reflexivity.
Qed.

Lemma exact_regression_sums_line (a b : Q) (points : list Q) (i : nat)
  (sumX sumY sumXY sumXX : Q) :
  (forall k y, nth_error points k = Some y -> (y == a + b * ofnat (i + k))%Q) ->
  (fst (fst (fst (regression_sums i points sumX sumY sumXY sumXX)))
   == sumX + (ofnat (List.length points) * ofnat i
              + ofnat (List.length points) * (ofnat (List.length points) - 1) / 2))%Q
  /\ (snd (fst (fst (regression_sums i points sumX sumY sumXY sumXX)))
      == sumY + a * ofnat (List.length points)
         + b * (ofnat (List.length points) * ofnat i
                + ofnat (List.length points) * (ofnat (List.length points) - 1) / 2))%Q
  /\ (snd (fst (regression_sums i points sumX sumY sumXY sumXX))
      == sumXY
         + a * (ofnat (List.length points) * ofnat i
                + ofnat (List.length points) * (ofnat (List.length points) - 1) / 2)
         + b * (ofnat (List.length points) * ofnat i * ofnat i
                + ofnat i * ofnat (List.length points) * (ofnat (List.length points) - 1)
                + (ofnat (List.length points) - 1) * ofnat (List.length points)
                  * (2 * ofnat (List.length points) - 1) / 6))%Q
  /\ (snd (regression_sums i points sumX sumY sumXY sumXX)
      == sumXX
         + (ofnat (List.length points) * ofnat i * ofnat i
            + ofnat i * ofnat (List.length points) * (ofnat (List.length points) - 1)
            + (ofnat (List.length points) - 1) * ofnat (List.length points)
              * (2 * ofnat (List.length points) - 1) / 6))%Q.
Proof.
  revert i sumX sumY sumXY sumXX.
  induction points as [|y points IH]; intros i sumX sumY sumXY sumXX H.
  - cbn [regression_sums List.length fst snd].
    change (ofnat (N:=Q) 0) with 0%Q. repeat split; field.
  - cbn [regression_sums List.length].
    assert (Hy : (y == a + b * ofnat i)%Q).
    { rewrite (H 0%nat y eq_refl). now rewrite Nat.add_0_r. }
    assert (Hrest : forall k y', nth_error points k = Some y' ->
                                 (y' == a + b * ofnat (S i + k))%Q).
    { intros k y' Hk. rewrite (H (S k) y' Hk).
      now replace (i + S k)%nat with (S i + k)%nat by lia. }
    specialize (IH (S i) (sumX + ofnat i)%num (sumY + y)%num
                   (sumXY + ofnat i * y)%num (sumXX + ofnat i * ofnat i)%num Hrest).
    destruct (regression_sums (S i) points (sumX + ofnat i)%num (sumY + y)%num
                (sumXY + ofnat i * y)%num (sumXX + ofnat i * ofnat i)%num)
      as [[[sx sy] sxy] sxx].
    cbn [fst snd] in *. destruct IH as (H1 & H2 & H3 & H4).
    cbn [nadd nmul ExactArith] in H1, H2, H3, H4.
    pose proof (exact_ofnat_S (List.length points)) as Hn.
    pose proof (exact_ofnat_S i) as Hm.
    set (n := ofnat (N:=Q) (List.length points)) in *.
    set (n' := ofnat (N:=Q) (S (List.length points))) in *.
    set (m := ofnat (N:=Q) i) in *.
    set (m' := ofnat (N:=Q) (S i)) in *.
    clearbody n n' m m'.
    repeat split;
      [rewrite H1 | rewrite H2 | rewrite H3 | rewrite H4];
      rewrite ?Hy, Hn, Hm; field.
Qed.

Lemma exact_linearRegression_line (a b : Q) (points : list Q) :
  (2 <= List.length points)%nat ->
  (forall k y, nth_error points k = Some y -> (y == a + b * ofnat k)%Q) ->
  (slope (linearRegression points) == b)%Q
  /\ (intercept (linearRegression points) == a)%Q.
Proof.
  intros Hlen H. unfold linearRegression.
  destruct (List.length points =? 0)%nat eqn:E.
  { apply Nat.eqb_eq in E. lia. }
  clear E.
  destruct (@exact_regression_sums_line a b points 0 zero zero zero zero H)
    as (HX & HY & HXY & HXX).
  destruct (regression_sums 0 points zero zero zero zero) as [[[sumX sumY] sumXY] sumXX].
  cbn [fst snd] in HX, HY, HXY, HXX. rewrite exact_zero in HX, HY, HXY, HXX.
  change (ofnat (N:=Q) 0) with 0%Q in HX, HY, HXY, HXX.
  assert (Hn : (2 <= ofnat (N:=Q) (List.length points))%Q).
  { unfold ofnat. cbn [ofZ ExactArith]. change 2%Q with (inject_Z 2).
    rewrite <- Zle_Qle. lia. }
  set (n := ofnat (N:=Q) (List.length points)) in *. clearbody n.
  assert (HX' : (sumX == n * (n - 1) / 2)%Q) by (rewrite HX; field).
  assert (HXX' : (sumXX == (n - 1) * n * (2 * n - 1) / 6)%Q) by (rewrite HXX; field).
  assert (HY' : (sumY == a * n + b * sumX)%Q) by (rewrite HY, HX'; field).
  assert (HXY' : (sumXY == a * sumX + b * sumXX)%Q) by (rewrite HXY, HX', HXX'; field).
  clear HX HY HXY HXX.
  set (denominator := (n * sumXX - sumX * sumX)%Q).
  assert (Hden : (denominator == n * n * ((n - 1) * (n + 1)) * (1 # 12))%Q)
    by (subst denominator; rewrite HX', HXX'; field).
  assert (Hpos : (0 < denominator)%Q).
  { rewrite Hden.
    assert (H1 : (0 < n * n)%Q) by (apply Qmult_lt_0_compat; lra).
    assert (H2 : (0 < (n - 1) * (n + 1))%Q) by (apply Qmult_lt_0_compat; lra).
    assert (H3 : (0 < n * n * ((n - 1) * (n + 1)))%Q) by (apply Qmult_lt_0_compat; assumption).
    set (t := (n * n * ((n - 1) * (n + 1)))%Q) in *. clearbody t. lra. }
  assert (Hnum : (n * sumXY - sumX * sumY == b * denominator)%Q)
    by (subst denominator; rewrite HXY', HY'; ring).
  cbn [nsub nmul ndiv ExactArith]. fold denominator.
  assert (Hslope : ((if (denominator =? zero)%num then zero
                     else (n * sumXY - sumX * sumY) / denominator) == b)%Q).
  { destruct (denominator =? zero)%num eqn:E.
    - apply exact_eqb in E. rewrite exact_zero in E. lra.
    - rewrite Hnum. field. lra. }
  cbn [slope intercept]. split; [exact Hslope|].
  rewrite Hslope, HY'. field. lra.
Qed.

(** Over exact arithmetic: on a history of at least two bars whose closes
    lie on a line, close number k (from 0) being a + b k, linearRegression
    finds the slope b and the intercept a, and a returned 'arima' forecast
    has [days] points of which the one at position k (from 0), the point
    for day k + 1 after the last bar, is a + b (n + k + 1) for the n bars
    of the history: the value of the line at position n + k + 1, the last
    bar being at position n - 1. *)
Theorem arima_forecast_of_a_line (a b : Q) (points : list (PriceBar Q))
  (indicator : string) (days : Z) (forecast : list (ForecastPoint Q)) :
  (2 <= List.length points)%nat ->
  (forall k p, nth_error points k = Some p ->
               (close p == a + b * inject_Z (Z.of_nat k))%Q) ->
  predictFuturePrices points indicator "arima" days = inr forecast ->
  (slope (linearRegression (map (@close Q) points)) == b)%Q
  /\ (intercept (linearRegression (map (@close Q) points)) == a)%Q
  /\ List.length forecast = Z.to_nat days
  /\ forall k p, nth_error forecast k = Some p ->
       (fvalue p
        == a + b * inject_Z (Z.of_nat (List.length points) + Z.of_nat (S k)))%Q.
Proof.
  intros Hlen Hline Hret.
  assert (Hcloses : forall k y, nth_error (map (@close Q) points) k = Some y ->
                                (y == a + b * ofnat k)%Q).
  { intros k y Hk. rewrite nth_error_map in Hk.
    destruct (nth_error points k) as [p|] eqn:Ep; [|discriminate].
    injection Hk as <-. exact (Hline k p Ep). }
  assert (Hlen' : (2 <= List.length (map (@close Q) points))%nat)
    by now rewrite length_map.
  destruct (@exact_linearRegression_line a b _ Hlen' Hcloses) as [Hs Hi].
  split; [exact Hs|]. split; [exact Hi|].
  unfold predictFuturePrices in Hret. rewrite exact_filter_finite in Hret.
  destruct (List.length (map (@close Q) points) =? 0)%nat eqn:E.
  { apply Nat.eqb_eq in E. lia. }
  cbv zeta in Hret. cbn [String.eqb Ascii.eqb Bool.eqb andb] in Hret.
  apply project_returned in Hret. subst forecast.
  split.
  - unfold horizon. now rewrite !length_map, length_seq.
  - intros k p Hp. rewrite nth_error_map in Hp.
    destruct (nth_error (horizon days) k) as [i|] eqn:Ei; [|discriminate].
    injection Hp as <-. apply horizon_nth in Ei. subst i.
    cbn [fvalue]. rewrite Hs, Hi. cbn [nadd nmul ofZ ofnat ExactArith].
    rewrite inject_Z_plus, length_map. ring.
Qed.

(** ** What a graduated trade is worth *)

(** Over exact arithmetic, at a bar whose close is positive and from a
    share count that is not negative: a buy or a sell of the graduated
    simulator never raises what the portfolio is worth at that bar's close,
    it leaves it unchanged whenever shares remain after the bar, and when a
    sell leaves no share it writes off at most one millionth of a share at
    that close. *)
Theorem runTradingSimulation_trades_at_the_close (signals : list Signal)
  (st : Backtesting.State Q) (index : nat) (row : PriceBar Q) :
  (0 < close row)%Q -> (0 <= Backtesting.shares st)%Q ->
  (Backtesting.cash (Backtesting.trade signals st index row)
   + Backtesting.shares (Backtesting.trade signals st index row) * close row
   <= Backtesting.cash st + Backtesting.shares st * close row)%Q
  /\ (Backtesting.cash st + Backtesting.shares st * close row
      - (1 # 1000000) * close row
      <= Backtesting.cash (Backtesting.trade signals st index row)
         + Backtesting.shares (Backtesting.trade signals st index row) * close row)%Q
  /\ (~ (Backtesting.shares (Backtesting.trade signals st index row) == 0)%Q ->
      (Backtesting.cash (Backtesting.trade signals st index row)
       + Backtesting.shares (Backtesting.trade signals st index row) * close row
       == Backtesting.cash st + Backtesting.shares st * close row)%Q).
Proof.
  intros Hp Hs. unfold Backtesting.trade.
  destruct (exact_weightOf_range (Backtesting.signalAt signals index)) as [Hw0 Hw1].
  set (w := Backtesting.weightOf (Backtesting.signalAt signals index)) in *.
  clearbody w.
  destruct (_ && _).
  - cbn [Backtesting.cash Backtesting.shares nadd nsub nmul ndiv ExactArith].
    assert (E : (Backtesting.cash st - Backtesting.cash st * w
                 + (Backtesting.shares st + Backtesting.cash st * w / close row) * close row
                 == Backtesting.cash st + Backtesting.shares st * close row)%Q)
      by (field; lra).
    split; [rewrite E; apply Qle_refl|].
    split; [rewrite E; lra | intros _; exact E].
  - destruct (_ && _).
    + cbn [nadd nsub nmul ExactArith]. change (dec 1 6) with (1 # 1000000)%Q.
      assert (Hsold : (0 <= Backtesting.shares st * w)%Q) by now apply Qmult_le_0_compat.
      assert (Hkept : (Backtesting.shares st * w <= Backtesting.shares st)%Q) by nra.
      set (toSell := (Backtesting.shares st * w)%Q) in *. clearbody toSell.
      destruct (_ <=? _)%num eqn:E;
        cbn [Backtesting.cash Backtesting.shares].
      * apply exact_leb in E. rewrite exact_zero.
        split; [nra|]. split; [nra|]. intros H. exfalso. apply H. reflexivity.
      * split; [nra|]. split; [nra|]. intros _. ring.
    + split; [apply Qle_refl|]. split; [lra | intros _; reflexivity].
Qed.

(** ** The Ichimoku lines *)

Section IchimokuShape.

Context {N : Type} {A : Arith N}.

Lemma rollingAt_length (values : list (nullable N)) (window : nat) reducer :
  List.length (rollingAt values window reducer) = List.length values.
Proof. apply mapi_length. Qed.

Lemma rollingAt_nth_error (values : list (nullable N)) (window : nat) reducer (i : nat) :
  (i < List.length values)%nat ->
  nth_error (rollingAt values window reducer) i
  = Some (if (i + 1 <? window)%nat then None
          else Some (reducer (slice values (i + 1 - window) (i + 1)) i)).
Proof.
  intros Hi. unfold rollingAt. rewrite mapi_nth_error.
  destruct (nth_error values i) eqn:E; [reflexivity|].
  apply nth_error_None in E. lia.
Qed.

Lemma at_rollingAt (values : list (nullable N)) (window : nat) reducer (i : nat) :
  (i < List.length values)%nat ->
  at_ (rollingAt values window reducer) i
  = if (i + 1 <? window)%nat then None
    else Some (reducer (slice values (i + 1 - window) (i + 1)) i).
Proof.
  intros Hi. unfold at_. apply nth_error_nth. now apply rollingAt_nth_error.
Qed.

(** For every arithmetic and every history: the five Ichimoku series have
    one entry per bar; the conversion line is null exactly at the first 8
    indices, the base line and the leading span A at the first 25, the
    value of the leading span B at the first 51; the entries of both
    leading spans carry their index plus 26, and the lagging span carries
    each bar's close under its index minus 26. *)
Theorem calculateIchimoku_shape (points : list (PriceBar N)) :
  List.length (conversionLine (calculateIchimoku points)) = List.length points
  /\ List.length (baseLine (calculateIchimoku points)) = List.length points
  /\ List.length (leadingSpanA (calculateIchimoku points)) = List.length points
  /\ List.length (leadingSpanB (calculateIchimoku points)) = List.length points
  /\ List.length (laggingSpan (calculateIchimoku points)) = List.length points
  /\ forall i b, nth_error points i = Some b ->
       (exists c, nth_error (conversionLine (calculateIchimoku points)) i = Some c
                  /\ (c = None <-> (i < 8)%nat))
       /\ (exists c, nth_error (baseLine (calculateIchimoku points)) i = Some c
                     /\ (c = None <-> (i < 25)%nat))
       /\ (exists s, nth_error (leadingSpanA (calculateIchimoku points)) i = Some s
                     /\ (s = None <-> (i < 25)%nat)
                     /\ forall e, s = Some e -> sindex e = (Z.of_nat i + 26)%Z)
       /\ (exists v, nth_error (leadingSpanB (calculateIchimoku points)) i
                     = Some (mkShifted (Z.of_nat i + 26) v)
                     /\ (v = None <-> (i < 51)%nat))
       /\ nth_error (laggingSpan (calculateIchimoku points)) i
          = Some (mkShifted (Z.of_nat i - 26) (getClose b)).
Proof.
  unfold calculateIchimoku. cbv zeta.
  cbn [conversionLine baseLine leadingSpanA leadingSpanB laggingSpan].
  rewrite !mapi_length, !rollingAt_length, !length_map.
  do 5 (split; [reflexivity|]).
  intros i b Hb.
  assert (Hi : (i < List.length (map getClose points))%nat)
    by (rewrite length_map; apply nth_error_Some; congruence).
  set (highs := map getHigh points). set (lows := map getLow points).
  set (closes := map getClose points) in *.
  rewrite !mapi_nth_error, !rollingAt_nth_error by exact Hi.
  assert (Hc : nth_error closes i = Some (getClose b))
    by (subst closes; now rewrite nth_error_map, Hb).
  rewrite Hc. cbn [option_map]. rewrite at_rollingAt by exact Hi.
  split; [|split; [|split; [|split]]].
  - eexists. split; [reflexivity|].
    destruct (Nat.ltb_spec (i + 1) 9); split; intros H0; try reflexivity;
      try discriminate; lia.
  - eexists. split; [reflexivity|].
    destruct (Nat.ltb_spec (i + 1) 26); split; intros H0; try reflexivity;
      try discriminate; lia.
  - eexists. split; [reflexivity|].
    destruct (Nat.ltb_spec (i + 1) 9); destruct (Nat.ltb_spec (i + 1) 26);
      try lia; (split; [split; intros H1; try reflexivity; try discriminate; lia|]);
      intros e He; try discriminate.
    injection He as <-. reflexivity.
  - eexists. split; [reflexivity|].
    destruct (Nat.ltb_spec (i + 1) 52); split; intros H0; try reflexivity;
      try discriminate; lia.
  - reflexivity.
Qed.

End IchimokuShape.

Lemma slice_In_nth (X : Type) (l : list X) (start stop : nat) (x : X) :
  In x (slice l start stop) ->
  exists k, (start <= k < stop)%nat /\ nth_error l k = Some x.
Proof.
  unfold slice. intros H. apply In_nth_error in H. destruct H as [n Hn].
  rewrite nth_error_firstn in Hn.
  destruct (Nat.ltb_spec n (stop - start)); [|discriminate].
  rewrite nth_error_skipn in Hn. exists (start + n)%nat. split; [lia | exact Hn].
Qed.

Lemma slice_nth_In (X : Type) (l : list X) (start stop k : nat) (x : X) :
  (start <= k < stop)%nat -> nth_error l k = Some x -> In x (slice l start stop).
Proof.
  intros Hk Hx. unfold slice. apply nth_error_In with (n := (k - start)%nat).
  rewrite nth_error_firstn.
  destruct (Nat.ltb_spec (k - start) (stop - start)); [|lia].
  rewrite nth_error_skipn. now replace (start + (k - start))%nat with k by lia.
Qed.

Lemma fold_max2_attained (l : list Q) (a : Q) : In (fold_left max2 l a) (a :: l).
Proof.
  revert a; induction l as [|x l IH]; intros a; cbn [fold_left]; [now left|].
  destruct (IH (max2 a x)) as [H|H].
  - rewrite <- H. unfold max2. destruct (a <? x)%num;
      [right; left; reflexivity | left; reflexivity].
  - right. right. exact H.
Qed.

Lemma fold_min2_attained (l : list Q) (a : Q) : In (fold_left min2 l a) (a :: l).
Proof.
  revert a; induction l as [|x l IH]; intros a; cbn [fold_left]; [now left|].
  destruct (IH (min2 a x)) as [H|H].
  - rewrite <- H. unfold min2. destruct (x <? a)%num;
      [right; left; reflexivity | left; reflexivity].
  - right. right. exact H.
Qed.

Lemma exact_range_nested (series : list (nullable Q)) (inner outer i : nat) :
  (1 <= inner)%nat -> (inner <= outer)%nat -> (i < List.length series)%nat ->
  (rangeHigh series inner i <= rangeHigh series outer i)%Q
  /\ (rangeLow series outer i <= rangeLow series inner i)%Q.
Proof.
  intros H1 H2 Hi.
  assert (Hsub : forall x, In x (map nz (slice series (i + 1 - inner) (i + 1))) ->
                           In x (map nz (slice series (i + 1 - outer) (i + 1)))).
  { intros x Hx. apply in_map_iff in Hx. destruct Hx as [v [<- Hv]].
    apply in_map. apply slice_In_nth in Hv. destruct Hv as [k [Hk Hv]].
    apply (@slice_nth_In _ series (i + 1 - outer) (i + 1) k v); [lia | exact Hv]. }
  assert (Hne : exists v rest, map nz (slice series (i + 1 - inner) (i + 1)) = v :: rest).
  { destruct (nth_error series i) as [v|] eqn:E; [|apply nth_error_None in E; lia].
    assert (Hin : In (nz v) (map nz (slice series (i + 1 - inner) (i + 1)))).
    { apply in_map. apply (@slice_nth_In _ series (i + 1 - inner) (i + 1) i v);
        [lia | exact E]. }
    destruct (map nz (slice series (i + 1 - inner) (i + 1))) as [|w rest];
      [contradiction | now exists w, rest]. }
  destruct Hne as [v [rest E]]. unfold rangeHigh, rangeLow.
  split.
  - apply Math_max_ge. apply Hsub. rewrite E. unfold Math_max.
    apply fold_max2_attained.
  - apply Math_min_le. apply Hsub. rewrite E. unfold Math_min.
    apply fold_min2_attained.
Qed.

Lemma exact_midpoint_range (points : list (PriceBar Q)) (window i : nat)
  (b : PriceBar Q) (sl : list (nullable Q)) :
  (1 <= window)%nat -> (window <= i + 1)%nat -> nth_error points i = Some b ->
  (low b <= high b)%Q ->
  (rangeLow (map getLow points) window i
   <= midpoint (map getHigh points) (map getLow points) (window - 1) sl i)%Q
  /\ (midpoint (map getHigh points) (map getLow points) (window - 1) sl i
      <= rangeHigh (map getHigh points) window i)%Q.
Proof.
  intros Hw Hi Hb Hbar.
  destruct (@exact_range_bounds points window i b Hw Hi Hb) as [Hh Hl].
  unfold midpoint. cbv zeta.
  replace (i - (window - 1))%nat with (i + 1 - window)%nat by lia.
  fold (rangeHigh (map getHigh points) window i).
  fold (rangeLow (map getLow points) window i).
  set (H := rangeHigh (map getHigh points) window i) in *.
  set (L := rangeLow (map getLow points) window i) in *.
  clearbody H L. cbn [nadd ndiv ofZ ExactArith]. unfold inject_Z.
  split; [apply Qle_shift_div_l | apply Qle_shift_div_r]; lra.
Qed.

Lemma exact_rollingAt_entry (values : list (nullable Q)) (window : nat) reducer
  (i : nat) (v : Q) :
  nth_error (rollingAt values window reducer) i = Some (Some v) ->
  (window <= i + 1)%nat /\ (i < List.length values)%nat
  /\ v = reducer (slice values (i + 1 - window) (i + 1)) i.
Proof.
  intros H.
  assert (Hi : (i < List.length values)%nat).
  { rewrite <- (rollingAt_length values window reducer).
    apply nth_error_Some. congruence. }
  rewrite rollingAt_nth_error in H by exact Hi.
  destruct (Nat.ltb_spec (i + 1) window); [discriminate|].
  injection H as <-. repeat split; [lia | exact Hi].
Qed.

(** Over exact arithmetic, on bars whose low is at most their high: each
    value of the conversion line lies between the lowest low and the
    highest high of the last 9 bars, each value of the base line and of the
    leading span A between those of the last 26 bars, and each value of the
    leading span B between those of the last 52 bars. *)
Theorem calculateIchimoku_within_range (points : list (PriceBar Q)) (i : nat) :
  (forall b, In b points -> (low b <= high b)%Q) ->
  (forall v, nth_error (conversionLine (calculateIchimoku points)) i = Some (Some v) ->
             (rangeLow (map getLow points) 9 i <= v)%Q
             /\ (v <= rangeHigh (map getHigh points) 9 i)%Q)
  /\ (forall v, nth_error (baseLine (calculateIchimoku points)) i = Some (Some v) ->
                (rangeLow (map getLow points) 26 i <= v)%Q
                /\ (v <= rangeHigh (map getHigh points) 26 i)%Q)
  /\ (forall e, nth_error (leadingSpanA (calculateIchimoku points)) i = Some (Some e) ->
                (rangeLow (map getLow points) 26 i <= svalue e)%Q
                /\ (svalue e <= rangeHigh (map getHigh points) 26 i)%Q)
  /\ (forall e v, nth_error (leadingSpanB (calculateIchimoku points)) i = Some e ->
                  svalue e = Some v ->
                  (rangeLow (map getLow points) 52 i <= v)%Q
                  /\ (v <= rangeHigh (map getHigh points) 52 i)%Q).
Proof.
  intros Hbars.
  assert (Hline : forall window v,
             (1 <= window)%nat ->
             nth_error (rollingAt (map getClose points) window
                          (midpoint (map getHigh points) (map getLow points) (window - 1)))
                       i = Some (Some v) ->
             (rangeLow (map getLow points) window i <= v)%Q
             /\ (v <= rangeHigh (map getHigh points) window i)%Q).
  { intros window v Hw Hv. apply exact_rollingAt_entry in Hv.
    destruct Hv as (Hi & Hlen & ->). rewrite length_map in Hlen.
    destruct (nth_error points i) as [b|] eqn:Eb; [|apply nth_error_None in Eb; lia].
    apply (@exact_midpoint_range points window i b _ Hw Hi Eb).
    apply Hbars. now apply nth_error_In in Eb. }
  unfold calculateIchimoku. cbv zeta.
  cbn [conversionLine baseLine leadingSpanA leadingSpanB].
  split; [|split; [|split]].
  - intros v Hv. apply (Hline 9%nat v); [lia | exact Hv].
  - intros v Hv. apply (Hline 26%nat v); [lia | exact Hv].
  - intros e. rewrite mapi_nth_error.
    match goal with
    | |- context [@nth_error ?T ?l i] => destruct (@nth_error T l i) as [c|] eqn:Ec
    end; cbn [option_map]; [|discriminate].
    destruct c as [c|]; [|discriminate].
    match goal with
    | |- context [@at_ ?T ?l i] => destruct (@at_ T l i) as [m|] eqn:Em
    end; [|discriminate].
    intros He. injection He as <-. cbn [svalue].
    destruct (Hline 9%nat c ltac:(lia) Ec) as [C0 C1].
    assert (Hi : (i < List.length (map getClose points))%nat).
    { pose proof Ec as Ec'. apply exact_rollingAt_entry in Ec'. apply Ec'. }
    assert (Em' : nth_error (rollingAt (map getClose points) 26
                     (midpoint (map getHigh points) (map getLow points) 25)) i
                  = Some (Some m)).
    { rewrite rollingAt_nth_error by exact Hi.
      rewrite at_rollingAt in Em by exact Hi. f_equal. exact Em. }
    destruct (Hline 26%nat m ltac:(lia) Em') as [M0 M1].
    rewrite length_map in Hi.
    destruct (@exact_range_nested (map getHigh points) 9 26 i) as [N1 _];
      [lia | lia | now rewrite length_map |].
    destruct (@exact_range_nested (map getLow points) 9 26 i) as [_ N2];
      [lia | lia | now rewrite length_map |].
    cbn [nadd ndiv ofZ ExactArith]. unfold inject_Z.
    split; [apply Qle_shift_div_l | apply Qle_shift_div_r]; lra.
  - intros e v. rewrite mapi_nth_error.
    match goal with
    | |- context [@nth_error ?T ?l i] => destruct (@nth_error T l i) as [c|] eqn:Ec
    end; cbn [option_map]; [|discriminate].
    intros He Hv. injection He as <-. cbn [svalue] in Hv. subst c.
    apply (Hline 52%nat v); [lia | exact Ec].
Qed.

(** ** The Bollinger bandwidth *)

Lemma exact_sum_positive (sl : list (nullable Q)) (acc : Q) :
  (forall v, In v sl -> exists c, v = Some c /\ (0 < c)%Q) ->
  (acc <= fold_left (fun a v => (a + nz v)%num) sl acc)%Q
  /\ (sl <> [] -> (acc < fold_left (fun a v => (a + nz v)%num) sl acc)%Q).
Proof.
  revert acc; induction sl as [|v sl IH]; intros acc H.
  - split; [apply Qle_refl | congruence].
  - cbn [fold_left].
    destruct (H v (or_introl eq_refl)) as [c [-> Hc]]. cbn [nz].
    destruct (IH (acc + c)%num) as [IH1 _]; [intros w Hw; apply H; now right|].
    set (total := fold_left _ sl _) in *. clearbody total.
    cbn [nadd ExactArith] in IH1.
    split; [|intros _]; lra.
Qed.

Lemma exact_mean_positive (sl : list (nullable Q)) :
  sl <> [] -> (forall v, In v sl -> exists c, v = Some c /\ (0 < c)%Q) ->
  (0 < mean_reducer sl)%Q.
Proof.
  intros Hne H. unfold mean_reducer.
  destruct (@exact_sum_positive sl zero H) as [_ Hs]. specialize (Hs Hne).
  rewrite exact_zero in Hs.
  assert (Hn : (1 <= ofnat (N:=Q) (List.length sl))%Q).
  { apply exact_ofnat_positive. destruct sl; [congruence | cbn; lia]. }
  cbn [ndiv ExactArith]. apply Qlt_shift_div_l; [lra|]. rewrite exact_zero. lra.
Qed.

(** Over exact arithmetic, with a [Math.sqrt] and a width factor that are
    not negative, a window of at least one bar and closes that are all
    positive: the bandwidth series has one entry per bar, is null below
    index window - 1, and from there on is
    (upper - lower) / middle * 100 over a positive middle band, and never
    negative. *)
Theorem calculateBollingerBandwidth_nonnegative (sqrt : Q -> Q)
  (points : list (PriceBar Q)) (window : nat) (numStdDev : Q) (i : nat) :
  (forall x, 0 <= sqrt x)%Q -> (0 <= numStdDev)%Q -> (1 <= window)%nat ->
  (forall b, In b points -> (0 < close b)%Q) ->
  List.length (calculateBollingerBandwidth sqrt points window numStdDev)
  = List.length points
  /\ ((i + 1 < window)%nat ->
      at_ (calculateBollingerBandwidth sqrt points window numStdDev) i = None)
  /\ ((window <= i + 1)%nat -> (i < List.length points)%nat ->
      exists v m u l : Q,
        at_ (calculateBollingerBandwidth sqrt points window numStdDev) i = Some v
        /\ at_ (middle (calculateBollingerBands sqrt points window numStdDev)) i = Some m
        /\ at_ (upper (calculateBollingerBands sqrt points window numStdDev)) i = Some u
        /\ at_ (lower (calculateBollingerBands sqrt points window numStdDev)) i = Some l
        /\ (0 < m)%Q /\ (v == (u - l) / m * 100)%Q /\ (0 <= v)%Q).
Proof.
  intros Hs Hk Hw Hpos.
  unfold calculateBollingerBandwidth. cbv zeta.
  cbn [calculateBollingerBands middle upper lower].
  split; [|split].
  - unfold band. now rewrite !mapi_length, length_map.
  - intros Hi. rewrite at_mapi. unfold band at 1. rewrite mapi_nth_error.
    destruct (nth_error (map getClose points) i) as [x|]; [|reflexivity].
    cbn [option_map]. destruct (Nat.ltb_spec (i + 1) window); [reflexivity | lia].
  - intros Hi Hlen.
    assert (Hmid : exists m, at_ (calculateSMA points window) i = Some m /\ (0 < m)%Q).
    { unfold calculateSMA, rolling. rewrite at_mapi.
      destruct (nth_error (map getClose points) i) as [x|] eqn:Hx.
      2:{ apply nth_error_None in Hx. rewrite length_map in Hx. lia. }
      destruct (Nat.ltb_spec (i + 1) window); [lia|].
      eexists. split; [reflexivity|]. apply exact_mean_positive.
      - intros E.
        assert (Hin : In x (slice (map getClose points) (i + 1 - window) (i + 1)))
          by (apply (@slice_nth_In _ _ _ _ i x); [lia | exact Hx]).
        rewrite E in Hin. contradiction.
      - intros v Hv. apply slice_incl in Hv. apply in_map_iff in Hv.
        destruct Hv as [b [<- Hb]]. exists (close b). split; [reflexivity|].
        now apply Hpos. }
    destruct Hmid as [m [Em Hm]].
    assert (Hband :
               exists s, (0 <= s)%Q
                         /\ forall side : Q -> Q -> Q,
                              at_ (band sqrt (map getClose points)
                                     (calculateSMA points window) window numStdDev side) i
                              = Some (side m (s * numStdDev)%Q)).
    { exists (sqrt (fold_left (fun acc close => (acc + (nz close - m) * (nz close - m))%num)
                      (slice (map getClose points) (i + 1 - window) (i + 1)) zero
                    / ofnat (List.length
                               (slice (map getClose points) (i + 1 - window) (i + 1))))%num).
      split; [apply Hs|]. intros side. unfold band. rewrite at_mapi.
      destruct (nth_error (map getClose points) i) as [x|] eqn:Hx.
      2:{ apply nth_error_None in Hx. rewrite length_map in Hx. lia. }
      destruct (Nat.ltb_spec (i + 1) window); [lia|].
      rewrite Em. reflexivity. }
    destruct Hband as [s [Hs0 Hside]].
    exists (((m + s * numStdDev - (m - s * numStdDev)) / m) * inject_Z 100)%Q.
    exists m, (m + s * numStdDev)%Q, (m - s * numStdDev)%Q.
    assert (Hsk : (0 <= s * numStdDev)%Q) by now apply Qmult_le_0_compat.
    split; [|split; [exact Em|split; [apply (Hside Qplus)|split; [apply (Hside Qminus)|]]]].
    + rewrite at_mapi.
      match goal with
      | |- context [@nth_error ?T ?l i] => destruct (@nth_error T l i) as [w|] eqn:Ew
      end.
      * pose proof (Hside nadd) as H0. unfold at_ in H0.
        erewrite nth_error_nth in H0 by exact Ew. rewrite H0.
        rewrite (Hside nsub), Em. reflexivity.
      * apply nth_error_None in Ew. unfold band in Ew.
        rewrite mapi_length, length_map in Ew. lia.
    + split; [exact Hm|]. split; [unfold inject_Z; reflexivity|].
      unfold inject_Z.
      assert (Hq : (0 <= (m + s * numStdDev - (m - s * numStdDev)) / m)%Q)
        by (apply Qle_shift_div_l; lra).
      set (q := ((m + s * numStdDev - (m - s * numStdDev)) / m)%Q) in *. clearbody q.
      lra.
Qed.

(** ** The signal summary *)

Lemma summarise_from (signals : list Signal) (acc : nat * nat) :
  fold_left (fun acc entry =>
               let buys := if (0 <? numericSignal entry)%Z then S (fst acc) else fst acc in
               let sells := if (numericSignal entry <? 0)%Z then S (snd acc) else snd acc in
               (buys, sells))
            signals acc
  = ((fst acc + List.length (filter (fun s => (0 <? numericSignal s)%Z) signals))%nat,
     (snd acc + List.length (filter (fun s => (numericSignal s <? 0)%Z) signals))%nat).
Proof.
  revert acc; induction signals as [|s signals IH]; intros [buys sells].
  - cbn. now rewrite !Nat.add_0_r.
  - cbn [fold_left filter]. rewrite IH. cbn [fst snd].
    destruct (0 <? numericSignal s)%Z; destruct (numericSignal s <? 0)%Z;
      cbn [List.length]; f_equal; lia.
Qed.

(** For every signal list: the summary counts as buys the signals whose
    numeric signal is positive and as sells those whose numeric signal is
    negative; no signal is counted twice, so the two counts add up to at
    most the number of signals, and to exactly that number less the number
    of signals whose numeric signal is zero. *)
Theorem summariseSignals_counts (signals : list Signal) :
  fst (summariseSignals signals)
  = List.length (filter (fun s => (0 <? numericSignal s)%Z) signals)
  /\ snd (summariseSignals signals)
     = List.length (filter (fun s => (numericSignal s <? 0)%Z) signals)
  /\ (fst (summariseSignals signals) + snd (summariseSignals signals)
      + List.length (filter (fun s => (numericSignal s =? 0)%Z) signals)
      = List.length signals)%nat.
Proof.
  unfold summariseSignals. rewrite summarise_from. cbn [fst snd Nat.add].
  split; [reflexivity|]. split; [reflexivity|].
  induction signals as [|s signals IH]; [reflexivity|].
  cbn [filter List.length].
  destruct (Z.ltb_spec 0 (numericSignal s)); destruct (Z.ltb_spec (numericSignal s) 0);
    destruct (Z.eqb_spec (numericSignal s) 0); cbn [List.length]; lia.
Qed.

(** ** The MACD of a bounded history and the %D line *)

Lemma at_In (N X : Type) (series : list (nullable N)) (i : nat) (v : N) :
  at_ series i = Some v -> In (Some v) series.
Proof.
  unfold at_. intros H.
  destruct (Nat.lt_ge_cases i (List.length series)) as [Hi|Hi].
  - rewrite <- H. now apply nth_In.
  - rewrite nth_overflow in H by exact Hi. discriminate.
Qed.

Lemma exact_ema_within (a b : Q) (values : list (nullable Q)) (period : Z) (v : Q) :
  (1 <= period)%Z ->
  (forall w, In (Some w) values -> (a <= w)%Q /\ (w <= b)%Q) ->
  In (Some v) (ema values period) -> (a <= v)%Q /\ (v <= b)%Q.
Proof.
  intros Hp Hin Hv. destruct (exact_multiplier_range Hp) as [H0 H1].
  apply (@exact_ema_loop_between a b _ values None H0 H1 Hin); [discriminate | exact Hv].
Qed.

(** Over exact arithmetic and for windows of at least 1: when every close
    lies in [a, b], every value of the MACD line and of its signal line
    lies in [a - b, b - a]; on a flat history (a = b) both lines are 0. *)
Theorem calculateMACD_within_spread (a b : Q) (points : list (PriceBar Q))
  (shortWindow longWindow signalWindow : Z) :
  (1 <= shortWindow)%Z -> (1 <= longWindow)%Z -> (1 <= signalWindow)%Z ->
  (forall p, In p points -> (a <= close p)%Q /\ (close p <= b)%Q) ->
  (forall v, In (Some v) (macd (calculateMACD points shortWindow longWindow signalWindow)) ->
             (a - b <= v)%Q /\ (v <= b - a)%Q)
  /\ (forall v, In (Some v) (signal_line
                               (calculateMACD points shortWindow longWindow signalWindow)) ->
                (a - b <= v)%Q /\ (v <= b - a)%Q).
Proof.
  intros Hs Hl Hg Hc. unfold calculateMACD. cbv zeta. cbn [macd signal_line].
  assert (Hcloses : forall w, In (Some w) (map getClose points) -> (a <= w)%Q /\ (w <= b)%Q).
  { intros w Hw. apply in_map_iff in Hw. destruct Hw as [p [E Hp]].
    injection E as <-. now apply Hc. }
  set (closes := map getClose points) in *. clearbody closes.
  assert (Hline : Forall (fun o => forall v, o = Some v -> (a - b <= v)%Q /\ (v <= b - a)%Q)
                         (mapi (fun index value =>
                                  match value, at_ (ema closes longWindow) index with
                                  | Some v, Some l => Some (v - l)%num
                                  | _, _ => None
                                  end)
                               (ema closes shortWindow))).
  { apply mapi_from_Forall. intros k x Hk v. cbn [Nat.add].
    destruct x as [x|]; [|discriminate].
    destruct (at_ (ema closes longWindow) k) as [l|] eqn:El; [|discriminate].
    intros E. injection E as <-.
    apply nth_error_In in Hk. apply (@at_In Q unit) in El.
    destruct (@exact_ema_within a b closes shortWindow x Hs Hcloses Hk) as [X0 X1].
    destruct (@exact_ema_within a b closes longWindow l Hl Hcloses El) as [L0 L1].
    cbn [nsub ExactArith]. split; lra. }
  rewrite Forall_forall in Hline.
  assert (Hmacd : forall v,
             In (Some v) (mapi (fun index value =>
                                  match value, at_ (ema closes longWindow) index with
                                  | Some v, Some l => Some (v - l)%num
                                  | _, _ => None
                                  end)
                               (ema closes shortWindow)) ->
             (a - b <= v)%Q /\ (v <= b - a)%Q).
  { intros v Hv. exact (Hline _ Hv v eq_refl). }
  split; [exact Hmacd|].
  intros v Hv. exact (@exact_ema_within (a - b) (b - a) _ signalWindow v Hg Hmacd Hv).
Qed.

Lemma exact_sum_between (a b : Q) (sl : list (nullable Q)) (acc : Q) :
  (forall v, In v sl -> (a <= nz v)%Q /\ (nz v <= b)%Q) ->
  (acc + ofnat (List.length sl) * a
   <= fold_left (fun s v => (s + nz v)%num) sl acc)%Q
  /\ (fold_left (fun s v => (s + nz v)%num) sl acc
      <= acc + ofnat (List.length sl) * b)%Q.
Proof.
  revert acc; induction sl as [|v sl IH]; intros acc H.
  - cbn [fold_left List.length]. change (ofnat (N:=Q) 0) with 0%Q. split; lra.
  - cbn [fold_left List.length].
    destruct (H v (or_introl eq_refl)) as [V0 V1].
    destruct (IH (acc + nz v)%num) as [I0 I1]; [intros w Hw; apply H; now right|].
    pose proof (exact_ofnat_S (List.length sl)) as Hn.
    set (total := fold_left _ sl _) in *. clearbody total.
    cbn [nadd ExactArith] in I0, I1.
    set (n := ofnat (N:=Q) (List.length sl)) in *.
    set (n' := ofnat (N:=Q) (S (List.length sl))) in *.
    set (x := nz v) in *. clearbody n n' x.
    split; nra.
Qed.

Lemma exact_mean_between (a b : Q) (sl : list (nullable Q)) :
  sl <> [] -> (forall v, In v sl -> (a <= nz v)%Q /\ (nz v <= b)%Q) ->
  (a <= mean_reducer sl)%Q /\ (mean_reducer sl <= b)%Q.
Proof.
  intros Hne H. unfold mean_reducer.
  destruct (@exact_sum_between a b sl zero H) as [S0 S1].
  assert (Hn : (1 <= ofnat (N:=Q) (List.length sl))%Q).
  { apply exact_ofnat_positive. destruct sl; [congruence | cbn; lia]. }
  set (total := fold_left _ sl zero) in *. clearbody total.
  set (n := ofnat (N:=Q) (List.length sl)) in *. clearbody n.
  rewrite exact_zero in S0, S1. cbn [ndiv ExactArith].
  split; [apply Qle_shift_div_l | apply Qle_shift_div_r]; lra.
Qed.

Lemma exact_percentK_values (points : list (PriceBar Q)) (kWindow dWindow : nat)
  (o : nullable Q) :
  (1 <= kWindow)%nat ->
  (forall b, In b points -> (low b <= close b)%Q /\ (close b <= high b)%Q) ->
  In o (percentK (calculateStochasticOscillator points kWindow dWindow)) ->
  (0 <= nz o)%Q /\ (nz o <= 100)%Q.
Proof.
  intros Hk Hbars Ho. destruct o as [v|]; cbn [nz];
    [|rewrite exact_zero; split; [apply Qle_refl | unfold Qle; simpl; lia]].
  apply In_nth_error in Ho. destruct Ho as [i Hv].
  destruct (exact_percentK_entry _ _ _ _ Hv) as [b [Hb [Hi [Hc ->]]]].
  destruct (@exact_range_bounds points kWindow i b Hk Hi Hb) as [Hhi Hlo].
  destruct (Hbars b (nth_error_In _ _ Hb)) as [Hlc Hch].
  cbv zeta.
  set (rh := rangeHigh (map getHigh points) kWindow i) in *.
  set (rl := rangeLow (map getLow points) kWindow i) in *.
  clear Hv. clearbody rh rl.
  destruct (rh =? rl)%num eqn:E.
  - rewrite exact_zero. split; [apply Qle_refl | unfold Qle; simpl; lia].
  - apply exact_eqb_false in E.
    cbn [nsub ndiv nmul ofZ ExactArith]. change (inject_Z 100) with 100%Q.
    assert (Hd : (0 < rh - rl)%Q).
    { assert (rl <= rh)%Q by lra.
      destruct (Qlt_le_dec rl rh) as [Hlt|Hge]; [lra|].
      exfalso. apply E. now apply Qle_antisym. }
    assert (Hinv : (0 < / (rh - rl))%Q) by now apply Qinv_lt_0_compat.
    assert (Hone : ((rh - rl) * / (rh - rl) == 1)%Q).
    { apply Qmult_inv_r. lra. }
    unfold Qdiv. set (inv := (/ (rh - rl))%Q) in *. clearbody inv.
    split; nra.
Qed.

(** Over exact arithmetic, when every bar has low <= close <= high and
    both windows are at least 1: every value of the %D line lies in
    [0, 100], the null entries of %K that it averages counting as 0. *)
Theorem percentD_range (points : list (PriceBar Q)) (kWindow dWindow : nat) (v : Q) :
  (1 <= kWindow)%nat -> (1 <= dWindow)%nat ->
  (forall b, In b points -> (low b <= close b)%Q /\ (close b <= high b)%Q) ->
  In (Some v) (percentD (calculateStochasticOscillator points kWindow dWindow)) ->
  (0 <= v)%Q /\ (v <= 100)%Q.
Proof.
  intros Hk Hd Hbars Hv.
  pose proof (fun o => @exact_percentK_values points kWindow dWindow o Hk Hbars) as HK.
  cbn [calculateStochasticOscillator percentD] in Hv.
  cbn [calculateStochasticOscillator percentK] in HK.
  set (series := mapi _ points) in *. clearbody series.
  unfold rolling in Hv.
  assert (Hall : Forall (fun o => forall w, o = Some w -> (0 <= w)%Q /\ (w <= 100)%Q)
                        (mapi (fun i _ =>
                                 if (i + 1 <? dWindow)%nat then None
                                 else Some (mean_reducer
                                              (slice series (i + 1 - dWindow) (i + 1))))
                              series)).
  { apply mapi_from_Forall. intros k x Hx w. cbn [Nat.add].
    destruct (Nat.ltb_spec (k + 1) dWindow); [discriminate|].
    intros E. injection E as <-.
    set (sl := slice series (k + 1 - dWindow) (k + 1)).
    assert (Hin : In x sl)
      by (apply (@slice_nth_In _ series (k + 1 - dWindow) (k + 1) k x); [lia | exact Hx]).
    assert (Hsl : forall o, In o sl -> (0 <= nz o)%Q /\ (nz o <= 100)%Q).
    { intros o Ho. apply HK. now apply slice_incl in Ho. }
    apply (@exact_mean_between 0 100 sl); [|exact Hsl].
    intros E. rewrite E in Hin. contradiction. }
  rewrite Forall_forall in Hall. exact (Hall _ Hv v eq_refl).
Qed.

(** ** The properties above on concrete inputs *)

(** The third EMA value of 1, null, 3 with period 2 lies between 1 and 3. *)
Lemma ema_between_witness :
  exists v : Q,
    nth_error (ema [Some 1%Q; None; Some 3%Q] 2) 2 = Some (Some v)
    /\ (1 <= v)%Q /\ (v <= 3)%Q.
Proof.
  eexists. split; [vm_compute; reflexivity|].
  apply (@ema_between 1%Q 3%Q [Some 1%Q; None; Some 3%Q] 2%Z).
  - lia.
  - intros v [H|[H|[H|[]]]]; try discriminate; injection H as <-;
      split; vm_compute; discriminate.
  - apply (@nth_error_In _ _ 2%nat). vm_compute. reflexivity.
Defined.

(** The RSI of sixteen rising closes, window 14, at index 14. *)
Lemma calculateRSI_range_witness :
  exists v : Q,
    nth_error (calculateRSI (risingBars 16 1) 14) 14 = Some (Some v)
    /\ (0 <= v)%Q /\ (v < 100)%Q.
Proof.
  eexists. split; [vm_compute; reflexivity|].
  apply (@calculateRSI_range (risingBars 16 1) 14%nat).
  - lia.
  - apply (@nth_error_In _ _ 14%nat). vm_compute. reflexivity.
Defined.

(** The directional indicators of five rising bars, period 14. *)
Lemma calculateADX_ranges_witness :
  (forall v, In (Some v) (plusDI (calculateADX (risingBars (N:=Q) 5 100) 14)) -> (0 <= v)%Q)
  /\ (forall v, In (Some v) (minusDI (calculateADX (risingBars (N:=Q) 5 100) 14)) ->
                (0 <= v)%Q)
  /\ (forall v, In (Some v) (adx (calculateADX (risingBars (N:=Q) 5 100) 14)) ->
                (0 <= v)%Q /\ (v <= 100)%Q).
Proof.
  apply (@calculateADX_ranges (risingBars 5 100) 14%Z). lia.
Defined.

(** The VWAP of a bar with low 1, high 3, close 2 and volume 10. *)
Lemma calculateVWAP_between_witness :
  exists v : Q,
    nth_error (calculateVWAP volumeThenNone) 0 = Some (Some v)
    /\ (1 <= v)%Q /\ (v <= 3)%Q.
Proof.
  eexists. split; [vm_compute; reflexivity|].
  apply (@calculateVWAP_between 1%Q 3%Q volumeThenNone).
  - intros row [<-|[<-|[]]]; repeat split; vm_compute; discriminate.
  - apply (@nth_error_In _ _ 0%nat). vm_compute. reflexivity.
Defined.

(** The second point of a two-day forecast after three bars. *)
Lemma forecast_dates_follow_last_bar_witness :
  exists (forecast : list (ForecastPoint Q)) (p : ForecastPoint Q),
    predictFuturePrices (risingBars 3 100) "sma" "simple" 2 = inr forecast
    /\ nth_error forecast 1 = Some p
    /\ exists lastBar,
         nth_error (risingBars (N:=Q) 3 100) (List.length (risingBars (N:=Q) 3 100) - 1)
         = Some lastBar
         /\ fdate p = (date lastBar + Z.of_nat 2)%Z.
Proof.
  eexists. eexists. split; [vm_compute; reflexivity|].
  match goal with
  | |- nth_error ?forecast 1 = Some _ /\ _ =>
      split;
      [vm_compute; reflexivity
      |apply (@forecast_dates_follow_last_bar Q ExactArith (risingBars 3 100)
                "sma" "simple" 2%Z forecast 1%nat);
       vm_compute; reflexivity]
  end.
Defined.

(** The smoothed-regression forecast of two bars that close at 100. *)
Lemma forecast_of_flat_history_witness :
  exists (forecast : list (ForecastPoint Q)) (p : ForecastPoint Q),
    predictFuturePrices [flatBar 0 100%Q; flatBar 1 100%Q] "sma" "prophet" 2 = inr forecast
    /\ nth_error forecast 0 = Some p
    /\ (fvalue p == 100)%Q.
Proof.
  eexists. eexists. split; [vm_compute; reflexivity|].
  match goal with
  | |- nth_error ?forecast 0 = Some _ /\ _ =>
      split;
      [vm_compute; reflexivity
      |apply (@forecast_of_flat_history 100%Q [flatBar 0 100%Q; flatBar 1 100%Q]
                "sma" "prophet" 2%Z forecast);
       [intros b [<-|[<-|[]]]; vm_compute; reflexivity
       |vm_compute; reflexivity
       |apply (@nth_error_In _ _ 0%nat); vm_compute; reflexivity]]
  end.
Defined.

(** Three rising bars under three hold signals, from a capital of 10000. *)
Lemma hold_signals_never_trade_witness :
  Forall (fun p => (value p == 10000)%Q)
         (Backtesting.runTradingSimulation (risingBars 3 100) [hold; hold; hold] 10000%Q)
  /\ Forall (fun p => (value p == 10000)%Q)
            (fst (AdvancedBacktest.runSimulation 5%Q 10%Q
                    (risingBars 3 100) [hold; hold; hold] 10000%Q))
  /\ snd (AdvancedBacktest.runSimulation 5%Q 10%Q
            (risingBars 3 100) [hold; hold; hold] 10000%Q) = [].
Proof.
  apply (@hold_signals_never_trade (risingBars 3 100) [hold; hold; hold]
           10000%Q 5%Q 10%Q).
  repeat constructor.
Defined.

(** A curve that halves. *)
Lemma maxDrawdown_at_least_minus_one_witness :
  (-1 <= AdvancedBacktest.maxDrawdown [mkPoint 0 100%Q; mkPoint 1 50%Q])%Q.
Proof.
  apply (@maxDrawdown_at_least_minus_one [mkPoint 0 100%Q; mkPoint 1 50%Q]).
  intros p [<-|[<-|[]]]; vm_compute; discriminate.
Defined.

(** Three bars that close at 100, 101, 102 lie on the line 100 + k. *)
Lemma arima_forecast_of_a_line_witness :
  exists forecast : list (ForecastPoint Q),
    predictFuturePrices (risingBars 3 100) "sma" "arima" 2 = inr forecast
    /\ (slope (linearRegression (map (@close Q) (risingBars 3 100))) == 1)%Q
    /\ (intercept (linearRegression (map (@close Q) (risingBars 3 100))) == 100)%Q
    /\ List.length forecast = Z.to_nat 2
    /\ forall k p, nth_error forecast k = Some p ->
         (fvalue p
          == 100 + 1 * inject_Z (Z.of_nat (List.length (risingBars (N:=Q) 3 100))
                                 + Z.of_nat (S k)))%Q.
Proof.
  eexists. split; [vm_compute; reflexivity|].
  match goal with
  | |- _ /\ _ /\ List.length ?forecast = _ /\ _ =>
      apply (@arima_forecast_of_a_line 100%Q 1%Q (risingBars 3 100) "sma" 2%Z forecast)
  end.
  - vm_compute. lia.
  - intros k p Hk.
    destruct k as [|[|[|k]]]; [| | |destruct k; discriminate];
      vm_compute in Hk; injection Hk as <-; vm_compute; reflexivity.
  - vm_compute. reflexivity.
Defined.

(** A strong buy at a close of 100 from 10000 in cash. *)
Lemma runTradingSimulation_trades_at_the_close_witness :
  (Backtesting.cash (Backtesting.trade [hold; mkSignal "buy_strong" 1]
                       (Backtesting.start 10000%Q) 1 (flatBar 1 100%Q))
   + Backtesting.shares (Backtesting.trade [hold; mkSignal "buy_strong" 1]
                           (Backtesting.start 10000%Q) 1 (flatBar 1 100%Q))
     * close (flatBar 1 100%Q)
   <= Backtesting.cash (Backtesting.start 10000%Q)
      + Backtesting.shares (Backtesting.start 10000%Q) * close (flatBar 1 100%Q))%Q
  /\ (Backtesting.cash (Backtesting.start 10000%Q)
      + Backtesting.shares (Backtesting.start 10000%Q) * close (flatBar 1 100%Q)
      - (1 # 1000000) * close (flatBar 1 100%Q)
      <= Backtesting.cash (Backtesting.trade [hold; mkSignal "buy_strong" 1]
                             (Backtesting.start 10000%Q) 1 (flatBar 1 100%Q))
         + Backtesting.shares (Backtesting.trade [hold; mkSignal "buy_strong" 1]
                                 (Backtesting.start 10000%Q) 1 (flatBar 1 100%Q))
           * close (flatBar 1 100%Q))%Q
  /\ (~ (Backtesting.shares (Backtesting.trade [hold; mkSignal "buy_strong" 1]
                               (Backtesting.start 10000%Q) 1 (flatBar 1 100%Q)) == 0)%Q ->
      (Backtesting.cash (Backtesting.trade [hold; mkSignal "buy_strong" 1]
                           (Backtesting.start 10000%Q) 1 (flatBar 1 100%Q))
       + Backtesting.shares (Backtesting.trade [hold; mkSignal "buy_strong" 1]
                               (Backtesting.start 10000%Q) 1 (flatBar 1 100%Q))
         * close (flatBar 1 100%Q)
       == Backtesting.cash (Backtesting.start 10000%Q)
          + Backtesting.shares (Backtesting.start 10000%Q) * close (flatBar 1 100%Q))%Q).
Proof.
  apply (@runTradingSimulation_trades_at_the_close [hold; mkSignal "buy_strong" 1]
           (Backtesting.start 10000%Q) 1%nat (flatBar 1 100%Q)).
  - vm_compute. reflexivity.
  - vm_compute. discriminate.
Defined.

(** Nine rising bars: the conversion line has its first value at index 8. *)
Lemma calculateIchimoku_within_range_witness :
  (forall v, nth_error (conversionLine (calculateIchimoku (risingBars 9 100))) 8
             = Some (Some v) ->
             (rangeLow (map getLow (risingBars 9 100)) 9 8 <= v)%Q
             /\ (v <= rangeHigh (map getHigh (risingBars 9 100)) 9 8)%Q)
  /\ (forall v, nth_error (baseLine (calculateIchimoku (risingBars 9 100))) 8
                = Some (Some v) ->
                (rangeLow (map getLow (risingBars 9 100)) 26 8 <= v)%Q
                /\ (v <= rangeHigh (map getHigh (risingBars 9 100)) 26 8)%Q)
  /\ (forall e, nth_error (leadingSpanA (calculateIchimoku (risingBars 9 100))) 8
                = Some (Some e) ->
                (rangeLow (map getLow (risingBars 9 100)) 26 8 <= svalue e)%Q
                /\ (svalue e <= rangeHigh (map getHigh (risingBars 9 100)) 26 8)%Q)
  /\ (forall e v, nth_error (leadingSpanB (calculateIchimoku (risingBars 9 100))) 8
                  = Some e ->
                  svalue e = Some v ->
                  (rangeLow (map getLow (risingBars 9 100)) 52 8 <= v)%Q
                  /\ (v <= rangeHigh (map getHigh (risingBars 9 100)) 52 8)%Q).
Proof.
  apply (@calculateIchimoku_within_range (risingBars 9 100) 8%nat).
  intros b Hb. vm_compute in Hb.
  repeat (destruct Hb as [<-|Hb]; [vm_compute; discriminate|]). contradiction.
Defined.

(** Three rising bars, window 2, width factor 2, a square root that
    answers 0. *)
Lemma calculateBollingerBandwidth_nonnegative_witness :
  List.length (calculateBollingerBandwidth (fun _ : Q => 0%Q) (risingBars 3 100) 2 2%Q)
  = List.length (risingBars (N:=Q) 3 100)
  /\ ((2 + 1 < 2)%nat ->
      at_ (calculateBollingerBandwidth (fun _ : Q => 0%Q) (risingBars 3 100) 2 2%Q) 2 = None)
  /\ ((2 <= 2 + 1)%nat -> (2 < List.length (risingBars (N:=Q) 3 100))%nat ->
      exists v m u l : Q,
        at_ (calculateBollingerBandwidth (fun _ : Q => 0%Q) (risingBars 3 100) 2 2%Q) 2
        = Some v
        /\ at_ (middle (calculateBollingerBands (fun _ : Q => 0%Q) (risingBars 3 100) 2 2%Q)) 2
           = Some m
        /\ at_ (upper (calculateBollingerBands (fun _ : Q => 0%Q) (risingBars 3 100) 2 2%Q)) 2
           = Some u
        /\ at_ (lower (calculateBollingerBands (fun _ : Q => 0%Q) (risingBars 3 100) 2 2%Q)) 2
           = Some l
        /\ (0 < m)%Q /\ (v == (u - l) / m * 100)%Q /\ (0 <= v)%Q).
Proof.
  apply (@calculateBollingerBandwidth_nonnegative (fun _ : Q => 0%Q)
           (risingBars 3 100) 2%nat 2%Q 2%nat).
  - intros x. vm_compute. discriminate.
  - vm_compute. discriminate.
  - lia.
  - intros b Hb. vm_compute in Hb.
    repeat (destruct Hb as [<-|Hb]; [vm_compute; reflexivity|]). contradiction.
Defined.

(** Three rising bars between 100 and 102, windows 2, 3 and 2. *)
Lemma calculateMACD_within_spread_witness :
  (forall v, In (Some v) (macd (calculateMACD (risingBars 3 100) 2 3 2)) ->
             (100 - 102 <= v)%Q /\ (v <= 102 - 100)%Q)
  /\ (forall v, In (Some v) (signal_line (calculateMACD (risingBars 3 100) 2 3 2)) ->
                (100 - 102 <= v)%Q /\ (v <= 102 - 100)%Q).
Proof.
  apply (@calculateMACD_within_spread 100%Q 102%Q (risingBars 3 100) 2%Z 3%Z 2%Z);
    try lia.
  intros p Hp. vm_compute in Hp.
  repeat (destruct Hp as [<-|Hp]; [split; vm_compute; discriminate|]). contradiction.
Defined.

(** Three bars with high 2, low 1 and close 1, windows 2 and 2: the %D
    value at index 2. *)
Lemma percentD_range_witness :
  exists v : Q,
    nth_error (percentD (calculateStochasticOscillator (repeat lowCloseBar 3) 2 2)) 2
    = Some (Some v)
    /\ (0 <= v)%Q /\ (v <= 100)%Q.
Proof.
  eexists. split; [vm_compute; reflexivity|].
  apply (@percentD_range (repeat lowCloseBar 3) 2%nat 2%nat).
  - lia.
  - lia.
  - intros b Hb. apply repeat_spec in Hb. subst b. split; vm_compute; discriminate.
  - apply (@nth_error_In _ _ 2%nat). vm_compute. reflexivity.
Defined.
